(** * RescueLink backend: incident lifecycle, verified against the route handlers

    A shallow embedding of the Express route handlers of the backend
    (alerts, crash events, SOS requests, the combined incident list) and of
    the socket holder module, followed by the properties the specification
    states about them.

    Modelling conventions.
    - JavaScript values that travel through the handlers (request bodies,
      table cells) are [jsval]: the primitives of JSON plus [undefined] and
      an opaque reference for host objects such as the Socket.IO server.
      Numbers are rationals: a JSON body carries finite decimal numbers;
      what the builtins compute ([parseInt], [parseFloat], [+]) is rounded
      to a double.  Text is held as its UTF-8 bytes.
    - A JavaScript object used as a record (a request body, a table row, an
      update payload) is a [gmap string jsval]; reading a missing property
      gives [undefined].
    - The hosted database is not part of the repository.  It is modelled as
      named tables of rows keyed by their primary key; the query-builder
      calls of the handlers ([from], [update], [eq], [single], ...) are the
      functions of section "The store".
    - A handler is a function from the request and the state of the process
      (tables, socket holder, broadcasts and store writes so far) to a
      response and a new state. *)

From Stdlib Require Import QArith.
From Stdlib Require Import Ascii DecimalString.
From stdpp Require Import gmap strings list fin_maps sorting.

Open Scope string_scope.

(** ** JavaScript values *)

Inductive jsval : Type :=
  | JUndefined
  | JNull
  | JBool (b : bool)
  | JNum (q : Q)
  | JStr (s : string)
  | JRef (h : nat).

(** A JavaScript number that need not be finite. *)
Inductive number : Type :=
  | NaN
  | Infinity (negative : bool)
  | Finite (q : Q).

(** An integer as a JavaScript number. *)
Definition JInt (z : Z) : jsval := JNum (inject_Z z).

(** The number a primary key is read back as. *)
Definition JKey (k : positive) : jsval := JInt (Zpos k).

(** [ToBoolean]: what [if (v)], [!v] and [v || w] test. *)
Definition truthy (v : jsval) : bool :=
  match v with
  | JUndefined | JNull => false
  | JBool b => b
  | JNum q => negb (Qeq_bool q 0)
  | JStr s => negb (String.eqb s "")
  | JRef _ => true
  end.

(** [a === b]. *)
Definition strict_eq (a b : jsval) : bool :=
  match a, b with
  | JUndefined, JUndefined => true
  | JNull, JNull => true
  | JBool x, JBool y => Bool.eqb x y
  | JNum x, JNum y => Qeq_bool x y
  | JStr x, JStr y => String.eqb x y
  | JRef x, JRef y => Nat.eqb x y
  | _, _ => false
  end.

(** [a || b]. *)
Definition js_or (a b : jsval) : jsval := if truthy a then a else b.

(** [typeof v === 'number']. *)
Definition is_number (v : jsval) : bool :=
  match v with JNum _ => true | _ => false end.

Definition is_undefined (v : jsval) : bool :=
  match v with JUndefined => true | _ => false end.

(** [v] is [null] or [undefined]. *)
Definition nullish (v : jsval) : bool :=
  match v with JUndefined | JNull => true | _ => false end.

(** [xs.includes(v)] for an array of string literals. *)
Definition includes (xs : list string) (v : jsval) : bool :=
  existsb (strict_eq v) (JStr <$> xs).

(** A JavaScript object with primitive properties. *)
Abbreviation obj := (gmap string jsval).

(** [o.k]: a missing property reads as [undefined]. *)
Definition prop (o : obj) (k : string) : jsval := default JUndefined (o !! k).

Notation "o .[ k ]" := (prop o k) (at level 1, left associativity, format "o .[ k ]").

(** An object literal [{k1: v1, ..., kn: vn}]; a later key wins. *)
Definition object (kvs : list (string * jsval)) : obj :=
  foldl (fun o kv => <[kv.1 := kv.2]> o) ∅ kvs.

(** ** Primary keys

    Rows are keyed by the positive integer the store assigned to them.  A
    JavaScript value names a row when it is that integer, as a number or as
    its decimal spelling (the path parameter of a request is always text). *)

Definition key_of_string (s : string) : option positive :=
  match NilEmpty.uint_of_string s with
  | Some u => match N.of_uint u with
              | Npos p => Some p
              | N0 => None
              end
  | None => None
  end.

Definition key_of_Q (q : Q) : option positive :=
  let r := Qred q in
  match Qnum r, Qden r with
  | Zpos p, xH => Some p
  | _, _ => None
  end.

Definition as_key (v : jsval) : option positive :=
  match v with
  | JNum q => key_of_Q q
  | JStr s => key_of_string s
  | _ => None
  end.

(** ** Responses, broadcasts and the state of the process *)

(** One element of the combined incident list ([/api/v1/allAlerts]). *)
Record incident := Incident {
  source : string;
  inc_id : jsval;
  userId : jsval;
  inc_status : jsval;
  timestamp : jsval;
  latitude : jsval;
  longitude : jsval;
  inc_data : obj;
}.

(** Page counters of a paginated answer; [limit] and [offset] are the
    numbers the handler computed (JSON shows [NaN] and the infinities as
    [null]). *)
Record pagination := Pagination {
  total : nat;
  limit : number;
  offset : number;
  returned : nat;
}.

(** What is handed to [res.json] or [io.emit]. *)
Inductive payload : Type :=
  | PMessage (m : string)
  | PData (d : option obj)
  | PRows (l : option (list obj))
  | PNamed (m : string) (k : string) (d : option obj)
  | PId (id : string)
  | PPage (items : list incident) (p : pagination).

Record response := Response { code : Z; body : payload }.

(** [res.json(x)] answers with status 200. *)
Definition json (x : payload) : response := Response 200 x.

(** [res.status(c).json({ message: m })]. *)
Definition status_message (c : Z) (m : string) : response :=
  Response c (PMessage m).

(** What the store answers to a call: [{ data, error }]. *)
Record reply (A : Type) := Reply { data : option A; error : option string }.
Arguments Reply {A} data error.
Arguments data {A} r.
Arguments error {A} r.

(** A write issued to the store. *)
Inductive store_call : Type :=
  | Insert (tbl : string) (r : obj)
  | Update (tbl : string) (key : jsval) (patch : obj)
  | Delete (tbl : string) (key : jsval).

Abbreviation table := (gmap positive obj).

Record world := World {
  db : gmap string table;
  io : jsval;
  emitted : list (string * payload);
  calls : list store_call;
}.

(** The authenticated caller, as decoded from the bearer token. *)
Record actor := Actor { id : positive; role : string }.

Record request := Request {
  user : actor;
  params_id : string;
  query : obj;
  req_body : obj;
  now : string;
}.

(** ** Computations that may throw *)

Inductive outcome (A : Type) : Type :=
  | Val (a : A)
  | Throw (msg : string).
Arguments Val {A} a.
Arguments Throw {A} msg.

Definition js (A : Type) : Type := world -> outcome A * world.

Definition throw {A} (msg : string) : js A := fun w => (Throw msg, w).

#[global] Instance js_ret : MRet js := fun A a w => (Val a, w).

#[global] Instance js_bind : MBind js := fun A B k m w =>
  match m w with
  | (Val a, w') => k a w'
  | (Throw e, w') => (Throw e, w')
  end.

(** [if (c) { m }] for a statement. *)
Definition when (c : bool) (m : js unit) : js unit := if c then m else mret tt.

(** [error.message || fallback]. *)
Definition message_or (msg fallback : string) : string :=
  if String.eqb msg "" then fallback else msg.

(** The whole [async (req, res) => { try { body } catch (error) { ... } }]:
    the [catch] answers 500 with [error.message], or with the fallback text
    where the handler writes [error.message || 'Server error']. *)
Definition handle (fallback : option string) (body : js response) (w : world)
  : response * world :=
  match body w with
  | (Val r, w') => (r, w')
  | (Throw e, w') =>
      (status_message 500 (from_option (message_or e) e fallback), w')
  end.

(** ** The store

    The hosted database, seen through the calls the handlers make.  A cell
    holds the JavaScript value that was written to it; the column typing of
    the real schema (coercion of numeric text, rejection of ill-typed
    values, foreign keys) is outside the model, as are the embedded
    resources of a [select] (the joined user, vehicle and responder). *)

Definition no_rows : string :=
  "JSON object requested, multiple (or no) rows returned".

Definition duplicate_key : string :=
  "duplicate key value violates unique constraint".

(** [supabase.from(name)]: an unknown table has no rows. *)
Definition from (w : world) (name : string) : table :=
  default ∅ (db w !! name).

Definition set_table (name : string) (t : table) (w : world) : world :=
  World (<[name := t]> (db w)) (io w) (emitted w) (calls w).

Definition log_call (c : store_call) (w : world) : world :=
  World (db w) (io w) (emitted w) (calls w ++ [c]).

(** A row as the client reads it: its columns and its key. *)
Definition with_id (k : positive) (r : obj) : obj := <["id" := JKey k]> r.

(** [.select(cols)]: [None] is ['*']. *)
Definition project (cols : option (list string)) (r : obj) : obj :=
  match cols with
  | None => r
  | Some cs => filter (fun kv => kv.1 ∈ cs) r
  end.

(** [.eq('id', v)]: the row [v] names, if any. *)
Definition find_row (t : table) (v : jsval) : option (positive * obj) :=
  k ← as_key v; r ← t !! k; Some (k, r).

(** The key of a row after [patch] is applied to it: unchanged unless the
    patch writes the [id] column; [None] when the new key is not a key or
    is taken by another row. *)
Definition new_key (k : positive) (patch : obj) (t : table) : option positive :=
  match patch !! "id" with
  | None => Some k
  | Some v =>
      match as_key v with
      | Some k' =>
          if bool_decide (k' = k) then Some k
          else match t !! k' with
               | None => Some k'
               | Some _ => None
               end
      | None => None
      end
  end.

Inductive updated : Type :=
  | UpdError (e : string)
  | UpdNone
  | UpdRow (k : positive) (r : obj) (t' : table).

(** [.update(patch).eq('id', v)] on one table: the columns of the patch
    overwrite those of the row. *)
Definition update_eq_id (t : table) (v : jsval) (patch : obj) : updated :=
  match find_row t v with
  | None => UpdNone
  | Some (k, r) =>
      match new_key k patch t with
      | None => UpdError duplicate_key
      | Some k' =>
          let r' := delete "id" (patch ∪ r) in
          UpdRow k' r' (<[k' := r']> (delete k t))
      end
  end.

(** The table after an update, and the error it reports if any. *)
Definition updated_world (name : string) (u : updated) (w : world) : world :=
  match u with
  | UpdRow _ _ t' => set_table name t' w
  | _ => w
  end.

Definition updated_error (u : updated) : option string :=
  match u with
  | UpdError e => Some e
  | _ => None
  end.

(** The answer of [.select().single()] after an update: no matching row is
    an error of [single]. *)
Definition single_reply (u : updated) : reply obj :=
  match u with
  | UpdError e => Reply None (Some e)
  | UpdNone => Reply None (Some no_rows)
  | UpdRow k r _ => Reply (Some (with_id k r)) None
  end.

(** [await supabase.from(name).select(cols).eq('id', v).single()]. *)
Definition select_single (name : string) (cols : option (list string)) (v : jsval)
  : js (reply obj) := fun w =>
  (Val match find_row (from w name) v with
       | Some (k, r) => Reply (Some (project cols (with_id k r))) None
       | None => Reply None (Some no_rows)
       end, w).

(** [await supabase.from(name).update(patch).eq('id', v).select().single()]. *)
Definition update_single (name : string) (v : jsval) (patch : obj)
  : js (reply obj) := fun w =>
  let u := update_eq_id (from w name) v patch in
  (Val (single_reply u), updated_world name u (log_call (Update name v patch) w)).

(** [await supabase.from(name).update(patch).eq('id', v)]: no matching row
    is no error. *)
Definition update_where (name : string) (v : jsval) (patch : obj)
  : js (reply unit) := fun w =>
  let u := update_eq_id (from w name) v patch in
  (Val (Reply None (updated_error u)),
   updated_world name u (log_call (Update name v patch) w)).

(** [await supabase.from(name).delete().eq('id', v)]. *)
Definition delete_where (name : string) (v : jsval) : js (reply unit) := fun w =>
  let w1 := log_call (Delete name v) w in
  (Val (Reply None None),
   match find_row (from w name) v with
   | Some (k, _) => set_table name (delete k (from w name)) w1
   | None => w1
   end).

(** Modelled from the spec: the table schema is not among the sources.  The
    specification's data model gives an incident nullable assignment fields
    that are empty on creation and a creation timestamp; the alert handlers
    read [assigned_vehicle_id], [assigned_responder_id] and [reported_at]
    without ever writing them on creation, so the [alerts] table fills them
    in.  The other tables get no column beyond what the handler inserts. *)
Definition column_defaults (name : string) (nw : string) : obj :=
  if String.eqb name "alerts" then
    object [("assigned_vehicle_id", JNull);
            ("assigned_responder_id", JNull);
            ("reported_at", JStr nw)]
  else ∅.

(** [await supabase.from(name).insert([r]).select().single()]: the store
    picks a key that is not in use. *)
Definition insert_single (name : string) (nw : string) (r : obj)
  : js (reply obj) := fun w =>
  let t := from w name in
  let k := fresh (dom t) in
  let r' := delete "id" (r ∪ column_defaults name nw) in
  (Val (Reply (Some (with_id k r')) None),
   set_table name (<[k := r']> t) (log_call (Insert name r) w)).

(** *** Reading lists of rows *)

Inductive cond : Type :=
  | CEq (col : string) (v : jsval)
  | CGte (col : string) (v : jsval)
  | CLte (col : string) (v : jsval).

(** A query under construction: [supabase.from(t).select('*')] followed by
    filters and an optional descending order. *)
Record select_query := Select {
  sq_from : string;
  sq_conds : list cond;
  sq_order : option string;
}.

Definition select_from (name : string) : select_query := Select name [] None.

Definition q_eq (col : string) (v : jsval) (q : select_query) : select_query :=
  Select (sq_from q) (sq_conds q ++ [CEq col v]) (sq_order q).

Definition q_gte (col : string) (v : jsval) (q : select_query) : select_query :=
  Select (sq_from q) (sq_conds q ++ [CGte col v]) (sq_order q).

Definition q_lte (col : string) (v : jsval) (q : select_query) : select_query :=
  Select (sq_from q) (sq_conds q ++ [CLte col v]) (sq_order q).

(** [.order(col, { ascending: false })]. *)
Definition q_order (col : string) (q : select_query) : select_query :=
  Select (sq_from q) (sq_conds q) (Some col).

(** Equality of a cell with a filter value.  Filter values reach the store
    as text, so a key matches in either spelling; [NULL] equals nothing. *)
Definition pg_eq (cell v : jsval) : bool :=
  match cell, v with
  | JStr a, JStr b => String.eqb a b
  | JNum a, JNum b => Qeq_bool a b
  | JBool a, JBool b => Bool.eqb a b
  | JNum _, JStr _ | JStr _, JNum _ =>
      match as_key cell, as_key v with
      | Some a, Some b => Pos.eqb a b
      | _, _ => false
      end
  | _, _ => false
  end.

(** Order of two cells of one column; timestamps are ISO-8601 text of one
    width, which text order sorts by time.  [NULL] sorts last ascending. *)
Definition cell_leb (a b : jsval) : bool :=
  match a, b with
  | JNum x, JNum y => Qle_bool x y
  | JStr x, JStr y => String.leb x y
  | _, JNull | _, JUndefined => true
  | _, _ => false
  end.

Definition holds (c : cond) (r : obj) : bool :=
  match c with
  | CEq col v => pg_eq r.[col] v
  | CGte col v => negb (nullish r.[col]) && cell_leb v r.[col]
  | CLte col v => negb (nullish r.[col]) && cell_leb r.[col] v
  end.

Definition rows_of (t : table) : list obj :=
  (fun kr => with_id kr.1 kr.2) <$> map_to_list t.

(** [a] may come before [b] when sorting on [col], descending. *)
Definition before_desc (col : string) (a b : obj) : Prop :=
  Is_true (cell_leb b.[col] a.[col]).

#[global] Instance before_desc_dec col a b : Decision (before_desc col a b).
Proof. unfold before_desc. apply _. Defined.

Definition order_desc (col : string) (l : list obj) : list obj :=
  merge_sort (before_desc col) l.

(** [await query]. *)
Definition await_rows (q : select_query) : js (reply (list obj)) := fun w =>
  let rows :=
    filter (fun r => Is_true (forallb (fun c => holds c r) (sq_conds q)))
           (rows_of (from w (sq_from q))) in
  (Val (Reply (Some (from_option (fun c => order_desc c rows) rows (sq_order q))) None), w).

(** ** Builtins of the language

    Text is held as its UTF-8 bytes.  Numbers computed by the builtins are
    rounded to doubles. *)

(** *** Numbers as IEEE 754 doubles *)

(** [n / d] rounded to the nearest integer, ties to even; [0 <= n], [0 < d]. *)
Definition round_half_even (n d : Z) : Z :=
  let q := (n / d)%Z in
  match (2 * (n mod d) ?= d)%Z with
  | Lt => q
  | Gt => (q + 1)%Z
  | Eq => if Z.even q then q else (q + 1)%Z
  end.

(** [m * 2 ^ e]. *)
Definition scale2 (m e : Z) : Q :=
  if (0 <=? e)%Z then inject_Z (m * 2 ^ e) else m # Z.to_pos (2 ^ (- e)).

(** The double nearest to [q]: 53 bits of significand, exponents down to
    the subnormals, ties to even, overflow to infinity. *)
Definition to_double (q : Q) : number :=
  let n := Z.abs (Qnum q) in
  let d := Zpos (Qden q) in
  if (n =? 0)%Z then Finite 0 else
  let scaled e := if (0 <=? e)%Z then (n, d * 2 ^ e)%Z else (n * 2 ^ (- e), d)%Z in
  let e0 := (Z.log2 n - Z.log2 d - 52)%Z in
  let e1 := if ((scaled e0).1 <? 2 ^ 52 * (scaled e0).2)%Z then (e0 - 1)%Z else e0 in
  let e := Z.max e1 (-1074) in
  let m := round_half_even (scaled e).1 (scaled e).2 in
  let negative := (Qnum q <? 0)%Z in
  if (971 <? e)%Z || ((e =? 971)%Z && (2 ^ 53 <=? m)%Z) then Infinity negative
  else Finite (Qred (scale2 (if negative then - m else m) e)).

(** [a + b] on numbers. *)
Definition number_add (a b : number) : number :=
  match a, b with
  | NaN, _ | _, NaN => NaN
  | Infinity x, Infinity y => if Bool.eqb x y then Infinity x else NaN
  | Infinity x, _ | _, Infinity x => Infinity x
  | Finite x, Finite y => to_double (x + y)
  end.

(** [ToIntegerOrInfinity] of a finite number: the fraction is dropped. *)
Definition truncate (q : Q) : Z := Z.quot (Qnum q) (Zpos (Qden q)).

(** *** Text *)

(** Text is held as its UTF-8 bytes. *)
Definition byte (c : ascii) : N := N_of_ascii c.

(** The white space and line terminators of ECMAScript that take one byte
    (TAB, LF, VT, FF, CR, SP), two bytes (U+00A0) and three bytes (U+1680,
    U+2000 to U+200A, U+2028, U+2029, U+202F, U+205F, U+3000, U+FEFF). *)
Definition is_space (c : ascii) : bool :=
  match byte c with
  | 9%N | 10%N | 11%N | 12%N | 13%N | 32%N => true
  | _ => false
  end.

Definition is_space2 (c1 c2 : ascii) : bool :=
  (byte c1 =? 194)%N && (byte c2 =? 160)%N.

Definition is_space3 (c1 c2 c3 : ascii) : bool :=
  match byte c1, byte c2, byte c3 with
  | 225%N, 154%N, 128%N => true
  | 226%N, 128%N, b => (128 <=? b)%N && (b <=? 138)%N || (b =? 168)%N || (b =? 169)%N
                       || (b =? 175)%N
  | 226%N, 129%N, 159%N => true
  | 227%N, 128%N, 128%N => true
  | 239%N, 187%N, 191%N => true
  | _, _, _ => false
  end.

(** Drops the white space at the head; [two] and [three] recognise the
    characters of two and three bytes. *)
Fixpoint drop_space (two : ascii → ascii → bool) (three : ascii → ascii → ascii → bool)
    (s : string) : string :=
  match s with
  | EmptyString => s
  | String c1 s1 =>
      if is_space c1 then drop_space two three s1 else
      match s1 with
      | EmptyString => s
      | String c2 s2 =>
          if two c1 c2 then drop_space two three s2 else
          match s2 with
          | EmptyString => s
          | String c3 s3 => if three c1 c2 c3 then drop_space two three s3 else s
          end
      end
  end.

(** [s.trimStart()]. *)
Definition ltrim (s : string) : string := drop_space is_space2 is_space3 s.

(** [s.trimEnd()]: the same from the end, where the bytes of a character
    come in reverse. *)
Definition rtrim (s : string) : string :=
  String.rev (drop_space (fun c1 c2 => is_space2 c2 c1)
                (fun c1 c2 c3 => is_space3 c3 c2 c1) (String.rev s)).

(** [s.trim()]. *)
Definition trim (s : string) : string := rtrim (ltrim s).

(** The value of a digit in radix [radix] (10 or 16). *)
Definition digit_of (radix : Z) (c : ascii) : option Z :=
  let n := Z.of_N (byte c) in
  if (48 <=? n)%Z && (n <=? 57)%Z then Some (n - 48)%Z
  else if (radix =? 16)%Z && (97 <=? n)%Z && (n <=? 102)%Z then Some (n - 87)%Z
  else if (radix =? 16)%Z && (65 <=? n)%Z && (n <=? 70)%Z then Some (n - 55)%Z
  else None.

(** The leading digits of [s]: their value, their number, and the rest. *)
Fixpoint read_digits (radix : Z) (s : string) (acc : Z) (n : nat) : Z * nat * string :=
  match s with
  | String c s' =>
      match digit_of radix c with
      | Some d => read_digits radix s' (radix * acc + d)%Z (S n)
      | None => (acc, n, s)
      end
  | EmptyString => (acc, n, s)
  end.

(** [10 ^ e]. *)
Definition pow10 (e : Z) : Q :=
  if (0 <=? e)%Z then inject_Z (10 ^ e) else 1 # Z.to_pos (10 ^ (- e)).

(** The exponent part [e±ddd] at the head of [s], if there is one. *)
Definition read_exponent (s : string) : Z :=
  match s with
  | String c s1 =>
      if (byte c =? 101)%N || (byte c =? 69)%N then
        let unsigned s' := let '(e, n, _) := read_digits 10 s' 0%Z 0%nat in
                           if Nat.eqb n 0 then None else Some e in
        match s1 with
        | String "-"%char s2 => default 0%Z (Z.opp <$> unsigned s2)
        | String "+"%char s2 => default 0%Z (unsigned s2)
        | _ => default 0%Z (unsigned s1)
        end
      else 0%Z
  | EmptyString => 0%Z
  end.

(** The number of decimal digits of [i > 0]. *)
Definition digits10 (i : Z) : Z := Z.of_nat (String.length (NilZero.string_of_uint (N.to_uint (Z.to_N i)))).

(** A decimal literal [ddd.ddd e±dd] at the head of [s], as a double. *)
Definition read_decimal (s : string) : number :=
  let '(i, ni, rest) := read_digits 10 s 0%Z 0%nat in
  let '(f, nf, rest') :=
    match rest with
    | String "."%char r => read_digits 10 r 0%Z 0%nat
    | _ => (0%Z, 0%nat, rest)
    end in
  if Nat.eqb ni 0 && Nat.eqb nf 0 then NaN else
  let mantissa := (i * 10 ^ Z.of_nat nf + f)%Z in
  let e := (read_exponent rest' - Z.of_nat nf)%Z in
  if (mantissa =? 0)%Z then Finite 0
  else if (310 <? digits10 mantissa + e)%Z then Infinity false
  else if (digits10 mantissa + e <? -330)%Z then Finite 0
  else to_double (inject_Z mantissa * pow10 e).

Definition number_opp (x : number) : number :=
  match x with
  | NaN => NaN
  | Infinity n => Infinity (negb n)
  | Finite q => Finite (- q)
  end.

(** [parseFloat] on text: white space, a sign, then [Infinity] or the
    longest decimal literal. *)
Definition parseFloat_text (s : string) : number :=
  let unsigned s' :=
    if String.prefix "Infinity" s' then Infinity false else read_decimal s' in
  match ltrim s with
  | String "-"%char s' => number_opp (unsigned s')
  | String "+"%char s' => unsigned s'
  | s' => unsigned s'
  end.

(** *** [Number::toString] *)

(** The decimal exponent of [a > 0]: the [n] with [10^(n-1) <= a < 10^n]. *)
Fixpoint dec_exp_from (fuel : nat) (a : Q) (n : Z) : Z :=
  match fuel with
  | O => n
  | S fuel' => if Qle_bool (pow10 n) a then dec_exp_from fuel' a (n + 1) else n
  end.

Definition dec_exp (a : Q) : Z :=
  let l := (Z.log2 (Qnum a) - Z.log2 (Zpos (Qden a)))%Z in
  dec_exp_from 8 a ((l - 1) * 30103 / 100000 - 1).

Definition same_double (x y : Q) : bool :=
  match to_double x, to_double y with
  | Finite u, Finite v => Qeq_bool u v
  | _, _ => false
  end.

(** The shortest digits that read back as the double [a > 0]: the integer
    [s] and the exponent [n] with [a] the double of [s * 10^(n-k)], [k] the
    number of digits of [s]; of two candidates of one length the closer
    one, and the even one when they are as close. *)
Fixpoint shortest_from (fuel : nat) (a : Q) (n k : Z) : Z * Z :=
  let unit := pow10 (n - k) in
  let lo := truncate (a / unit) in
  let hi := (lo + 1)%Z in
  let ok s := same_double (inject_Z s * unit) a in
  let pick :=
    match ok lo, ok hi with
    | true, true =>
        match Qcompare (a - inject_Z lo * unit) (inject_Z hi * unit - a) with
        | Lt => Some lo
        | Gt => Some hi
        | Eq => Some (if Z.even lo then lo else hi)
        end
    | true, false => Some lo
    | false, true => Some hi
    | false, false => None
    end in
  match pick, fuel with
  | Some s, _ => (s, (n - k)%Z)
  | None, S fuel' => shortest_from fuel' a n (k + 1)
  | None, O => (lo, (n - k)%Z)
  end.

(** Drops the zeros at the end of [s > 0], adding them to the exponent. *)
Fixpoint strip_zeros (fuel : nat) (s e : Z) : Z * Z :=
  match fuel with
  | S fuel' => if (s mod 10 =? 0)%Z then strip_zeros fuel' (s / 10)%Z (e + 1)%Z else (s, e)
  | O => (s, e)
  end.

Definition decimal (i : Z) : string := NilZero.string_of_uint (N.to_uint (Z.to_N i)).

Fixpoint zeros (n : nat) : string :=
  match n with
  | O => EmptyString
  | S n' => String "0"%char (zeros n')
  end.

(** [String(a)] for a finite [a > 0]. *)
Definition positive_to_string (a : Q) : string :=
  let '(s0, e0) := shortest_from 17 a (dec_exp a) 1 in
  let '(s, e) := strip_zeros 20 s0 e0 in
  let ds := decimal s in
  let k := Z.of_nat (String.length ds) in
  let n := (k + e)%Z in
  if (k <=? n)%Z && (n <=? 21)%Z then ds ++ zeros (Z.to_nat (n - k))
  else if (0 <? n)%Z && (n <=? 21)%Z
  then String.substring 0 (Z.to_nat n) ds ++ "." ++
       String.substring (Z.to_nat n) (Z.to_nat (k - n)) ds
  else if (-6 <? n)%Z && (n <=? 0)%Z then "0." ++ zeros (Z.to_nat (- n)) ++ ds
  else
    let ex := (if (0 <=? n - 1)%Z then "+" else "-") ++ decimal (Z.abs (n - 1)) in
    if (k =? 1)%Z then ds ++ "e" ++ ex
    else String.substring 0 1 ds ++ "." ++
         String.substring 1 (Z.to_nat (k - 1)) ds ++ "e" ++ ex.

(** [String(q)]. *)
Definition rational_to_string (q : Q) : string :=
  match to_double q with
  | Finite x =>
      match (Qnum x ?= 0)%Z with
      | Eq => "0"
      | Gt => positive_to_string x
      | Lt => "-" ++ positive_to_string (- x)
      end
  | Infinity false => "Infinity"
  | Infinity true => "-Infinity"
  | NaN => "NaN"
  end.

(** *** [parseInt] and [parseFloat] *)

(** [parseInt] on text, without a radix: white space, a sign, [0x] or [0X]
    for radix 16, then the digits. *)
Definition parseInt_text (s : string) : number :=
  let unsigned s' :=
    let '(radix, s'') :=
      match s' with
      | String "0"%char (String "x"%char r) | String "0"%char (String "X"%char r) =>
          (16%Z, r)
      | _ => (10%Z, s')
      end in
    let '(i, n, _) := read_digits radix s'' 0%Z 0%nat in
    if Nat.eqb n 0 then NaN else to_double (inject_Z i) in
  match ltrim s with
  | String "-"%char s' => number_opp (unsigned s')
  | String "+"%char s' => unsigned s'
  | s' => unsigned s'
  end.

(** *** [new Date(v)] *)

(** Exactly [n] decimal digits at the head of [s]. *)
Fixpoint digits_exact (n : nat) (s : string) (acc : Z) : option (Z * string) :=
  match n with
  | O => Some (acc, s)
  | S n' =>
      match s with
      | String c s' =>
          match digit_of 10 c with
          | Some d => digits_exact n' s' (10 * acc + d)%Z
          | None => None
          end
      | EmptyString => None
      end
  end.

(** The days from 1970-01-01 to the given day of the proleptic Gregorian
    calendar. *)
Definition days_from_civil (y m d : Z) : Z :=
  let y' := if (m <=? 2)%Z then (y - 1)%Z else y in
  let era := (y' / 400)%Z in
  let yoe := (y' - era * 400)%Z in
  let mp := ((m + 9) mod 12)%Z in
  let doy := ((153 * mp + 2) / 5 + d - 1)%Z in
  let doe := (yoe * 365 + yoe / 4 - yoe / 100 + doy)%Z in
  (era * 146097 + doe - 719468)%Z.

(** [TimeClip]. *)
Definition time_clip (t : Z) : option Z :=
  if (Z.abs t <=? 8640000000000000)%Z then Some t else None.

(** The year of a date string: four digits, or a sign and six. *)
Definition read_year (s : string) : option (Z * string) :=
  match s with
  | String "+"%char s' => digits_exact 6 s' 0
  | String "-"%char s' =>
      '(y, r) ← digits_exact 6 s' 0;
      if (y =? 0)%Z then None else Some ((- y)%Z, r)
  | _ => digits_exact 4 s 0
  end.

(** [-MM] and [-DD], each optional, the day only after the month. *)
Definition read_month_day (s : string) : option (Z * Z * string) :=
  match s with
  | String "-"%char s1 =>
      '(m, r) ← digits_exact 2 s1 0;
      match r with
      | String "-"%char s2 =>
          '(d, r') ← digits_exact 2 s2 0; Some (m, d, r')
      | _ => Some (m, 1%Z, r)
      end
  | _ => Some (1%Z, 1%Z, s)
  end.

(** The first three digits of a fraction of a second, as milliseconds. *)
Definition read_millis (s : string) : option (Z * string) :=
  let '(_, n, rest) := read_digits 10 s 0%Z 0%nat in
  if Nat.eqb n 0 then None
  else
    let '(v, k, _) := read_digits 10 (String.substring 0 3 s) 0%Z 0%nat in
    Some ((v * 10 ^ Z.of_nat (3 - k))%Z, rest).

(** [Z] or [±HH:mm], in minutes east of Greenwich; no offset is read as
    UTC (the process is taken to run in UTC). *)
Definition read_offset (s : string) : option Z :=
  let hm s' :=
    '(h, r) ← digits_exact 2 s' 0;
    match r with
    | String ":"%char r' =>
        '(m, r'') ← digits_exact 2 r' 0;
        if String.eqb r'' EmptyString && (h <=? 23)%Z && (m <=? 59)%Z
        then Some (h * 60 + m)%Z else None
    | _ => None
    end in
  match s with
  | EmptyString => Some 0%Z
  | String "Z"%char EmptyString => Some 0%Z
  | String "+"%char s' => hm s'
  | String "-"%char s' => Z.opp <$> hm s'
  | _ => None
  end.

(** [THH:mm], [THH:mm:ss] or [THH:mm:ss.sss] and the offset: milliseconds
    into the day, less the offset. *)
Definition read_time (s : string) : option Z :=
  '(h, r1) ← digits_exact 2 s 0;
  match r1 with
  | String ":"%char s2 =>
      '(mi, r2) ← digits_exact 2 s2 0;
      '(sec, ms, r4) ←
        match r2 with
        | String ":"%char s3 =>
            '(sec, r3) ← digits_exact 2 s3 0;
            match r3 with
            | String "."%char s4 => '(ms, r4) ← read_millis s4; Some (sec, ms, r4)
            | _ => Some (sec, 0%Z, r3)
            end
        | _ => Some (0%Z, 0%Z, r2)
        end;
      off ← read_offset r4;
      if ((h <=? 23)%Z && (mi <=? 59)%Z && (sec <=? 59)%Z)
         || ((h =? 24)%Z && (mi =? 0)%Z && (sec =? 0)%Z && (ms =? 0)%Z)
      then Some (h * 3600000 + mi * 60000 + sec * 1000 + ms - off * 60000)%Z
      else None
  | _ => None
  end.

(** [Date.parse] for the date-time string format of ECMAScript
    ([YYYY-MM-DDTHH:mm:ss.sssZ] and its shorter forms); other text is not
    a date. *)
Definition date_parse (s : string) : option Z :=
  '(y, r) ← read_year s;
  '(m, d, r') ← read_month_day r;
  if (1 <=? m)%Z && (m <=? 12)%Z && (1 <=? d)%Z && (d <=? 31)%Z then
    let day := days_from_civil y m d in
    match r' with
    | EmptyString => time_clip (day * 86400000)
    | String "T"%char t => ms ← read_time t; time_clip (day * 86400000 + ms)
    | _ => None
    end
  else None.

(** [String(v)]. *)
Definition to_string (v : jsval) : string :=
  match v with
  | JUndefined => "undefined"
  | JNull => "null"
  | JBool true => "true"
  | JBool false => "false"
  | JNum q => rational_to_string q
  | JStr s => s
  | JRef _ => "[object Object]"
  end.

(** [parseInt(v)]. *)
Definition parseInt (v : jsval) : number := parseInt_text (to_string v).

(** A number as JSON carries it: [NaN] and the infinities become [null]. *)
Definition number_to_json (x : number) : jsval :=
  match x with
  | Finite q => JNum q
  | _ => JNull
  end.

(** [parseFloat(v)], as it is stored. *)
Definition parseFloat (v : jsval) : jsval :=
  number_to_json (parseFloat_text (to_string v)).

(** The time value of [new Date(v)]; [None] is an invalid date. *)
Definition date_value (v : jsval) : option Z :=
  match v with
  | JUndefined => None
  | JNull => Some 0%Z
  | JBool b => Some (if b then 1 else 0)%Z
  | JNum q =>
      if Qle_bool (-8640000000000000) q && Qle_bool q 8640000000000000
      then Some (truncate q) else None
  | JStr s => date_parse s
  | JRef _ => None
  end.

(** *** Calls on values *)

(** [recv.trim()], for a receiver that is not [null] or [undefined]: only
    text has the method; [callee] is the text of the call in the source. *)
Definition call_trim (callee : string) (v : jsval) : js jsval :=
  match v with
  | JStr s => mret (JStr (trim s))
  | JUndefined => throw "Cannot read properties of undefined (reading 'trim')"
  | JNull => throw "Cannot read properties of null (reading 'trim')"
  | _ => throw (callee ++ " is not a function")
  end.

(** [recv?.trim()]. *)
Definition call_trim_opt (callee : string) (v : jsval) : js jsval :=
  if nullish v then mret JUndefined else call_trim callee v.

(** [d.k] where [d] may be [null]. *)
Definition deref (d : option obj) (k : string) : js jsval :=
  match d with
  | Some o => mret o.[k]
  | None => throw "Cannot read properties of null"
  end.

(** ** socketInstance: the holder of the Socket.IO server *)

Module SocketInstance.

(** [let io;] *)
Definition initial_io : jsval := JUndefined.

Definition setIO (newIO : jsval) : js unit := fun w =>
  (Val tt, World (db w) newIO (emitted w) (calls w)).

Definition getIO : js jsval := fun w =>
  if negb (truthy (io w)) then (Throw "Socket.io not initialized", w)
  else (Val (io w), w).

End SocketInstance.

(** [sock.emit(event, p)]: only an object has the method. *)
Definition emit (sock : jsval) (event : string) (p : payload) : js unit := fun w =>
  match sock with
  | JRef _ => (Val tt, World (db w) (io w) (emitted w ++ [(event, p)]) (calls w))
  | _ => (Throw "io.emit is not a function", w)
  end.

(** ** routes/alerts: emergency alerts *)

Module Alerts.
Import SocketInstance.

(** [router.get('/')] *)
Definition get_list_try (req : request) : js response :=
  let status := (query req).["status"] in
  let alert_type := (query req).["alert_type"] in
  let user_id := (query req).["user_id"] in
  let q := q_order "reported_at" (select_from "alerts") in
  let q := if truthy status then q_eq "status" status q else q in
  let q := if truthy alert_type then q_eq "alert_type" alert_type q else q in
  let q :=
    if String.eqb (role (user req)) "user" then q_eq "user_id" (JKey (id (user req))) q
    else if truthy user_id then q_eq "user_id" user_id q
    else q in
  r ← await_rows q;
  match error r with
  | Some e => throw e
  | None => mret (json (PRows (data r)))
  end.

Definition get_list (req : request) : world -> response * world :=
  handle (Some "Server error") (get_list_try req).

(** [router.get('/:id')] *)
Definition get_by_id_try (req : request) : js response :=
  r ← select_single "alerts" None (JStr (params_id req));
  match error r with
  | Some e => throw e
  | None =>
      match data r with
      | None => mret (status_message 404 "Alert not found")
      | Some d =>
          if String.eqb (role (user req)) "user"
             && negb (strict_eq d.["user_id"] (JKey (id (user req))))
          then mret (status_message 403 "Access denied")
          else mret (json (PData (Some d)))
      end
  end.

Definition get_by_id (req : request) : world -> response * world :=
  handle (Some "Server error") (get_by_id_try req).

Definition validAlertTypes : list string :=
  ["medical"; "fire"; "accident"; "crime"; "natural_disaster"; "other"].

Definition validSeverities : list string := ["low"; "medium"; "high"; "critical"].

(** [router.post('/')] *)
Definition create_try (req : request) : js response :=
  let b := req_body req in
  let alert_type := b.["alert_type"] in
  let severity := b.["severity"] in
  let title := b.["title"] in
  let description := b.["description"] in
  let location := b.["location"] in
  let latitude := b.["latitude"] in
  let longitude := b.["longitude"] in
  let image_url := b.["image_url"] in
  if negb (truthy alert_type) || negb (truthy severity)
     || negb (truthy title) || negb (truthy location)
  then mret (status_message 400 "Missing required fields")
  else if negb (includes validAlertTypes alert_type)
  then mret (status_message 400 "Invalid alert type")
  else if negb (includes validSeverities severity)
  then mret (status_message 400 "Invalid severity level")
  else
    title' ← call_trim "title.trim" title;
    description' ← call_trim_opt "description?.trim" description;
    location' ← call_trim "location.trim" location;
    let alertData := object [
      ("user_id", JKey (id (user req)));
      ("alert_type", alert_type);
      ("severity", severity);
      ("title", title');
      ("description", js_or description' JNull);
      ("location", location');
      ("latitude", if truthy latitude then parseFloat latitude else JNull);
      ("longitude", if truthy longitude then parseFloat longitude else JNull);
      ("image_url", js_or image_url JNull);
      ("status", JStr "pending")] in
    r ← insert_single "alerts" (now req) alertData;
    match error r with
    | Some e => throw e
    | None =>
        sock ← getIO;
        emit sock "alert:new" (PData (data r));;
        mret (Response 201 (PData (data r)))
    end.

Definition create (req : request) : world -> response * world :=
  handle (Some "Server error") (create_try req).

(** [router.put('/:id')] *)
Definition put_by_id_try (req : request) : js response :=
  if negb (includes ["admin"; "dispatcher"] (JStr (role (user req))))
  then mret (status_message 403 "Access denied")
  else
    let updateData := <["updated_at" := JStr (now req)]> (req_body req) in
    let updateData := filter (fun kv => is_undefined kv.2 = false) updateData in
    r ← update_single "alerts" (JStr (params_id req)) updateData;
    match error r with
    | Some e => throw e
    | None =>
        match data r with
        | None => mret (status_message 404 "Alert not found")
        | Some _ =>
            sock ← getIO;
            emit sock "alert:updated" (PData (data r));;
            mret (json (PData (data r)))
        end
    end.

Definition put_by_id (req : request) : world -> response * world :=
  handle (Some "Server error") (put_by_id_try req).

Definition validStatuses : list string :=
  ["pending"; "responding"; "resolved"; "cancelled"].

(** [router.patch('/:id/status')] *)
Definition patch_status_try (req : request) : js response :=
  let status := (req_body req).["status"] in
  if negb (includes validStatuses status)
  then mret (status_message 400 "Invalid status")
  else if negb (includes ["admin"; "dispatcher"; "rescuer"] (JStr (role (user req))))
  then mret (status_message 403 "Access denied")
  else
    let updateData := object [("status", status); ("updated_at", JStr (now req))] in
    r ← update_single "alerts" (JStr (params_id req)) updateData;
    match error r with
    | Some e => throw e
    | None =>
        c ← (if strict_eq status (JStr "responding")
             then deref (data r) "assigned_vehicle_id" else mret (JBool false));
        when (truthy c)
          (v ← deref (data r) "assigned_vehicle_id";
           update_where "vehicles" v (object [("status", JStr "responding")]);;
           mret tt);;
        c ← (if strict_eq status (JStr "resolved")
             then deref (data r) "assigned_vehicle_id" else mret (JBool false));
        when (truthy c)
          (v ← deref (data r) "assigned_vehicle_id";
           update_where "vehicles" v (object [("status", JStr "available")]);;
           mret tt);;
        sock ← getIO;
        emit sock "alert:status_updated" (PData (data r));;
        mret (json (PData (data r)))
    end.

Definition patch_status (req : request) : world -> response * world :=
  handle (Some "Server error") (patch_status_try req).

(** [router.patch('/:id/assign')] *)
Definition patch_assign_try (req : request) : js response :=
  let vehicle_id := (req_body req).["vehicle_id"] in
  let responder_id := (req_body req).["responder_id"] in
  if negb (includes ["admin"; "dispatcher"] (JStr (role (user req))))
  then mret (status_message 403 "Access denied")
  else
    cur ← select_single "alerts" (Some ["assigned_vehicle_id"]) (JStr (params_id req));
    match error cur with
    | Some e => throw e
    | None =>
        let currentAlert := data cur in
        let updateData := object [
          ("assigned_vehicle_id", js_or vehicle_id JNull);
          ("assigned_responder_id", js_or responder_id JNull);
          ("updated_at", JStr (now req))] in
        upd ← update_single "alerts" (JStr (params_id req)) updateData;
        match error upd with
        | Some e => throw e
        | None =>
            let previous := from_option (fun o => o.["assigned_vehicle_id"]) JUndefined currentAlert in
            when (truthy previous && negb (strict_eq previous vehicle_id))
              (update_where "vehicles" previous (object [("status", JStr "available")]);;
               mret tt);;
            when (truthy vehicle_id)
              (update_where "vehicles" vehicle_id (object [("status", JStr "assigned")]);;
               mret tt);;
            sock ← getIO;
            emit sock "alert:assigned" (PData (data upd));;
            mret (json (PData (data upd)))
        end
    end.

Definition patch_assign (req : request) : world -> response * world :=
  handle (Some "Server error") (patch_assign_try req).

(** [router.delete('/:id')] *)
Definition delete_by_id_try (req : request) : js response :=
  if negb (String.eqb (role (user req)) "admin")
  then mret (status_message 403 "Access denied. Admin only.")
  else
    r ← delete_where "alerts" (JStr (params_id req));
    match error r with
    | Some e => throw e
    | None =>
        sock ← getIO;
        emit sock "alert:deleted" (PId (params_id req));;
        mret (json (PMessage "Alert deleted successfully"))
    end.

Definition delete_by_id (req : request) : world -> response * world :=
  handle (Some "Server error") (delete_by_id_try req).

End Alerts.

(** ** routes/crash: automatic crash events *)

Module Crash.

(** [router.post('/')] *)
Definition create_try (req : request) : js response :=
  let b := req_body req in
  let latitude := b.["latitude"] in
  let longitude := b.["longitude"] in
  let impact_force := b.["impact_force"] in
  let device_battery := b.["device_battery"] in
  let network_type := b.["network_type"] in
  if negb (truthy latitude) || negb (truthy longitude)
  then mret (status_message 400 "Latitude and longitude are required")
  else
    let crashEvent := object [
      ("user_id", JKey (id (user req)));
      ("event_type", JStr "AUTO_CRASH");
      ("latitude", latitude);
      ("longitude", longitude);
      ("impact_force", js_or impact_force JNull);
      ("device_battery", js_or device_battery JNull);
      ("network_type", js_or network_type JNull);
      ("status", JStr "pending");
      ("triggered_at", JStr (now req))] in
    r ← insert_single "crash_events" (now req) crashEvent;
    match error r with
    | Some e => throw e
    | None => mret (Response 201 (PNamed "Crash event recorded" "event" (data r)))
    end.

Definition create (req : request) : world -> response * world :=
  handle None (create_try req).

(** The columns [router.put('/:id')] and [router.patch('/:id')] strip from
    the body before the update. *)
Definition immutable_fields : list string :=
  ["id"; "user_id"; "event_type"; "created_at"; "updated_at"; "triggered_at"].

(** [delete updates.k] for each of the fields above. *)
Definition strip_immutable (updates : obj) : obj :=
  foldl (fun o k => delete k o) updates immutable_fields.

(** [router.put('/:id')]; [router.patch('/:id')] has the same body. *)
Definition put_by_id_try (req : request) : js response :=
  let updates := req_body req in
  existing ← select_single "crash_events" (Some ["user_id"]) (JStr (params_id req));
  match error existing, data existing with
  | Some _, _ | None, None => mret (status_message 404 "Crash event not found")
  | None, Some ex =>
      if String.eqb (role (user req)) "user"
         && negb (strict_eq ex.["user_id"] (JKey (id (user req))))
      then mret (status_message 403 "You do not have permission to update this event")
      else
        let updates := strip_immutable updates in
        r ← update_single "crash_events" (JStr (params_id req)) updates;
        match error r with
        | Some e => throw e
        | None => mret (json (PNamed "Crash event updated" "event" (data r)))
        end
  end.

Definition put_by_id (req : request) : world -> response * world :=
  handle None (put_by_id_try req).

Definition patch_by_id (req : request) : world -> response * world :=
  handle None (put_by_id_try req).

(** [router.delete('/:id')] *)
Definition delete_by_id_try (req : request) : js response :=
  existing ← select_single "crash_events" (Some ["user_id"]) (JStr (params_id req));
  match error existing, data existing with
  | Some _, _ | None, None => mret (status_message 404 "Crash event not found")
  | None, Some ex =>
      if String.eqb (role (user req)) "user"
         && negb (strict_eq ex.["user_id"] (JKey (id (user req))))
      then mret (status_message 403 "You do not have permission to delete this event")
      else
        r ← delete_where "crash_events" (JStr (params_id req));
        match error r with
        | Some e => throw e
        | None => mret (json (PMessage "Crash event deleted"))
        end
  end.

Definition delete_by_id (req : request) : world -> response * world :=
  handle None (delete_by_id_try req).

End Crash.

(** ** routes/sos: manual SOS requests *)

Module Sos.

(** [v < q] and [v > q] for a value already known to be a number. *)
Definition num_lt (v : jsval) (q : Q) : bool :=
  match v with JNum x => negb (Qle_bool q x) | _ => false end.

Definition num_gt (v : jsval) (q : Q) : bool :=
  match v with JNum x => negb (Qle_bool x q) | _ => false end.

(** [router.post('/')] *)
Definition create_try (req : request) : js response :=
  let b := req_body req in
  let type := b.["type"] in
  let description := b.["description"] in
  let latitude := b.["latitude"] in
  let longitude := b.["longitude"] in
  if negb (truthy type) || is_undefined latitude || is_undefined longitude
  then mret (status_message 400 "Missing required fields (type, latitude, longitude)")
  else if negb (is_number latitude)
          || num_lt latitude (-90) || num_gt latitude 90
          || negb (is_number longitude)
          || num_lt longitude (-180) || num_gt longitude 180
  then mret (status_message 400 "Invalid latitude or longitude values")
  else
    description' ← call_trim_opt "description?.trim" description;
    let sosData := object [
      ("user_id", JKey (id (user req)));
      ("type", type);
      ("description", js_or description' JNull);
      ("latitude", latitude);
      ("longitude", longitude);
      ("status", JStr "pending");
      ("triggered_at", JStr (now req))] in
    r ← insert_single "sos_requests" (now req) sosData;
    match error r with
    | Some e => throw e
    | None => mret (Response 201 (PNamed "SOS sent successfully" "sos" (data r)))
    end.

Definition create (req : request) : world -> response * world :=
  handle (Some "Server error") (create_try req).

End Sos.

(** ** routes/allAlerts: alerts and crash events in one list *)

Module Incidents.

(** The index [slice] starts or stops at, for a list of length [len]:
    [ToIntegerOrInfinity], counted from the end when negative, cut to the
    list. *)
Definition rel_index (len : Z) (i : number) : Z :=
  match i with
  | NaN | Infinity true => 0
  | Infinity false => len
  | Finite q =>
      let z := truncate q in
      if (z <? 0)%Z then Z.max (len + z) 0 else Z.min z len
  end.

(** [l.slice(start, stop)]. *)
Definition slice {A} (l : list A) (start stop : number) : list A :=
  let len := Z.of_nat (length l) in
  let k := rel_index len start in
  let e := rel_index len stop in
  take (Z.to_nat (e - k)) (drop (Z.to_nat k) l).

(** [v = dflt] in a destructuring pattern: the default replaces [undefined]. *)
Definition or_default (v dflt : jsval) : jsval :=
  if is_undefined v then dflt else v.

Definition buildBaseQuery (status from to : jsval) (userRole : string) (userId : jsval)
    (table timestampField : string) : select_query :=
  let q := select_from table in
  let q := if truthy status then q_eq "status" status q else q in
  let q := if truthy from then q_gte timestampField from q else q in
  let q := if truthy to then q_lte timestampField to q else q in
  let q := if String.eqb userRole "user" then q_eq "user_id" userId q else q in
  q.

Definition to_incident (src timestampField : string) (item : obj) : incident :=
  Incident src item.["id"] item.["user_id"] item.["status"] item.[timestampField]
           item.["latitude"] item.["longitude"] item.

(** [new Date(b.timestamp) - new Date(a.timestamp)] as [sort] reads it:
    its sign, and 0 when it is [NaN]. *)
Definition by_newest (a b : incident) : comparison :=
  match date_value (timestamp b), date_value (timestamp a) with
  | Some tb, Some ta => (tb ?= ta)%Z
  | _, _ => Eq
  end.

(** [l.sort(cmp)]: the sort is stable, so an element goes in front of the
    first one it does not have to follow.  (For a comparator that is not
    an order, as [by_newest] is when a timestamp is not a date, the
    language leaves the result to the engine.) *)
Fixpoint sort_insert {A} (cmp : A → A → comparison) (x : A) (l : list A) : list A :=
  match l with
  | [] => [x]
  | y :: l' =>
      match cmp x y with
      | Gt => y :: sort_insert cmp x l'
      | _ => x :: l
      end
  end.

Definition sort {A} (cmp : A → A → comparison) (l : list A) : list A :=
  foldr (sort_insert cmp) [] l.

(** [router.get('/')] *)
Definition get_list_try (req : request) : js response :=
  let type := or_default (query req).["type"] (JStr "all") in
  let status := (query req).["status"] in
  let from := (query req).["from"] in
  let to := (query req).["to"] in
  let limit := or_default (query req).["limit"] (JInt 20) in
  let offset := or_default (query req).["offset"] (JInt 0) in
  let parsedLimit := parseInt limit in
  let parsedOffset := parseInt offset in
  let userId := JKey (id (user req)) in
  let userRole := role (user req) in
  let build := buildBaseQuery status from to userRole userId in
  alerts ←
    (if strict_eq type (JStr "alert") || strict_eq type (JStr "all") then
       r ← await_rows (q_order "reported_at" (build "alerts" "reported_at"));
       match error r with
       | Some e => throw e
       | None => mret (to_incident "alert" "reported_at" <$> default [] (data r))
       end
     else mret []);
  crashes ←
    (if strict_eq type (JStr "crash") || strict_eq type (JStr "all") then
       r ← await_rows (q_order "triggered_at"
                         (q_eq "event_type" (JStr "AUTO_CRASH")
                            (build "crash_events" "triggered_at")));
       match error r with
       | Some e => throw e
       | None => mret (to_incident "crash" "triggered_at" <$> default [] (data r))
       end
     else mret []);
  let combined := sort by_newest (alerts ++ crashes) in
  let total := length combined in
  let paginated := slice combined parsedOffset (number_add parsedOffset parsedLimit) in
  mret (json (PPage paginated
                (Pagination total parsedLimit parsedOffset (length paginated)))).

Definition get_list (req : request) : world -> response * world :=
  handle None (get_list_try req).

End Incidents.

(** ** Closed forms of the routes, used to state what they do *)

(** What the status route writes to the vehicle of the incident. *)
Definition vehicle_status_for (s : string) : option string :=
  if String.eqb s "responding" then Some "responding"
  else if String.eqb s "resolved" then Some "available"
  else None.

Definition sync_vehicle (s : string) (v : jsval) (w : world) : world :=
  match vehicle_status_for s with
  | Some vs =>
      if truthy v
      then snd (update_where "vehicles" v (object [("status", JStr vs)]) w)
      else w
  | None => w
  end.

(** The effect of [.update(p).eq('id', v)] on table [n], on the tables
    alone. *)
Definition touch (n : string) (v : jsval) (p : obj) (d : gmap string table)
  : gmap string table :=
  match update_eq_id (default ∅ (d !! n)) v p with
  | UpdRow _ _ t' => <[n := t']> d
  | _ => d
  end.

(** [sync_vehicle] on the tables alone. *)
Definition sync_db (s : string) (v : jsval) (d : gmap string table)
  : gmap string table :=
  match vehicle_status_for s with
  | Some vs => if truthy v then touch "vehicles" v (object [("status", JStr vs)]) d else d
  | None => d
  end.

(** The same request, made at another time. *)
Definition at_time (t : string) (req : request) : request :=
  Request (user req) (params_id req) (query req) (req_body req) t.

(** A computation whose every run relates the state before to the state
    after by [R]. *)
Definition respects (R : relation world) {A} (m : js A) : Prop :=
  ∀ w, R w (snd (m w)).

(** The socket holder is left alone. *)
Definition same_io : relation world := fun w w' => io w' = io w.

(** A freshly created incident: pending and unassigned. *)
Definition created_pending (r : obj) : Prop :=
  r.["status"] = JStr "pending" ∧
  nullish r.["assigned_vehicle_id"] = true ∧
  nullish r.["assigned_responder_id"] = true.

(** The rows of table [n] are kept as they are, and every row added to it
    is pending and unassigned. *)
Definition adds_pending (n : string) : relation world := fun w w' =>
  (∀ k r, from w n !! k = Some r → from w' n !! k = Some r) ∧
  (∀ k r, from w' n !! k = Some r → from w n !! k = None → created_pending r).

(** The coordinates the SOS route turns away. *)
Definition bad_coordinates (lat lon : jsval) : Prop :=
  lat = JUndefined ∨ lon = JUndefined ∨
  is_number lat = false ∨ is_number lon = false ∨
  (∃ q, lat = JNum q ∧ (q < -90 ∨ 90 < q)%Q) ∨
  (∃ q, lon = JNum q ∧ (q < -180 ∨ 180 < q)%Q).

(** What the assign route does to the vehicle the incident held before ... *)
Definition release_previous (previous vehicle_id : jsval) (w : world) : world :=
  if truthy previous && negb (strict_eq previous vehicle_id)
  then snd (update_where "vehicles" previous (object [("status", JStr "available")]) w)
  else w.

(** ... and, after that, to the vehicle named in the request. *)
Definition take_new (vehicle_id : jsval) (w : world) : world :=
  if truthy vehicle_id
  then snd (update_where "vehicles" vehicle_id (object [("status", JStr "assigned")]) w)
  else w.

Definition assign_patch (vehicle_id responder_id : jsval) (nw : string) : obj :=
  object [("assigned_vehicle_id", js_or vehicle_id JNull);
          ("assigned_responder_id", js_or responder_id JNull);
          ("updated_at", JStr nw)].

(** The tail of every mutating alert route: fetch the socket, emit, answer. *)
Definition broadcast (event : string) (p : payload) (ok : response) (w : world)
  : response * world :=
  handle (Some "Server error")
    (sock ← SocketInstance.getIO; emit sock event p;; mret ok) w.

Definition status_patch (s : jsval) (nw : string) : obj :=
  object [("status", s); ("updated_at", JStr nw)].

(** ** Predicates on what a route answers *)

(** Every answer [r] a computation gives, from state [w] to state [w'],
    satisfies [Q w r w']. *)
Definition post (Q : world -> response -> world -> Prop) (m : js response) : Prop :=
  ∀ w r w', m w = (Val r, w') → Q w r w'.

(** An answer with a code in [S] comes with the state untouched. *)
Definition quiet_on (S : list Z) : world -> response -> world -> Prop :=
  fun w r w' => code r ∈ S → w' = w.

(** No answer has a code in [S]. *)
Definition never_code (S : list Z) : world -> response -> world -> Prop :=
  fun _ r _ => code r ∉ S.

(** An answer 200 or 201 comes with exactly one more broadcast, named [ev]. *)
Definition one_event (ev : string) : world -> response -> world -> Prop :=
  fun w r w' =>
    code r ∈ [200; 201]%Z → ∃ p, emitted w' = (emitted w ++ [(ev, p)])%list.

(** Any two states. *)
Definition any_change : relation world := fun _ _ => True.

(** No broadcast is added. *)
Definition same_emitted : relation world := fun w w' => emitted w' = emitted w.

(** The rows of table [n] are kept as they are, and every row added to it
    satisfies [Q]. *)
Definition adds_only (n : string) (Q : obj -> Prop) : relation world := fun w w' =>
  (∀ k r, from w n !! k = Some r → from w' n !! k = Some r) ∧
  (∀ k r, from w' n !! k = Some r → from w n !! k = None → Q r).

(** Every alert has one of the four statuses. *)
Definition statuses_valid (w : world) : Prop :=
  map_Forall (fun _ r => includes Alerts.validStatuses r.["status"] = true)
    (from w "alerts").

(** A property of the state that, once it holds, holds afterwards. *)
Definition keeps (P : world -> Prop) : relation world := fun w w' => P w -> P w'.

(** The required fields and enumerations of an alert, as the create route
    tests them. *)
Definition alert_body_rejected (b : obj) : bool :=
  negb (truthy b.["alert_type"]) || negb (truthy b.["severity"])
  || negb (truthy b.["title"]) || negb (truthy b.["location"])
  || negb (includes Alerts.validAlertTypes b.["alert_type"])
  || negb (includes Alerts.validSeverities b.["severity"]).

(** The object the alert create route inserts, once the texts are trimmed. *)
Definition alert_data (who : actor) (b : obj) (title' description' location' : jsval)
  : obj :=
  object [
    ("user_id", JKey (id who));
    ("alert_type", b.["alert_type"]);
    ("severity", b.["severity"]);
    ("title", title');
    ("description", js_or description' JNull);
    ("location", location');
    ("latitude", if truthy b.["latitude"] then parseFloat b.["latitude"] else JNull);
    ("longitude", if truthy b.["longitude"] then parseFloat b.["longitude"] else JNull);
    ("image_url", js_or b.["image_url"] JNull);
    ("status", JStr "pending")].

(** The payload of the full update route: the body, stamped. *)
Definition put_patch (b : obj) (nw : string) : obj :=
  filter (fun kv => is_undefined kv.2 = false) (<["updated_at" := JStr nw]> b).

(** A row with coordinates on the globe. *)
Definition coordinates_in_range (r : obj) : Prop :=
  ∃ la lo, r.["latitude"] = JNum la ∧ r.["longitude"] = JNum lo ∧
           (-90 <= la)%Q ∧ (la <= 90)%Q ∧ (-180 <= lo)%Q ∧ (lo <= 180)%Q.

(** A reply of [.single()]: without an error there is a row. *)
Definition single_row {A} (rep : reply A) : Prop :=
  error rep = None → data rep ≠ None.

(** The same request with another query string. *)
Definition with_query (q : obj) (req : request) : request :=
  Request (user req) (params_id req) q (req_body req) (now req).

(** The [type], [limit] and [offset] the combined list works with. *)
Definition incident_type (req : request) : jsval :=
  Incidents.or_default (query req).["type"] (JStr "all").

Definition page_limit (req : request) : number :=
  parseInt (Incidents.or_default (query req).["limit"] (JInt 20)).

Definition page_offset (req : request) : number :=
  parseInt (Incidents.or_default (query req).["offset"] (JInt 0)).

(** An element of the combined list that came from the crash table is an
    automatic crash. *)
Definition crash_is_automatic (e : incident) : Prop :=
  source e = "crash" ∧ (inc_data e).["event_type"] = JStr "AUTO_CRASH".

(** The stored rows a query asks for, in the order of their keys. *)
Definition matching (q : select_query) (w : world) : list obj :=
  filter (fun r => Is_true (forallb (fun c => holds c r) (sq_conds q)))
         (rows_of (from w (sq_from q))).

(** The query the combined list builds for one table. *)
Definition incident_query (req : request) (table timestampField : string) : select_query :=
  Incidents.buildBaseQuery (query req).["status"] (query req).["from"] (query req).["to"]
    (role (user req)) (JKey (id (user req))) table timestampField.

(** The stored alerts and automatic crash events the combined list is made
    of: those its queries ask for, of the sources its [type] names. *)
Definition stored_incidents (req : request) (w : world) : list incident :=
  (if strict_eq (incident_type req) (JStr "alert")
      || strict_eq (incident_type req) (JStr "all")
   then Incidents.to_incident "alert" "reported_at"
          <$> matching (incident_query req "alerts" "reported_at") w
   else [])
  ++
  (if strict_eq (incident_type req) (JStr "crash")
      || strict_eq (incident_type req) (JStr "all")
   then Incidents.to_incident "crash" "triggered_at"
          <$> matching (q_eq "event_type" (JStr "AUTO_CRASH")
                          (incident_query req "crash_events" "triggered_at")) w
   else []).

(** Table [n] is left as it is. *)
Definition same_table (n : string) : relation world := fun w w' =>
  from w' n = from w n.

(** One row was added to table [n], under a key that was free, and it is
    pending and unassigned. *)
Definition adds_one_pending (n : string) (w w' : world) : Prop :=
  ∃ k r, from w n !! k = None ∧ from w' n = <[k := r]> (from w n) ∧ created_pending r.

(** An answer 201 comes with one pending row added to table [n]. *)
Definition created_on (n : string) : world -> response -> world -> Prop :=
  fun w r w' => code r = 201%Z → adds_one_pending n w w'.

(** ** Sample states and requests *)

Module Sample.

Definition vehicle (s : string) : obj := object [("status", JStr s)].

(** An alert reported by user 5, resolved, holding vehicle 7. *)
Definition alert : obj := object [
  ("user_id", JKey 5);
  ("status", JStr "resolved");
  ("assigned_vehicle_id", JKey 7);
  ("assigned_responder_id", JNull);
  ("reported_at", JStr "2024-01-01T00:00:00.000Z")].

(** A pending alert of user 6 without a vehicle. *)
Definition free_alert : obj := object [
  ("user_id", JKey 6);
  ("status", JStr "pending");
  ("assigned_vehicle_id", JNull);
  ("assigned_responder_id", JNull);
  ("reported_at", JStr "2024-01-02T00:00:00.000Z")].

Definition tables : gmap string table :=
  <["alerts" := <[1%positive := alert]> {[2%positive := free_alert]}]>
    (<["vehicles" := <[7%positive := vehicle "assigned"]>
                       {[8%positive := vehicle "available"]}]> ∅).

(** The process after [setIO(server)]. *)
Definition state : world := World tables (JRef 0) [] [].

(** The process before [setIO] was called. *)
Definition cold : world := World tables SocketInstance.initial_io [] [].

Definition admin : actor := Actor 1 "admin".
Definition dispatcher : actor := Actor 2 "dispatcher".
Definition rescuer : actor := Actor 3 "rescuer".
Definition reporter : actor := Actor 5 "user".
Definition stranger : actor := Actor 6 "user".

(** [PATCH /<pid>/status] with body [{ status: s }] at time [t]. *)
Definition set_status (who : actor) (pid s t : string) : request :=
  Request who pid ∅ (object [("status", JStr s)]) t.


End Sample.

(** ** More sample states *)

Module Sample2.

(** A crash event of user 5. *)
Definition crash : obj := object [
  ("user_id", JKey 5);
  ("event_type", JStr "AUTO_CRASH");
  ("latitude", JNum 14.5995);
  ("longitude", JNum 120.9842);
  ("status", JStr "pending");
  ("triggered_at", JStr "2024-01-03T00:00:00.000Z")].

(** The sample state with that crash event under key 1. *)
Definition state : world :=
  set_table "crash_events" {[1%positive := crash]} Sample.state.

(** [PUT /<pid>] or [DELETE /<pid>] with a body. *)
Definition on (who : actor) (pid : string) (body : obj) : request :=
  Request who pid ∅ body "2024-02-01T10:00:00.000Z".

(** A list request with a query string. *)
Definition list_by (who : actor) (q : obj) : request :=
  Request who "" q ∅ "2024-02-01T10:00:00.000Z".

End Sample2.

(** * Properties *)

(** Membership in a list that is written out. *)
Ltac in_list := repeat first [apply list_elem_of_here | apply list_elem_of_further].

(** ** Values and keys *)

Lemma as_key_JKey k : as_key (JKey k) = Some k.
Proof. unfold JKey, JInt. simpl. unfold key_of_Q. rewrite inject_Z_Qred. reflexivity. Qed.

Lemma strict_eq_JKey k k' : strict_eq (JKey k) (JKey k') = bool_decide (k = k').
Proof.
  cbn [strict_eq JKey JInt]. destruct (Qeq_bool _ _) eqn:E; case_bool_decide; try done.
  - apply Qeq_bool_iff in E. unfold Qeq in E. simpl in E. lia.
  - subst. rewrite (proj2 (Qeq_bool_iff _ _)) in E; [done | reflexivity].
Qed.

Lemma strict_eq_JStr v s : strict_eq v (JStr s) = true ↔ v = JStr s.
Proof.
  destruct v; simpl; try (split; [discriminate | congruence]).
  rewrite String.eqb_eq. split; congruence.
Qed.

Lemma includes_true xs v : includes xs v = true ↔ ∃ s, v = JStr s ∧ s ∈ xs.
Proof.
  unfold includes. rewrite existsb_exists. split.
  - intros (x & Hin & Heq).
    apply list_elem_of_In, list_elem_of_fmap in Hin as (s & -> & Hs).
    apply strict_eq_JStr in Heq. eauto.
  - intros (s & -> & Hs). exists (JStr s). split.
    + apply list_elem_of_In, list_elem_of_fmap. eauto.
    + by apply strict_eq_JStr.
Qed.

Lemma prop_with_id_ne k (r : obj) c : c ≠ "id" → (with_id k r).[c] = r.[c].
Proof. intros H. unfold prop, with_id. by rewrite lookup_insert_ne. Qed.

Lemma prop_delete_ne (r : obj) c c' : c ≠ c' → (delete c' r).[c] = r.[c].
Proof. intros H. unfold prop. by rewrite lookup_delete_ne. Qed.

Lemma prop_union_l (p r : obj) c v : p !! c = Some v → (p ∪ r).[c] = v.
Proof. intros H. unfold prop. by rewrite (lookup_union_Some_l _ _ _ _ H). Qed.

Lemma prop_union_r (p r : obj) c : p !! c = None → (p ∪ r).[c] = r.[c].
Proof. intros H. unfold prop. by rewrite lookup_union_r. Qed.

(** ** The monad *)

Lemma bind_val {A B} (m : js A) (k : A → js B) w a w' :
  m w = (Val a, w') → (m ≫= k) w = k a w'.
Proof. intros H. unfold mbind, js_bind. by rewrite H. Qed.

(** ** The store *)

Lemma from_set_table n t w n' :
  from (set_table n t w) n' = if decide (n = n') then t else from w n'.
Proof. unfold from, set_table. simpl. rewrite lookup_insert. by case_decide. Qed.

Lemma from_set_table_eq n t w : from (set_table n t w) n = t.
Proof. rewrite from_set_table. by case_decide. Qed.

Lemma from_set_table_ne n t w n' : n ≠ n' → from (set_table n t w) n' = from w n'.
Proof. intros. rewrite from_set_table. by case_decide. Qed.

Lemma update_eq_id_hit (t : table) v patch k r :
  as_key v = Some k → t !! k = Some r → patch !! "id" = None →
  update_eq_id t v patch =
    UpdRow k (delete "id" (patch ∪ r)) (<[k := delete "id" (patch ∪ r)]> t).
Proof.
  intros Hk Hr Hid. unfold update_eq_id, find_row, new_key.
  rewrite Hk. simpl. rewrite Hr. simpl. rewrite Hid.
  by rewrite insert_delete_eq.
Qed.

Lemma update_eq_id_miss (t : table) v patch :
  find_row t v = None → update_eq_id t v patch = UpdNone.
Proof. intros H. unfold update_eq_id. by rewrite H. Qed.

Lemma update_single_hit name v patch w k r :
  as_key v = Some k → from w name !! k = Some r → patch !! "id" = None →
  update_single name v patch w =
    (Val (Reply (Some (with_id k (delete "id" (patch ∪ r)))) None),
     set_table name (<[k := delete "id" (patch ∪ r)]> (from w name))
       (log_call (Update name v patch) w)).
Proof.
  intros Hk Hr Hid. unfold update_single.
  by rewrite (update_eq_id_hit _ _ _ _ _ Hk Hr Hid).
Qed.

Lemma update_single_miss name v patch w :
  find_row (from w name) v = None →
  update_single name v patch w =
    (Val (Reply None (Some no_rows)), log_call (Update name v patch) w).
Proof. intros H. unfold update_single. by rewrite update_eq_id_miss. Qed.

Lemma update_where_hit name v patch w k r :
  as_key v = Some k → from w name !! k = Some r → patch !! "id" = None →
  snd (update_where name v patch w) =
    set_table name (<[k := delete "id" (patch ∪ r)]> (from w name))
      (log_call (Update name v patch) w).
Proof.
  intros Hk Hr Hid. unfold update_where.
  by rewrite (update_eq_id_hit _ _ _ _ _ Hk Hr Hid).
Qed.

Lemma io_update_where n v p w : io (snd (update_where n v p w)) = io w.
Proof. unfold update_where. by destruct (update_eq_id _ _ _). Qed.

Lemma calls_update_where n v p w :
  calls (snd (update_where n v p w)) = (calls w ++ [Update n v p])%list.
Proof. unfold update_where. by destruct (update_eq_id _ _ _). Qed.

Lemma from_update_where_ne n v p w n' :
  n ≠ n' → from (snd (update_where n v p w)) n' = from w n'.
Proof.
  intros Hn. unfold update_where. destruct (update_eq_id _ _ _); try done.
  simpl. by rewrite from_set_table_ne.
Qed.

Lemma from_update_where_other n v (p : obj) w k :
  p !! "id" = None → as_key v ≠ Some k →
  from (snd (update_where n v p w)) n !! k = from w n !! k.
Proof.
  intros Hid Hk. unfold update_where, update_eq_id, find_row. cbn [snd].
  destruct (as_key v) as [k0|]; [| done]. cbn.
  destruct (from w n !! k0) as [r0|] eqn:E; [| done]. cbn.
  unfold new_key. rewrite Hid. cbn [updated_world].
  rewrite from_set_table_eq.
  rewrite lookup_insert_ne by congruence.
  rewrite lookup_delete_ne by congruence. done.
Qed.

Lemma patch_status_hit req w k r :
  includes Alerts.validStatuses (req_body req).["status"] = true →
  includes ["admin"; "dispatcher"; "rescuer"] (JStr (role (user req))) = true →
  key_of_string (params_id req) = Some k →
  from w "alerts" !! k = Some r →
  ∃ s, (req_body req).["status"] = JStr s ∧ s ∈ Alerts.validStatuses ∧
    let patch := status_patch (JStr s) (now req) in
    let r' := delete "id" (patch ∪ r) in
    Alerts.patch_status req w =
      broadcast "alert:status_updated" (PData (Some (with_id k r')))
        (json (PData (Some (with_id k r'))))
        (sync_vehicle s r.["assigned_vehicle_id"]
           (set_table "alerts" (<[k := r']> (from w "alerts"))
              (log_call (Update "alerts" (JStr (params_id req)) patch) w))).
Proof.
  intros Hvalid Hrole Hk Hr.
  destruct (proj1 (includes_true _ _) Hvalid) as (s & Hs & Hv).
  exists s. split; [done |]. split; [done |]. intros patch r'.
  unfold Alerts.patch_status, Alerts.patch_status_try.
  rewrite Hvalid, Hrole. rewrite Hs.
  cbn [negb]. unfold broadcast, handle.
  erewrite bind_val; last first.
  { apply update_single_hit; [exact Hk | exact Hr | reflexivity]. }
  cbn [error data]. fold (status_patch (JStr s) (now req)). fold patch. fold r'.
  assert (Hv' : (with_id k r').["assigned_vehicle_id"] = r.["assigned_vehicle_id"]).
  { rewrite prop_with_id_ne by done. unfold r'. rewrite prop_delete_ne by done.
    by rewrite prop_union_r. }
  unfold deref. rewrite Hv'.
  set (w1 := set_table _ _ _).
  unfold sync_vehicle, vehicle_status_for.
  repeat (apply elem_of_cons in Hv as [-> | Hv]); [| | | | by apply elem_of_nil in Hv];
    cbn [strict_eq String.eqb Ascii.eqb Bool.eqb andb];
    destruct (truthy r.["assigned_vehicle_id"]) eqn:Ht.
  all: unfold mbind, js_bind, mret, js_ret, when; cbn [truthy]; rewrite ?Ht.
  all: reflexivity.
Qed.

Lemma broadcast_ready ev p ok w h :
  io w = JRef h →
  broadcast ev p ok w = (ok, World (db w) (io w) (emitted w ++ [(ev, p)]) (calls w)).
Proof.
  intros H. unfold broadcast, handle, SocketInstance.getIO, mbind, js_bind, emit.
  rewrite H. cbn. by rewrite H.
Qed.

Lemma broadcast_cases ev p ok w :
  (∃ h, io w = JRef h) ∨ (∃ m, broadcast ev p ok w = (status_message 500 m, w)).
Proof.
  unfold broadcast, handle, SocketInstance.getIO, mbind, js_bind, emit.
  destruct (io w) as [| |b|q|s|h] eqn:E; cbn [truthy negb]; eauto;
    match goal with |- context [if ?c then _ else _] => destruct c end; eauto.
Qed.

Lemma broadcast_db ev p ok w : db (snd (broadcast ev p ok w)) = db w.
Proof.
  destruct (broadcast_cases ev p ok w) as [[h H] | [m H]].
  - by rewrite (broadcast_ready _ _ _ _ _ H).
  - by rewrite H.
Qed.

Lemma broadcast_calls ev p ok w : calls (snd (broadcast ev p ok w)) = calls w.
Proof.
  destruct (broadcast_cases ev p ok w) as [[h H] | [m H]].
  - by rewrite (broadcast_ready _ _ _ _ _ H).
  - by rewrite H.
Qed.

Lemma broadcast_from ev p ok w n : from (snd (broadcast ev p ok w)) n = from w n.
Proof. unfold from. by rewrite broadcast_db. Qed.

Lemma io_sync_vehicle s v w : io (sync_vehicle s v w) = io w.
Proof.
  unfold sync_vehicle. destruct (vehicle_status_for s); [|done].
  destruct (truthy v); [|done]. apply io_update_where.
Qed.

Lemma from_sync_vehicle_ne s v w n :
  n ≠ "vehicles" → from (sync_vehicle s v w) n = from w n.
Proof.
  intros Hn. unfold sync_vehicle. destruct (vehicle_status_for s); [|done].
  destruct (truthy v); [|done]. by apply from_update_where_ne.
Qed.

Lemma patch_status_miss req w :
  includes Alerts.validStatuses (req_body req).["status"] = true →
  includes ["admin"; "dispatcher"; "rescuer"] (JStr (role (user req))) = true →
  find_row (from w "alerts") (JStr (params_id req)) = None →
  Alerts.patch_status req w =
    (status_message 500 no_rows,
     log_call (Update "alerts" (JStr (params_id req))
                 (status_patch (req_body req).["status"] (now req))) w).
Proof.
  intros Hvalid Hrole Hmiss.
  unfold Alerts.patch_status, Alerts.patch_status_try, handle.
  rewrite Hvalid, Hrole. cbn [negb].
  erewrite bind_val by (by apply update_single_miss).
  reflexivity.
Qed.

(** ** Status transitions *)

(** C1, as stated, fails: an administrator moves the resolved sample alert
    back to [pending]; the route answers 200 and the stored status changes. *)
Lemma terminal_status_is_overwritten :
  ¬ (∀ req w k r,
       key_of_string (params_id req) = Some k →
       from w "alerts" !! k = Some r →
       r.["status"] = JStr "resolved" ∨ r.["status"] = JStr "cancelled" →
       let out := Alerts.patch_status req w in
       code (fst out) ≠ 200%Z ∧
       ∃ r', from (snd out) "alerts" !! k = Some r' ∧ r'.["status"] = r.["status"]).
Proof.
  intros H.
  destruct (H (Sample.set_status Sample.admin "1" "pending" "2024-02-01T10:00:00.000Z")
              Sample.state 1%positive Sample.alert) as [Hcode _].
  - reflexivity.
  - reflexivity.
  - left. reflexivity.
  - apply Hcode. vm_compute. reflexivity.
Qed.

(** C1 (amended): for an incident in a terminal state ([resolved] or
    [cancelled]), a status update with a valid status by a permitted role,
    once the socket is initialised, answers 200 and stores the requested
    status; the route rejects no transition. *)
Theorem patch_status_leaves_terminal req w k r h :
  key_of_string (params_id req) = Some k →
  from w "alerts" !! k = Some r →
  r.["status"] = JStr "resolved" ∨ r.["status"] = JStr "cancelled" →
  includes Alerts.validStatuses (req_body req).["status"] = true →
  includes ["admin"; "dispatcher"; "rescuer"] (JStr (role (user req))) = true →
  io w = JRef h →
  let out := Alerts.patch_status req w in
  code (fst out) = 200%Z ∧
  ∃ r', from (snd out) "alerts" !! k = Some r' ∧
        r'.["status"] = (req_body req).["status"].
Proof.
  intros Hk Hr _ Hvalid Hrole Hio out. subst out.
  destruct (patch_status_hit req w k r Hvalid Hrole Hk Hr) as (s & Hs & _ & Heq).
  cbv zeta in Heq. rewrite Heq, Hs.
  erewrite broadcast_ready; last first.
  { rewrite io_sync_vehicle. exact Hio. }
  split; [reflexivity |].
  eexists. split.
  - cbn [snd]. change (from (World ?d _ _ _) ?n) with (default ∅ (d !! n)).
    fold (from (sync_vehicle s r.["assigned_vehicle_id"]
                  (set_table "alerts"
                     (<[k := delete "id" (status_patch (JStr s) (now req) ∪ r)]>
                        (from w "alerts"))
                     (log_call (Update "alerts" (JStr (params_id req))
                                  (status_patch (JStr s) (now req))) w))) "alerts").
    rewrite from_sync_vehicle_ne by done.
    rewrite from_set_table_eq. apply lookup_insert_eq.
  - rewrite prop_delete_ne by done. by apply prop_union_l.
Qed.

Lemma patch_status_leaves_terminal_witness :
  let out := Alerts.patch_status
               (Sample.set_status Sample.rescuer "1" "responding" "2024-02-01T10:00:00.000Z")
               Sample.state in
  code (fst out) = 200%Z ∧
  ∃ r', from (snd out) "alerts" !! 1%positive = Some r' ∧
        r'.["status"] = JStr "responding".
Proof.
  apply (patch_status_leaves_terminal
           (Sample.set_status Sample.rescuer "1" "responding" "2024-02-01T10:00:00.000Z")
           Sample.state 1%positive Sample.alert 0%nat).
  - reflexivity.
  - reflexivity.
  - left. reflexivity.
  - reflexivity.
  - reflexivity.
  - reflexivity.
Defined.

Lemma patch_status_success req w :
  code (fst (Alerts.patch_status req w)) = 200%Z →
  includes Alerts.validStatuses (req_body req).["status"] = true ∧
  includes ["admin"; "dispatcher"; "rescuer"] (JStr (role (user req))) = true.
Proof.
  unfold Alerts.patch_status, Alerts.patch_status_try, handle.
  destruct (includes Alerts.validStatuses _); [|discriminate].
  destruct (includes ["admin"; "dispatcher"; "rescuer"] _); [done | discriminate].
Qed.

Lemma find_row_Some (t : table) v k r :
  find_row t v = Some (k, r) ↔ as_key v = Some k ∧ t !! k = Some r.
Proof.
  unfold find_row. destruct (as_key v) as [k'|]; simpl.
  - destruct (t !! k') as [r'|] eqn:E; simpl.
    + split; [intros [= <- <-]; by split | intros [[= <-] H]; congruence].
    + split; [discriminate | intros [[= <-] H]; congruence].
  - split; [discriminate | intros [H _]; discriminate].
Qed.

(** ** Vehicle status follows the incident status *)

(** C2: after a successful status update of an incident whose
    [assigned_vehicle_id] is the vehicle [v], that vehicle has status
    [responding] when the new status is [responding] and [available] when it
    is [resolved]; when [assigned_vehicle_id] is [null] the vehicle table is
    left as it was and the only write issued is the one on the alert. *)
Theorem patch_status_syncs_vehicle req w k r :
  key_of_string (params_id req) = Some k →
  from w "alerts" !! k = Some r →
  code (fst (Alerts.patch_status req w)) = 200%Z →
  let w' := snd (Alerts.patch_status req w) in
  (∀ v veh,
     r.["assigned_vehicle_id"] = JKey v →
     from w "vehicles" !! v = Some veh →
     ((req_body req).["status"] = JStr "responding" →
      ∃ veh', from w' "vehicles" !! v = Some veh' ∧
              veh'.["status"] = JStr "responding") ∧
     ((req_body req).["status"] = JStr "resolved" →
      ∃ veh', from w' "vehicles" !! v = Some veh' ∧
              veh'.["status"] = JStr "available")) ∧
  (r.["assigned_vehicle_id"] = JNull →
   from w' "vehicles" = from w "vehicles" ∧
   calls w' =
     (calls w ++ [Update "alerts" (JStr (params_id req))
                    (status_patch (req_body req).["status"] (now req))])%list).
Proof.
  intros Hk Hr Hok w'. subst w'.
  destruct (patch_status_success _ _ Hok) as [Hvalid Hrole].
  destruct (patch_status_hit req w k r Hvalid Hrole Hk Hr) as (s & Hs & _ & Heq).
  cbv zeta in Heq. rewrite Heq. clear Heq Hok.
  rewrite broadcast_from, broadcast_calls, Hs.
  set (w1 := set_table "alerts" _ _).
  assert (Hw1 : from w1 "vehicles" = from w "vehicles").
  { unfold w1. by rewrite from_set_table_ne. }
  split.
  - intros v veh Hv Hveh. rewrite Hv.
    assert (Hsync : ∀ vs,
      from (snd (update_where "vehicles" (JKey v) (object [("status", JStr vs)]) w1))
        "vehicles" !! v = Some (delete "id" (object [("status", JStr vs)] ∪ veh))).
    { intros vs. erewrite update_where_hit;
        [| apply as_key_JKey | by rewrite Hw1 | reflexivity].
      rewrite from_set_table_eq. apply lookup_insert_eq. }
    split; intros [= ->]; eexists; (split; [apply Hsync |]);
      rewrite prop_delete_ne by done; by apply prop_union_l.
  - intros Hnull. rewrite Hnull.
    assert (Hsame : sync_vehicle s JNull w1 = w1).
    { unfold sync_vehicle. by destruct (vehicle_status_for s). }
    rewrite Hsame. split; [exact Hw1 | reflexivity].
Qed.

Lemma patch_status_syncs_vehicle_witness :
  (∃ veh',
     from (snd (Alerts.patch_status
                  (Sample.set_status Sample.rescuer "1" "responding" "2024-02-01T10:00:00.000Z")
                  Sample.state)) "vehicles" !! 7%positive = Some veh' ∧
     veh'.["status"] = JStr "responding") ∧
  (∃ veh',
     from (snd (Alerts.patch_status
                  (Sample.set_status Sample.dispatcher "1" "resolved" "2024-02-01T11:00:00.000Z")
                  Sample.state)) "vehicles" !! 7%positive = Some veh' ∧
     veh'.["status"] = JStr "available") ∧
  from (snd (Alerts.patch_status
               (Sample.set_status Sample.rescuer "2" "responding" "2024-02-01T10:00:00.000Z")
               Sample.state)) "vehicles" = from Sample.state "vehicles".
Proof.
  split; [| split].
  - refine (proj1 (proj1 (patch_status_syncs_vehicle
              (Sample.set_status Sample.rescuer "1" "responding" "2024-02-01T10:00:00.000Z")
              Sample.state 1%positive Sample.alert _ _ _)
            7%positive (Sample.vehicle "assigned") _ _) _); reflexivity.
  - refine (proj2 (proj1 (patch_status_syncs_vehicle
              (Sample.set_status Sample.dispatcher "1" "resolved" "2024-02-01T11:00:00.000Z")
              Sample.state 1%positive Sample.alert _ _ _)
            7%positive (Sample.vehicle "assigned") _ _) _); reflexivity.
  - refine (proj1 (proj2 (patch_status_syncs_vehicle
              (Sample.set_status Sample.rescuer "2" "responding" "2024-02-01T10:00:00.000Z")
              Sample.state 2%positive Sample.free_alert _ _ _) _)); reflexivity.
Defined.

(** ** A status update for an incident that does not exist *)

Lemma patch_status_codes req w :
  code (fst (Alerts.patch_status req w)) ∈ [200; 400; 403; 500]%Z.
Proof.
  destruct (includes Alerts.validStatuses (req_body req).["status"]) eqn:Hvalid.
  2: { unfold Alerts.patch_status, Alerts.patch_status_try, handle.
       rewrite Hvalid. cbn. in_list. }
  destruct (includes ["admin"; "dispatcher"; "rescuer"] (JStr (role (user req)))) eqn:Hrole.
  2: { unfold Alerts.patch_status, Alerts.patch_status_try, handle.
       rewrite Hvalid, Hrole. cbn. in_list. }
  destruct (find_row (from w "alerts") (JStr (params_id req))) as [[k r]|] eqn:Hrow.
  - apply find_row_Some in Hrow as [Hk Hr].
    destruct (patch_status_hit req w k r Hvalid Hrole Hk Hr) as (s & _ & _ & Heq).
    cbv zeta in Heq. rewrite Heq.
    match goal with |- context [broadcast ?e ?p ?ok ?x] =>
      destruct (broadcast_cases e p ok x) as [[h H] | [m H]] end.
    + erewrite broadcast_ready by exact H. cbn. in_list.
    + rewrite H. cbn. in_list.
  - rewrite patch_status_miss by done. cbn. in_list.
Qed.

(** The crash update route does answer 404 for a row that is not there. *)
Lemma crash_put_absent_answers_404 req w :
  find_row (from w "crash_events") (JStr (params_id req)) = None →
  Crash.put_by_id req w = (status_message 404 "Crash event not found", w).
Proof.
  intros H. unfold Crash.put_by_id, handle, Crash.put_by_id_try.
  unfold mbind, js_bind, select_single. by rewrite H.
Qed.

(** C7 on the code: a status update by an administrator for the absent
    alert 99, with the valid status [pending], is answered with 500 and the
    error text of the store, not with 404; the route has no 404 answer. *)
Theorem patch_status_absent_alert_answers_500 :
  find_row (from Sample.state "alerts") (JStr "99") = None ∧
  fst (Alerts.patch_status
         (Sample.set_status Sample.admin "99" "pending" "2024-02-01T10:00:00.000Z")
         Sample.state)
  = status_message 500 no_rows ∧
  ∀ req w, code (fst (Alerts.patch_status req w)) ≠ 404%Z.
Proof.
  split; [reflexivity |]. split; [reflexivity |].
  intros req w H. pose proof (patch_status_codes req w) as Hc.
  rewrite H in Hc.
  repeat (apply elem_of_cons in Hc as [Hc | Hc]; [discriminate Hc |]).
  by apply elem_of_nil in Hc.
Qed.

(** ** Repeating a status update *)

Lemma db_update_where n v p w :
  db (snd (update_where n v p w)) = touch n v p (db w).
Proof.
  unfold update_where, touch, from. cbn [snd].
  by destruct (update_eq_id _ _ _).
Qed.

Lemma db_sync_vehicle s v w : db (sync_vehicle s v w) = sync_db s v (db w).
Proof.
  unfold sync_vehicle, sync_db. destruct (vehicle_status_for s); [|done].
  destruct (truthy v); [|done]. apply db_update_where.
Qed.

Lemma touch_insert_ne n n' v p (t : table) (d : gmap string table) :
  n ≠ n' → touch n v p (<[n' := t]> d) = <[n' := t]> (touch n v p d).
Proof.
  intros Hn. unfold touch. rewrite lookup_insert_ne by done.
  destruct (update_eq_id _ _ _); try done. by apply insert_insert_ne.
Qed.

Lemma delete_id_union_absorb (p r : obj) :
  delete "id" (p ∪ delete "id" (p ∪ r)) = delete "id" (p ∪ r).
Proof.
  apply map_eq. intros c. destruct (decide (c = "id")) as [-> | Hc].
  - by rewrite !lookup_delete_eq.
  - rewrite !lookup_delete_ne by done. rewrite !lookup_union.
    rewrite lookup_delete_ne by done. rewrite lookup_union.
    destruct (p !! c), (r !! c); reflexivity.
Qed.

Lemma touch_idem n v p (d : gmap string table) :
  p !! "id" = None → touch n v p (touch n v p d) = touch n v p d.
Proof.
  intros Hid. unfold touch at 2 3.
  destruct (find_row (default ∅ (d !! n)) v) as [[k r]|] eqn:Hrow.
  - apply find_row_Some in Hrow as [Hk Hr].
    rewrite (update_eq_id_hit _ _ _ _ _ Hk Hr Hid).
    unfold touch. rewrite lookup_insert_eq. cbn [default from_option Datatypes.id].
    erewrite update_eq_id_hit; [| exact Hk | apply lookup_insert_eq | exact Hid].
    rewrite delete_id_union_absorb.
    by rewrite !insert_insert_eq.
  - rewrite (update_eq_id_miss _ _ _ Hrow).
    unfold touch. by rewrite (update_eq_id_miss _ _ _ Hrow).
Qed.

Lemma sync_db_insert_alerts s v (t : table) (d : gmap string table) :
  sync_db s v (<["alerts" := t]> d) = <["alerts" := t]> (sync_db s v d).
Proof.
  unfold sync_db. destruct (vehicle_status_for s); [|done].
  destruct (truthy v); [|done]. by apply touch_insert_ne.
Qed.

Lemma sync_db_idem s v (d : gmap string table) :
  sync_db s v (sync_db s v d) = sync_db s v d.
Proof.
  unfold sync_db. destruct (vehicle_status_for s); [|done].
  destruct (truthy v); [|done]. by apply touch_idem.
Qed.

Lemma status_patch_absorb s t1 t2 (r : obj) :
  delete "id" (status_patch s t2 ∪ delete "id" (status_patch s t1 ∪ r))
  = delete "id" (status_patch s t2 ∪ r).
Proof.
  apply map_eq. intros c. destruct (decide (c = "id")) as [-> | Hc].
  - by rewrite !lookup_delete_eq.
  - rewrite !lookup_delete_ne by done. rewrite !lookup_union.
    rewrite lookup_delete_ne by done. rewrite lookup_union.
    unfold status_patch, object. cbn [foldl fst snd].
    destruct (decide (c = "updated_at")) as [-> | Hu].
    { rewrite !lookup_insert_eq. by destruct (r !! "updated_at"). }
    rewrite !(lookup_insert_ne _ "updated_at") by done.
    destruct (decide (c = "status")) as [-> | Hst].
    { rewrite !lookup_insert_eq. by destruct (r !! "status"). }
    rewrite !(lookup_insert_ne _ "status") by done.
    rewrite lookup_empty. by destruct (r !! c).
Qed.

Lemma patch_status_invalid req w :
  includes Alerts.validStatuses (req_body req).["status"] = false →
  Alerts.patch_status req w = (status_message 400 "Invalid status", w).
Proof.
  intros H. unfold Alerts.patch_status, Alerts.patch_status_try, handle.
  by rewrite H.
Qed.

Lemma patch_status_denied req w :
  includes Alerts.validStatuses (req_body req).["status"] = true →
  includes ["admin"; "dispatcher"; "rescuer"] (JStr (role (user req))) = false →
  Alerts.patch_status req w = (status_message 403 "Access denied", w).
Proof.
  intros H1 H2. unfold Alerts.patch_status, Alerts.patch_status_try, handle.
  by rewrite H1, H2.
Qed.

(** The tables after a status update that found its alert. *)
Lemma patch_status_hit_db req w k r :
  includes Alerts.validStatuses (req_body req).["status"] = true →
  includes ["admin"; "dispatcher"; "rescuer"] (JStr (role (user req))) = true →
  key_of_string (params_id req) = Some k →
  from w "alerts" !! k = Some r →
  ∃ s, (req_body req).["status"] = JStr s ∧
    db (snd (Alerts.patch_status req w)) =
      <["alerts" := <[k := delete "id" (status_patch (JStr s) (now req) ∪ r)]>
                      (from w "alerts")]>
        (sync_db s r.["assigned_vehicle_id"] (db w)).
Proof.
  intros Hvalid Hrole Hk Hr.
  destruct (patch_status_hit req w k r Hvalid Hrole Hk Hr) as (s & Hs & _ & Heq).
  exists s. split; [done |]. cbv zeta in Heq. rewrite Heq.
  rewrite broadcast_db, db_sync_vehicle. cbn [set_table log_call db].
  apply sync_db_insert_alerts.
Qed.

(** C8, as stated, fails: the resolved sample alert is set to [resolved]
    twice, an hour apart; the state after the second call is not the state
    after the first, the alert's [updated_at] has moved. *)
Lemma repeated_status_update_moves_updated_at :
  ¬ (∀ req w t2 k r,
       key_of_string (params_id req) = Some k →
       from w "alerts" !! k = Some r →
       (req_body req).["status"] = r.["status"] →
       db (snd (Alerts.patch_status (at_time t2 req) (snd (Alerts.patch_status req w))))
       = db (snd (Alerts.patch_status req w))).
Proof.
  intros H.
  specialize (H (Sample.set_status Sample.admin "1" "resolved" "2024-02-01T10:00:00.000Z")
                Sample.state "2024-02-01T11:00:00.000Z" 1%positive Sample.alert
                eq_refl eq_refl eq_refl).
  apply (f_equal (fun d : gmap string table =>
                    r ← default ∅ (d !! "alerts") !! 1%positive; r !! "updated_at")) in H.
  vm_compute in H. discriminate H.
Qed.

Lemma status_patch_restamp s t1 t2 (r : obj) :
  delete "id" (status_patch s t2 ∪ delete "id" (status_patch s t1 ∪ r))
  = <["updated_at" := JStr t2]> (delete "id" (status_patch s t1 ∪ r)).
Proof.
  apply map_eq. intros c.
  destruct (decide (c = "updated_at")) as [-> | Hu].
  { rewrite lookup_insert_eq, lookup_delete_ne by done.
    by apply lookup_union_Some_l. }
  rewrite lookup_insert_ne by done.
  destruct (decide (c = "id")) as [-> | Hc].
  { by rewrite !lookup_delete_eq. }
  rewrite !lookup_delete_ne by done. rewrite !lookup_union.
  rewrite lookup_delete_ne by done. rewrite lookup_union.
  unfold status_patch, object. cbn [foldl fst snd].
  rewrite !(lookup_insert_ne _ "updated_at") by done.
  destruct (decide (c = "status")) as [-> | Hst].
  { rewrite !lookup_insert_eq. by destruct (r !! "status"). }
  rewrite !(lookup_insert_ne _ "status") by done.
  rewrite lookup_empty. by destruct (r !! c).
Qed.

(** C8 (amended): a status update made twice in succession with the same
    target status leaves the incident and vehicle tables exactly as the
    second call alone would have left them, and two calls that read the
    same time are idempotent.  Compared with the state after the first
    call, the second call changes one cell: the [updated_at] of the
    incident, which it sets to its own time; every other cell of the
    incident, every other incident, the vehicles and every other table are
    as the first call left them.  When the first call was refused or found
    no incident, the second changes nothing. *)
Theorem patch_status_twice req w t2 :
  let w1 := snd (Alerts.patch_status req w) in
  let w2 := snd (Alerts.patch_status (at_time t2 req) w1) in
  db w2 = db (snd (Alerts.patch_status (at_time t2 req) w)) ∧
  db (snd (Alerts.patch_status req w1)) = db w1 ∧
  (∀ k r,
     includes Alerts.validStatuses (req_body req).["status"] = true →
     includes ["admin"; "dispatcher"; "rescuer"] (JStr (role (user req))) = true →
     key_of_string (params_id req) = Some k →
     from w "alerts" !! k = Some r →
     ∃ r1, from w1 "alerts" !! k = Some r1 ∧
           db w2 = <["alerts" := <[k := <["updated_at" := JStr t2]> r1]>
                                   (from w1 "alerts")]> (db w1)) ∧
  (includes Alerts.validStatuses (req_body req).["status"] = false
   ∨ includes ["admin"; "dispatcher"; "rescuer"] (JStr (role (user req))) = false
   ∨ find_row (from w "alerts") (JStr (params_id req)) = None →
   db w2 = db w1).
Proof.
  intros w1 w2. subst w2.
  assert (Hmain : ∀ t,
    db (snd (Alerts.patch_status (at_time t req) w1))
    = db (snd (Alerts.patch_status (at_time t req) w))).
  { intros t. subst w1.
    destruct (includes Alerts.validStatuses (req_body req).["status"]) eqn:Hvalid.
    2: { by rewrite (patch_status_invalid req w Hvalid). }
    destruct (includes ["admin"; "dispatcher"; "rescuer"] (JStr (role (user req))))
      eqn:Hrole.
    2: { by rewrite (patch_status_denied req w Hvalid Hrole). }
    destruct (find_row (from w "alerts") (JStr (params_id req))) as [[k r]|] eqn:Hrow.
    2: { rewrite (patch_status_miss req w Hvalid Hrole Hrow). cbn [snd].
         rewrite !patch_status_miss by done. reflexivity. }
    apply find_row_Some in Hrow as [Hk Hr]. cbn [as_key] in Hk.
    destruct (patch_status_hit_db req w k r Hvalid Hrole Hk Hr) as (s & Hs & Hdb1).
    destruct (patch_status_hit_db (at_time t req) w k r Hvalid Hrole Hk Hr)
      as (s2 & Hs2 & Hdb2).
    cbn [at_time req_body] in Hs2. rewrite Hs in Hs2. injection Hs2 as <-.
    set (w1 := snd (Alerts.patch_status req w)) in *.
    set (r1 := delete "id" (status_patch (JStr s) (now req) ∪ r)) in *.
    assert (Hr1 : from w1 "alerts" !! k = Some r1).
    { unfold from. rewrite Hdb1, lookup_insert_eq. cbn [default from_option Datatypes.id].
      apply lookup_insert_eq. }
    destruct (patch_status_hit_db (at_time t req) w1 k r1 Hvalid Hrole Hk Hr1)
      as (s3 & Hs3 & Hdb3).
    cbn [at_time req_body] in Hs3. rewrite Hs in Hs3. injection Hs3 as <-.
    rewrite Hdb3, Hdb2. cbn [at_time now].
    assert (Ha : r1.["assigned_vehicle_id"] = r.["assigned_vehicle_id"]).
    { unfold r1. rewrite prop_delete_ne by done. by rewrite prop_union_r. }
    rewrite Ha. unfold r1 at 1. rewrite status_patch_absorb.
    unfold from at 1. rewrite Hdb1, lookup_insert_eq. cbn [default from_option Datatypes.id].
    rewrite insert_insert_eq.
    rewrite sync_db_insert_alerts, sync_db_idem.
    rewrite insert_insert_eq. reflexivity. }
  split; [apply Hmain |]. split.
  { specialize (Hmain (now req)). by destruct req. }
  split.
  - intros k r Hvalid Hrole Hk Hr.
    destruct (patch_status_hit_db req w k r Hvalid Hrole Hk Hr) as (s & Hs & Hdb1).
    fold w1 in Hdb1.
    set (r1 := delete "id" (status_patch (JStr s) (now req) ∪ r)) in *.
    assert (Hr1 : from w1 "alerts" !! k = Some r1).
    { unfold from. rewrite Hdb1, lookup_insert_eq. cbn [default from_option Datatypes.id].
      apply lookup_insert_eq. }
    exists r1. split; [exact Hr1 |].
    destruct (patch_status_hit_db (at_time t2 req) w1 k r1 Hvalid Hrole Hk Hr1)
      as (s3 & Hs3 & Hdb3).
    cbn [at_time req_body] in Hs3. rewrite Hs in Hs3. injection Hs3 as <-.
    rewrite Hdb3. cbn [at_time now].
    assert (Ha : r1.["assigned_vehicle_id"] = r.["assigned_vehicle_id"]).
    { unfold r1. rewrite prop_delete_ne by done. by rewrite prop_union_r. }
    rewrite Ha. unfold r1 at 1. rewrite status_patch_restamp. fold r1.
    f_equal. rewrite Hdb1. rewrite sync_db_insert_alerts, sync_db_idem. reflexivity.
  - assert (Hinv : includes Alerts.validStatuses (req_body req).["status"] = false →
                    db (snd (Alerts.patch_status (at_time t2 req) w1)) = db w1).
    { intros Hvalid. subst w1. rewrite (patch_status_invalid req w Hvalid). cbn [snd].
      by rewrite (patch_status_invalid (at_time t2 req) w Hvalid). }
    assert (Hden : includes Alerts.validStatuses (req_body req).["status"] = true →
                   includes ["admin"; "dispatcher"; "rescuer"] (JStr (role (user req)))
                   = false →
                   db (snd (Alerts.patch_status (at_time t2 req) w1)) = db w1).
    { intros Hvalid Hrole. subst w1. rewrite (patch_status_denied req w Hvalid Hrole).
      cbn [snd]. by rewrite (patch_status_denied (at_time t2 req) w Hvalid Hrole). }
    destruct (includes Alerts.validStatuses (req_body req).["status"]) eqn:Hvalid;
      [| intros _; by apply Hinv].
    destruct (includes ["admin"; "dispatcher"; "rescuer"] (JStr (role (user req))))
      eqn:Hrole; [| intros _; by apply Hden].
    intros [? | [? | Hrow]]; try discriminate. subst w1.
    rewrite (patch_status_miss req w Hvalid Hrole Hrow). cbn [snd].
    rewrite patch_status_miss by done. reflexivity.
Qed.

Lemma patch_status_twice_witness :
  let req := Sample.set_status Sample.admin "1" "resolved" "2024-02-01T10:00:00.000Z" in
  let w1 := snd (Alerts.patch_status req Sample.state) in
  let w2 := snd (Alerts.patch_status (at_time "2024-02-01T11:00:00.000Z" req) w1) in
  ∃ r1, from w1 "alerts" !! 1%positive = Some r1 ∧
        db w2 = <["alerts" := <[1%positive := <["updated_at" :=
                                   JStr "2024-02-01T11:00:00.000Z"]> r1]>
                                (from w1 "alerts")]> (db w1).
Proof.
  intros req w1 w2.
  destruct (patch_status_twice req Sample.state "2024-02-01T11:00:00.000Z")
    as (_ & _ & Hrow & _).
  exact (Hrow 1%positive Sample.alert eq_refl eq_refl eq_refl eq_refl).
Defined.

(** ** The socket holder *)

Section Frame.
Context (R : relation world) `{!PreOrder R}.

Lemma respects_ret {A} (a : A) : respects R (mret a).
Proof. by intros w. Qed.

Lemma respects_throw {A} e : respects R (@throw A e).
Proof. by intros w. Qed.

Lemma respects_bind {A B} (m : js A) (k : A → js B) :
  respects R m → (∀ a, respects R (k a)) → respects R (m ≫= k).
Proof.
  intros Hm Hk w. unfold mbind, js_bind. specialize (Hm w).
  destruct (m w) as [[a | e] w1]; cbn [snd] in *; [|done].
  etrans; [exact Hm | apply Hk].
Qed.

Lemma respects_when c (m : js unit) : respects R m → respects R (when c m).
Proof. intros Hm. destruct c; [done | apply respects_ret]. Qed.

Lemma respects_getIO : respects R SocketInstance.getIO.
Proof. intros w. unfold SocketInstance.getIO. by destruct (negb _). Qed.

Lemma respects_deref d c : respects R (deref d c).
Proof. intros w. by destruct d. Qed.

Lemma respects_call_trim c v : respects R (call_trim c v).
Proof. intros w. by destruct v. Qed.

Lemma respects_call_trim_opt c v : respects R (call_trim_opt c v).
Proof.
  unfold call_trim_opt.
  destruct (nullish v); [apply respects_ret | apply respects_call_trim].
Qed.

Lemma respects_select_single n cols v : respects R (select_single n cols v).
Proof. by intros w. Qed.

Lemma respects_handle fb (m : js response) w :
  respects R m → R w (snd (handle fb m w)).
Proof.
  intros Hm. unfold handle. specialize (Hm w).
  by destruct (m w) as [[a | e] w1].
Qed.

End Frame.

(** Walks through a handler body: binds, tests and matches; the calls that
    change the state are left to the hints of [frame]. *)
Create HintDb frame.

Ltac frame_walk :=
  repeat match goal with
    | |- respects ?R (mret _) => apply (respects_ret R)
    | |- respects ?R (throw _) => apply (respects_throw R)
    | |- respects ?R SocketInstance.getIO => apply (respects_getIO R)
    | |- respects ?R (deref _ _) => apply (respects_deref R)
    | |- respects ?R (call_trim _ _) => apply (respects_call_trim R)
    | |- respects ?R (call_trim_opt _ _) => apply (respects_call_trim_opt R)
    | |- respects ?R (select_single _ _ _) => apply (respects_select_single R)
    | |- respects ?R (when _ _) => apply (respects_when R)
    | |- respects ?R (_ ≫= _) => apply (respects_bind R); [| intros ?]
    | |- respects _ (if ?c then _ else _) => destruct c
    | |- respects _ (match ?x with _ => _ end) => destruct x
    | |- _ => progress auto with frame
    end.

#[global] Instance same_io_preorder : PreOrder same_io.
Proof. split; [by intros w | intros w1 w2 w3; unfold same_io; congruence]. Qed.

Lemma same_io_emit sock ev p : respects same_io (emit sock ev p).
Proof. intros w. by destruct sock. Qed.

Lemma same_io_update_single n v p : respects same_io (update_single n v p).
Proof. intros w. unfold update_single. by destruct (update_eq_id _ _ _). Qed.

Lemma same_io_update_where n v p : respects same_io (update_where n v p).
Proof. intros w. apply io_update_where. Qed.

Lemma same_io_delete_where n v : respects same_io (delete_where n v).
Proof.
  intros w. unfold delete_where, same_io. cbn [snd].
  by destruct (find_row _ _) as [[] |].
Qed.

Lemma same_io_insert_single n t r : respects same_io (insert_single n t r).
Proof. by intros w. Qed.

#[export] Hint Resolve same_io_emit same_io_update_single same_io_update_where
  same_io_delete_where same_io_insert_single : frame.

Lemma alert_routes_keep_io req w :
  io (snd (Alerts.create req w)) = io w ∧
  io (snd (Alerts.put_by_id req w)) = io w ∧
  io (snd (Alerts.patch_status req w)) = io w ∧
  io (snd (Alerts.patch_assign req w)) = io w ∧
  io (snd (Alerts.delete_by_id req w)) = io w.
Proof.
  repeat split; apply (respects_handle same_io).
  - unfold Alerts.create_try. frame_walk.
  - unfold Alerts.put_by_id_try. frame_walk.
  - unfold Alerts.patch_status_try. frame_walk.
  - unfold Alerts.patch_assign_try. frame_walk.
  - unfold Alerts.delete_by_id_try. frame_walk.
Qed.

(** C9, as stated, fails: [0] is not [null], yet after [setIO(0)] the call
    [getIO()] throws. *)
Lemma getIO_throws_after_setIO_zero :
  ¬ (∀ x w, nullish x = false →
       fst ((SocketInstance.setIO x ≫= λ _, SocketInstance.getIO) w) = Val x).
Proof.
  intros H. specialize (H (JInt 0) Sample.cold eq_refl). discriminate H.
Qed.

(** C9 (amended): [getIO] before any [setIO] throws "Socket.io not
    initialized"; after [setIO(x)] with a truthy [x] (any object, such as the
    Socket.IO server), [getIO] returns [x]; and no alert route changes the
    holder, so after initialisation every later [getIO] of a lifecycle
    mutation returns [x] as well. *)
Theorem getIO_after_setIO :
  (∀ w, io w = SocketInstance.initial_io →
        SocketInstance.getIO w = (Throw "Socket.io not initialized", w)) ∧
  (∀ x w, truthy x = true →
        (SocketInstance.setIO x ≫= λ _, SocketInstance.getIO) w
        = (Val x, World (db w) x (emitted w) (calls w))) ∧
  (∀ x req w route, truthy x = true → io w = x →
        route ∈ [Alerts.create; Alerts.put_by_id; Alerts.patch_status;
                 Alerts.patch_assign; Alerts.delete_by_id] →
        fst (SocketInstance.getIO (snd (route req w))) = Val x).
Proof.
  split; [| split].
  - intros w H. unfold SocketInstance.getIO. by rewrite H.
  - intros x w H. unfold mbind, js_bind, SocketInstance.setIO, SocketInstance.getIO.
    cbn [io]. by rewrite H.
  - intros x req w route Hx Hio Hroute.
    assert (Hkeep : io (snd (route req w)) = x).
    { destruct (alert_routes_keep_io req w) as (H1 & H2 & H3 & H4 & H5).
      repeat (apply elem_of_cons in Hroute as [-> | Hroute]); try congruence.
      by apply elem_of_nil in Hroute. }
    unfold SocketInstance.getIO. rewrite Hkeep, Hx. reflexivity.
Qed.

Lemma getIO_after_setIO_witness :
  SocketInstance.getIO Sample.cold = (Throw "Socket.io not initialized", Sample.cold) ∧
  (SocketInstance.setIO (JRef 0) ≫= λ _, SocketInstance.getIO) Sample.cold
  = (Val (JRef 0), Sample.state).
Proof.
  split.
  - apply (proj1 getIO_after_setIO Sample.cold). reflexivity.
  - apply (proj1 (proj2 getIO_after_setIO) (JRef 0) Sample.cold). reflexivity.
Defined.

(** ** Coordinates on creation: crash events and SOS requests *)

Lemma Qle_bool_false a b : Qle_bool a b = false ↔ (b < a)%Q.
Proof.
  split.
  - intros H. apply Qnot_le_lt. intros Hle. apply Qle_bool_iff in Hle. congruence.
  - intros H. destruct (Qle_bool a b) eqn:E; [|done].
    apply Qle_bool_iff in E. by apply Qlt_not_le in H.
Qed.

(** The test of the SOS route on the coordinates, as a proposition. *)
Lemma sos_coordinate_test lat lon :
  (is_undefined lat || is_undefined lon
   || (negb (is_number lat) || Sos.num_lt lat (-90) || Sos.num_gt lat 90
       || negb (is_number lon) || Sos.num_lt lon (-180) || Sos.num_gt lon 180)) = true
  ↔ bad_coordinates lat lon.
Proof.
  unfold bad_coordinates. split.
  - intros H.
    destruct lat as [| |b|q|s|h]; try (right; right; left; reflexivity).
    destruct lon as [| |b|q'|s|h]; try (right; right; right; left; reflexivity).
    cbn in H. rewrite !orb_true_iff, !negb_true_iff, !Qle_bool_false in H.
    repeat match goal with H : _ ∨ _ |- _ => destruct H as [H | H] end;
      first [ do 4 right; left; exists q; split;
                [reflexivity | (by left) || (by right)]
            | do 5 right; exists q'; split;
                [reflexivity | (by left) || (by right)] ].
  - intros H.
    destruct lat as [| |b|q|s|h]; try reflexivity;
      destruct lon as [| |b'|q'|s'|h'];
      cbn; rewrite ?orb_false_r, ?orb_true_r; try reflexivity.
    rewrite !orb_true_iff, !negb_true_iff, !Qle_bool_false.
    destruct H as [H | [H | [H | [H | [(x & [= <-] & [H | H]) | (x & [= <-] & [H | H])]]]]];
      try discriminate; eauto.
Qed.

Lemma sos_create_cases req w :
  let b := req_body req in
  Sos.create req w =
    if negb (truthy b.["type"]) || is_undefined b.["latitude"] || is_undefined b.["longitude"]
    then (status_message 400 "Missing required fields (type, latitude, longitude)", w)
    else if negb (is_number b.["latitude"])
            || Sos.num_lt b.["latitude"] (-90) || Sos.num_gt b.["latitude"] 90
            || negb (is_number b.["longitude"])
            || Sos.num_lt b.["longitude"] (-180) || Sos.num_gt b.["longitude"] 180
    then (status_message 400 "Invalid latitude or longitude values", w)
    else Sos.create req w.
Proof.
  intros b.
  match goal with |- _ = if ?c then _ else _ => destruct c eqn:H1 end.
  { unfold Sos.create, handle, Sos.create_try. fold b. by rewrite H1. }
  match goal with |- _ = if ?c then _ else _ => destruct c eqn:H2 end.
  { unfold Sos.create, handle, Sos.create_try. fold b. by rewrite H1, H2. }
  reflexivity.
Qed.

Lemma sos_accepted_code req w :
  let b := req_body req in
  (negb (truthy b.["type"]) || is_undefined b.["latitude"] || is_undefined b.["longitude"]) = false →
  (negb (is_number b.["latitude"])
   || Sos.num_lt b.["latitude"] (-90) || Sos.num_gt b.["latitude"] 90
   || negb (is_number b.["longitude"])
   || Sos.num_lt b.["longitude"] (-180) || Sos.num_gt b.["longitude"] 180) = false →
  code (fst (Sos.create req w)) =
    if nullish b.["description"] then 201%Z
    else match b.["description"] with JStr _ => 201%Z | _ => 500%Z end.
Proof.
  intros b H1 H2. unfold Sos.create, handle, Sos.create_try. fold b.
  rewrite H1, H2. unfold call_trim_opt, call_trim.
  destruct b.["description"]; reflexivity.
Qed.

(** C10: the crash route answers 400 "Latitude and longitude are required"
    whenever the latitude or the longitude is falsy, the number 0 included;
    the SOS route, given a type, answers 400 exactly when a coordinate is
    undefined, not a number or out of range, and accepts latitude 0 with
    longitude 0 (answer 201). *)
Theorem crash_rejects_zero_sos_accepts_zero :
  (∀ req w,
     truthy (req_body req).["latitude"] = false ∨
     truthy (req_body req).["longitude"] = false →
     Crash.create req w
     = (status_message 400 "Latitude and longitude are required", w)) ∧
  (∀ req w,
     (req_body req).["latitude"] = JInt 0 ∨ (req_body req).["longitude"] = JInt 0 →
     code (fst (Crash.create req w)) = 400%Z) ∧
  (∀ req w,
     truthy (req_body req).["type"] = true →
     (code (fst (Sos.create req w)) = 400%Z
      ↔ bad_coordinates (req_body req).["latitude"] (req_body req).["longitude"])) ∧
  (∀ req w,
     truthy (req_body req).["type"] = true →
     (req_body req).["latitude"] = JInt 0 →
     (req_body req).["longitude"] = JInt 0 →
     nullish (req_body req).["description"] = true →
     code (fst (Sos.create req w)) = 201%Z).
Proof.
  assert (Hcrash : ∀ req w,
     truthy (req_body req).["latitude"] = false ∨
     truthy (req_body req).["longitude"] = false →
     Crash.create req w
     = (status_message 400 "Latitude and longitude are required", w)).
  { intros req w H. unfold Crash.create, handle, Crash.create_try.
    destruct H as [-> | ->]; [done |]. by rewrite orb_true_r. }
  split; [exact Hcrash |]. split; [| split].
  - intros req w H. rewrite Hcrash; [done |]. destruct H as [-> | ->]; auto.
  - intros req w Htype. rewrite <- sos_coordinate_test.
    rewrite sos_create_cases. cbv zeta. rewrite Htype. cbn [negb orb].
    destruct (is_undefined (req_body req).["latitude"] || is_undefined (req_body req).["longitude"])
      eqn:Hundef; [done |].
    cbn [orb].
    destruct (negb (is_number (req_body req).["latitude"]) || _ || _ || _ || _ || _)
      eqn:Hbad; [done |].
    rewrite sos_accepted_code; [| by rewrite Htype | done].
    split; [| done].
    destruct (nullish _); [done |]. by destruct (req_body req).["description"].
  - intros req w Htype Hlat Hlon Hdesc.
    rewrite sos_accepted_code.
    + by rewrite Hdesc.
    + by rewrite Htype, Hlat, Hlon.
    + by rewrite Hlat, Hlon.
Qed.

Lemma crash_rejects_zero_sos_accepts_zero_witness :
  let body := object [("type", JStr "medical"); ("latitude", JInt 0); ("longitude", JInt 0)] in
  let req := Request Sample.reporter "" ∅ body "2024-02-01T10:00:00.000Z" in
  Crash.create req Sample.state
  = (status_message 400 "Latitude and longitude are required", Sample.state) ∧
  code (fst (Sos.create req Sample.state)) = 201%Z.
Proof.
  intros body req. split.
  - apply (proj1 crash_rejects_zero_sos_accepts_zero req Sample.state).
    left. reflexivity.
  - apply (proj2 (proj2 (proj2 crash_rejects_zero_sos_accepts_zero)) req Sample.state);
      reflexivity.
Defined.

(** ** Answers and the states they come with *)

Section Post.
Context (R : relation world) (Q : world → response → world → Prop).
Hypothesis Q_stable : ∀ w w1 r w', R w w1 → Q w1 r w' → Q w r w'.

Lemma post_bind {A} (m : js A) (k : A → js response) :
  respects R m → (∀ a, post Q (k a)) → post Q (m ≫= k).
Proof.
  intros Hm Hk w r w' H. unfold mbind, js_bind in H. specialize (Hm w).
  destruct (m w) as [[a | e] w1]; [| discriminate].
  cbn [snd] in Hm. eapply Q_stable; [exact Hm |]. by eapply Hk.
Qed.

End Post.

Lemma post_ret Q r : (∀ w, Q w r w) → post Q (mret r).
Proof. intros H w r' w' [= <- <-]. apply H. Qed.

Lemma post_throw Q e : post Q (throw e).
Proof. intros w r w' H. discriminate H. Qed.

Lemma post_handle Q fb body w :
  post Q body → (∀ w m w', Q w (status_message 500 m) w') →
  Q w (fst (handle fb body w)) (snd (handle fb body w)).
Proof.
  intros Hbody H500. unfold handle.
  destruct (body w) as [[r | e] w'] eqn:E; cbn [fst snd]; [by apply Hbody | apply H500].
Qed.

(** ** Creation *)

#[global] Instance adds_pending_preorder n : PreOrder (adds_pending n).
Proof.
  split.
  - intros w. split; [done |]. intros k r H1 H2. congruence.
  - intros w1 w2 w3 [K12 N12] [K23 N23]. split.
    + intros k r H. by apply K23, K12.
    + intros k r H3 H1. destruct (from w2 n !! k) as [r2|] eqn:H2.
      * pose proof (K23 _ _ H2) as H3'. rewrite H3 in H3'. injection H3' as ->.
        by apply (N12 k).
      * by apply (N23 k).
Qed.

Lemma inserted_row_pending n nw (data : obj) :
  data !! "status" = Some (JStr "pending") →
  data !! "assigned_vehicle_id" = None →
  data !! "assigned_responder_id" = None →
  created_pending (delete "id" (data ∪ column_defaults n nw)).
Proof.
  intros Hs Hv Hr. unfold created_pending.
  rewrite !prop_delete_ne by done. split; [by apply prop_union_l |].
  rewrite !prop_union_r by done.
  unfold column_defaults. destruct (String.eqb n "alerts"); [by split |].
  unfold prop. by rewrite !lookup_empty.
Qed.

Lemma adds_pending_emit n sock ev p : respects (adds_pending n) (emit sock ev p).
Proof. intros w. destruct sock; cbn [emit snd]; try reflexivity. split; [done |]. intros k r H1 H2. unfold from in *. cbn [db] in *. congruence. Qed.

Lemma adds_pending_insert n n' nw (data : obj) :
  data !! "status" = Some (JStr "pending") →
  data !! "assigned_vehicle_id" = None →
  data !! "assigned_responder_id" = None →
  respects (adds_pending n) (insert_single n' nw data).
Proof.
  intros Hs Hv Hr w. unfold insert_single. cbn [snd].
  destruct (decide (n' = n)) as [-> | Hn].
  - split; intros k r; rewrite from_set_table_eq.
    + intros Hk. rewrite lookup_insert_ne; [done |].
      intros <-. apply (is_fresh (dom (from w n))).
      apply elem_of_dom. eauto.
    + intros Hk Hnone. rewrite lookup_insert in Hk. case_decide.
      * injection Hk as <-. by apply inserted_row_pending.
      * change (from (log_call ?c w) n) with (from w n) in Hk. congruence.
  - split; intros k r; rewrite from_set_table_ne by done; [done |].
    change (from (log_call ?c w) n) with (from w n). congruence.
Qed.

#[export] Hint Resolve adds_pending_emit : frame.
#[export] Hint Extern 1 (respects (adds_pending _) (insert_single _ _ _)) =>
  apply adds_pending_insert; reflexivity : frame.

(** C4: whatever the request body holds (a [status] field included), every
    row that a create route (manual alert, crash event, SOS) adds to its
    table has status [pending] and no vehicle and no responder assigned;
    the rows that were there are left as they were. *)
Lemma create_routes_add_pending req w :
  adds_pending "alerts" w (snd (Alerts.create req w)) ∧
  adds_pending "crash_events" w (snd (Crash.create req w)) ∧
  adds_pending "sos_requests" w (snd (Sos.create req w)).
Proof.
  unfold Alerts.create, Crash.create, Sos.create.
  split; [| split]; apply (respects_handle (adds_pending _)).
  - unfold Alerts.create_try. frame_walk.
  - unfold Crash.create_try. frame_walk.
  - unfold Sos.create_try. frame_walk.
Qed.

(** A create route answers 201 only after it has stored the row. *)

#[global] Instance same_table_preorder n : PreOrder (same_table n).
Proof.
  split; [by intros w | intros w1 w2 w3; unfold same_table; congruence].
Qed.

Lemma same_table_emit n sock ev p : respects (same_table n) (emit sock ev p).
Proof. intros w. by destruct sock. Qed.

#[export] Hint Resolve same_table_emit : frame.

Lemma created_ret n r : code r ≠ 201%Z → post (created_on n) (mret r).
Proof. intros Hr. apply post_ret. intros w H. by destruct Hr. Qed.

Lemma created_bind_pure n {A} (m : js A) (k : A → js response) :
  respects eq m → (∀ a, post (created_on n) (k a)) → post (created_on n) (m ≫= k).
Proof. apply (post_bind eq). by intros w w1 r w' <-. Qed.

Lemma created_after_insert n nw (data : obj) (k : reply obj → js response) :
  data !! "status" = Some (JStr "pending") →
  data !! "assigned_vehicle_id" = None →
  data !! "assigned_responder_id" = None →
  (∀ rep, respects (same_table n) (k rep)) →
  post (created_on n) (insert_single n nw data ≫= k).
Proof.
  intros Hs Hv Hr Hk w r w' H _.
  unfold mbind, js_bind, insert_single in H.
  match type of H with k ?rep ?w1 = _ =>
    pose proof (Hk rep w1) as Hframe; rewrite H in Hframe end.
  cbn [snd] in Hframe. unfold same_table in Hframe.
  rewrite from_set_table_eq in Hframe.
  exists (fresh (dom (from w n))), (delete "id" (data ∪ column_defaults n nw)).
  split; [apply not_elem_of_dom, is_fresh |]. split; [exact Hframe |].
  by apply inserted_row_pending.
Qed.

Ltac created_walk :=
  repeat match goal with
    | |- post (created_on _) (mret _) => apply created_ret; discriminate
    | |- post _ (throw _) => apply post_throw
    | |- post (created_on _) (insert_single _ _ _ ≫= _) =>
        apply created_after_insert; [reflexivity | reflexivity | reflexivity |];
        intros ?; frame_walk
    | |- post (created_on _) (_ ≫= _) =>
        apply created_bind_pure; [solve [frame_walk] | intros ?]
    | |- post _ (if ?c then _ else _) => destruct c
    end.

Lemma create_routes_store_before_201 req :
  post (created_on "alerts") (Alerts.create_try req) ∧
  post (created_on "crash_events") (Crash.create_try req) ∧
  post (created_on "sos_requests") (Sos.create_try req).
Proof.
  split; [| split].
  - unfold Alerts.create_try. created_walk.
  - unfold Crash.create_try. created_walk.
  - unfold Sos.create_try. created_walk.
Qed.

Lemma alert_create_accepts req w t l h :
  negb (truthy (req_body req).["alert_type"]) || negb (truthy (req_body req).["severity"])
  || negb (truthy (req_body req).["title"]) || negb (truthy (req_body req).["location"])
  || negb (includes Alerts.validAlertTypes (req_body req).["alert_type"])
  || negb (includes Alerts.validSeverities (req_body req).["severity"]) = false →
  (req_body req).["title"] = JStr t →
  (req_body req).["location"] = JStr l →
  (nullish (req_body req).["description"] = true ∨
   ∃ d, (req_body req).["description"] = JStr d) →
  io w = JRef h →
  code (fst (Alerts.create req w)) = 201%Z.
Proof.
  intros Hok Ht Hl Hd Hio.
  apply orb_false_iff in Hok as [Hok G3]. apply orb_false_iff in Hok as [G1 G2].
  unfold Alerts.create, handle, Alerts.create_try.
  rewrite G1, G2, G3, Ht, Hl.
  assert (Hdesc : ∃ d', ∀ w0, call_trim_opt "description?.trim"
                                (req_body req).["description"] w0 = (Val d', w0)).
  { destruct Hd as [Hn | [d ->]].
    - exists JUndefined. intros w0. unfold call_trim_opt. by rewrite Hn.
    - by exists (JStr (trim d)). }
  destruct Hdesc as [d' Hdesc].
  erewrite bind_val by reflexivity.
  erewrite bind_val by apply Hdesc.
  erewrite bind_val by reflexivity.
  erewrite bind_val by reflexivity.
  cbn [error data].
  unfold mbind, js_bind, SocketInstance.getIO, emit. cbn [io set_table log_call].
  rewrite Hio. reflexivity.
Qed.

(** C4: a create route (manual alert, crash event, SOS) that answers 201
    has stored an incident: one row has been added to its table, under a
    key that was free, with status [pending] and no vehicle and no
    responder assigned, whatever the request body holds (a [status] field
    included).  The routes do answer 201: the alert route for a body that
    passes its checks with text title and location and an absent or text
    description, while the socket server is registered; the crash route for
    truthy coordinates; the SOS route for a type, coordinates on the globe
    and an absent or text description.  And whatever the answer, every row
    found in the table afterwards that was not there before is pending and
    unassigned. *)
Theorem created_incident_is_pending req w :
  (code (fst (Alerts.create req w)) = 201%Z →
   adds_one_pending "alerts" w (snd (Alerts.create req w))) ∧
  (code (fst (Crash.create req w)) = 201%Z →
   adds_one_pending "crash_events" w (snd (Crash.create req w))) ∧
  (code (fst (Sos.create req w)) = 201%Z →
   adds_one_pending "sos_requests" w (snd (Sos.create req w))) ∧
  (∀ t l h,
     alert_body_rejected (req_body req) = false →
     (req_body req).["title"] = JStr t →
     (req_body req).["location"] = JStr l →
     (nullish (req_body req).["description"] = true ∨
      ∃ d, (req_body req).["description"] = JStr d) →
     io w = JRef h →
     code (fst (Alerts.create req w)) = 201%Z) ∧
  (truthy (req_body req).["latitude"] = true →
   truthy (req_body req).["longitude"] = true →
   code (fst (Crash.create req w)) = 201%Z) ∧
  (truthy (req_body req).["type"] = true →
   ¬ bad_coordinates (req_body req).["latitude"] (req_body req).["longitude"] →
   (nullish (req_body req).["description"] = true ∨
    ∃ d, (req_body req).["description"] = JStr d) →
   code (fst (Sos.create req w)) = 201%Z) ∧
  (∀ k r,
     (from (snd (Alerts.create req w)) "alerts" !! k = Some r →
      from w "alerts" !! k = None → created_pending r) ∧
     (from (snd (Crash.create req w)) "crash_events" !! k = Some r →
      from w "crash_events" !! k = None → created_pending r) ∧
     (from (snd (Sos.create req w)) "sos_requests" !! k = Some r →
      from w "sos_requests" !! k = None → created_pending r)).
Proof.
  destruct (create_routes_store_before_201 req) as (Pa & Pc & Ps).
  split; [| split; [| split; [| split; [| split; [| split]]]]].
  - apply (post_handle (created_on "alerts")); [exact Pa |]. intros w0 m w' H. discriminate H.
  - apply (post_handle (created_on "crash_events")); [exact Pc |].
    intros w0 m w' H. discriminate H.
  - apply (post_handle (created_on "sos_requests")); [exact Ps |].
    intros w0 m w' H. discriminate H.
  - intros t l h. apply alert_create_accepts.
  - intros Hlat Hlon. unfold Crash.create, handle, Crash.create_try.
    rewrite Hlat, Hlon. reflexivity.
  - intros Htype Hgood Hdesc.
    assert (Htest : is_undefined (req_body req).["latitude"]
                    || is_undefined (req_body req).["longitude"]
                    || (negb (is_number (req_body req).["latitude"])
                        || Sos.num_lt (req_body req).["latitude"] (-90)
                        || Sos.num_gt (req_body req).["latitude"] 90
                        || negb (is_number (req_body req).["longitude"])
                        || Sos.num_lt (req_body req).["longitude"] (-180)
                        || Sos.num_gt (req_body req).["longitude"] 180) = false).
    { destruct (_ || _) eqn:E; [| reflexivity].
      destruct Hgood. by apply sos_coordinate_test. }
    apply orb_false_iff in Htest as [Hundef Hrange].
    apply orb_false_iff in Hundef as [Hu1 Hu2].
    pose proof (sos_accepted_code req w) as Hcode. cbv zeta in Hcode.
    rewrite Hcode.
    + destruct Hdesc as [-> | [d ->]]; reflexivity.
    + by rewrite Htype, Hu1, Hu2.
    + exact Hrange.
  - intros k r.
    destruct (create_routes_add_pending req w) as ([_ Ha] & [_ Hc] & [_ Hs]).
    split; [| split]; eauto.
Qed.

Lemma created_incident_is_pending_witness :
  let at_noon b := Request Sample.reporter "" ∅ b "2024-02-01T10:00:00.000Z" in
  let alert := at_noon (object [("alert_type", JStr "fire"); ("severity", JStr "high");
                                ("title", JStr "Smoke"); ("location", JStr "Main street");
                                ("status", JStr "resolved");
                                ("assigned_vehicle_id", JKey 7)]) in
  let crash := at_noon (object [("latitude", JNum 14.5995); ("longitude", JNum 120.9842);
                                ("status", JStr "resolved");
                                ("assigned_vehicle_id", JKey 7)]) in
  let sos := at_noon (object [("type", JStr "medical"); ("latitude", JNum 0);
                              ("longitude", JNum 0); ("status", JStr "resolved");
                              ("assigned_vehicle_id", JKey 7)]) in
  adds_one_pending "alerts" Sample.state (snd (Alerts.create alert Sample.state)) ∧
  adds_one_pending "crash_events" Sample.state (snd (Crash.create crash Sample.state)) ∧
  adds_one_pending "sos_requests" Sample.state (snd (Sos.create sos Sample.state)).
Proof.
  intros at_noon alert crash sos.
  split; [| split].
  - destruct (created_incident_is_pending alert Sample.state) as (H & _).
    apply H. vm_compute. reflexivity.
  - destruct (created_incident_is_pending crash Sample.state) as (_ & H & _).
    apply H. vm_compute. reflexivity.
  - destruct (created_incident_is_pending sos Sample.state) as (_ & _ & H & _).
    apply H. vm_compute. reflexivity.
Defined.

(** ** Assignment *)

Lemma select_single_hit name cols v w k r :
  as_key v = Some k → from w name !! k = Some r →
  select_single name cols v w
  = (Val (Reply (Some (project cols (with_id k r))) None), w).
Proof.
  intros Hk Hr. unfold select_single, find_row. rewrite Hk. simpl. by rewrite Hr.
Qed.

Lemma prop_project cs (o : obj) c : c ∈ cs → (project (Some cs) o).[c] = o.[c].
Proof.
  intros Hc. unfold prop, project.
  destruct (o !! c) as [v|] eqn:E.
  - by rewrite (proj2 (map_lookup_filter_Some _ _ _ _) (conj E Hc)).
  - destruct (filter _ o !! c) as [v|] eqn:F; [|done].
    apply map_lookup_filter_Some in F as [F _]. congruence.
Qed.

Lemma patch_assign_hit req w k r :
  includes ["admin"; "dispatcher"] (JStr (role (user req))) = true →
  key_of_string (params_id req) = Some k →
  from w "alerts" !! k = Some r →
  let vehicle_id := (req_body req).["vehicle_id"] in
  let patch := assign_patch vehicle_id (req_body req).["responder_id"] (now req) in
  let r' := delete "id" (patch ∪ r) in
  Alerts.patch_assign req w =
    broadcast "alert:assigned" (PData (Some (with_id k r')))
      (json (PData (Some (with_id k r'))))
      (take_new vehicle_id
         (release_previous r.["assigned_vehicle_id"] vehicle_id
            (set_table "alerts" (<[k := r']> (from w "alerts"))
               (log_call (Update "alerts" (JStr (params_id req)) patch) w)))).
Proof.
  intros Hrole Hk Hr vehicle_id patch r'.
  unfold Alerts.patch_assign, Alerts.patch_assign_try.
  rewrite Hrole. cbn [negb]. unfold broadcast, handle.
  erewrite bind_val by (by apply select_single_hit).
  cbn [error data].
  erewrite bind_val; last first.
  { apply update_single_hit; [exact Hk | exact Hr | reflexivity]. }
  cbn [error data from_option].
  fold vehicle_id. fold (assign_patch vehicle_id (req_body req).["responder_id"] (now req)).
  fold patch. fold r'.
  rewrite prop_project by in_list. rewrite prop_with_id_ne by done.
  unfold take_new, release_previous.
  set (w1 := set_table _ _ _).
  destruct (truthy r.["assigned_vehicle_id"] && negb (strict_eq r.["assigned_vehicle_id"] vehicle_id));
    destruct (truthy vehicle_id);
    unfold mbind, js_bind, mret, js_ret, when; reflexivity.
Qed.







(** ** Visibility of incidents *)

Lemma strict_eq_JKey_as_key cell k :
  strict_eq cell (JKey k) = true → as_key cell = Some k.
Proof.
  destruct cell as [| |b|q|s|h]; try discriminate. cbn [strict_eq JKey JInt].
  intros H. apply Qeq_bool_iff, Qred_complete in H.
  cbn [as_key]. unfold key_of_Q. rewrite H, inject_Z_Qred. reflexivity.
Qed.

Lemma pg_eq_JKey cell k : pg_eq cell (JKey k) = true → as_key cell = Some k.
Proof.
  destruct cell as [| |b|q|s|h]; try discriminate.
  - apply (strict_eq_JKey_as_key (JNum q)).
  - unfold pg_eq. change (JKey k) with (JNum (inject_Z (Zpos k))).
    cbv iota beta. change (JNum (inject_Z (Zpos k))) with (JKey k).
    rewrite as_key_JKey. destruct (as_key (JStr s)) as [a|]; [|discriminate].
    intros H. apply Pos.eqb_eq in H. by subst.
Qed.

Lemma elem_of_order_desc col (l : list obj) r : r ∈ order_desc col l → r ∈ l.
Proof. unfold order_desc. by rewrite merge_sort_Permutation. Qed.

Lemma await_rows_sound q w :
  ∃ rows, await_rows q w = (Val (Reply (Some rows) None), w) ∧
          ∀ r c, r ∈ rows → c ∈ sq_conds q → holds c r = true.
Proof.
  unfold await_rows. eexists. split; [reflexivity |].
  intros r c Hr Hc.
  assert (Hin : r ∈ filter (fun r => Is_true (forallb (fun c => holds c r) (sq_conds q)))
                      (rows_of (from w (sq_from q)))).
  { destruct (sq_order q); cbn [from_option] in Hr; [|done].
    by apply elem_of_order_desc in Hr. }
  apply list_elem_of_filter in Hin as [Hall _].
  apply Is_true_true in Hall. rewrite forallb_forall in Hall.
  apply Hall. by apply list_elem_of_In.
Qed.

Lemma sort_insert_Permutation {A} (cmp : A → A → comparison) x l :
  Incidents.sort_insert cmp x l ≡ₚ x :: l.
Proof.
  induction l as [| y l IH]; [done |]. cbn [Incidents.sort_insert].
  destruct (cmp x y); try done.
  rewrite IH. apply Permutation_swap.
Qed.

Lemma sort_Permutation {A} (cmp : A → A → comparison) l : Incidents.sort cmp l ≡ₚ l.
Proof.
  unfold Incidents.sort. induction l as [| x l IH]; [done |]. cbn [foldr].
  by rewrite sort_insert_Permutation, IH.
Qed.

Lemma elem_of_slice {A} (l : list A) a b x : x ∈ Incidents.slice l a b → x ∈ l.
Proof.
  unfold Incidents.slice. intros H.
  apply list_elem_of_lookup in H as [i H].
  apply lookup_take_Some in H as [H _].
  rewrite lookup_drop in H. by apply list_elem_of_lookup_2 in H.
Qed.

Lemma alerts_get_list_own req w rows :
  role (user req) = "user" →
  body (fst (Alerts.get_list req w)) = PRows (Some rows) →
  ∀ r, r ∈ rows → as_key r.["user_id"] = Some (id (user req)).
Proof.
  intros Hrole Hbody r Hr.
  unfold Alerts.get_list, handle, Alerts.get_list_try in Hbody.
  rewrite Hrole in Hbody. cbn [String.eqb Ascii.eqb Bool.eqb] in Hbody.
  match type of Hbody with context [await_rows ?q] =>
    destruct (await_rows_sound q w) as (rows' & Heq & Hsound);
    rewrite (bind_val _ _ _ _ _ Heq) in Hbody end.
  cbn in Hbody. injection Hbody as <-.
  apply pg_eq_JKey.
  apply (Hsound r (CEq "user_id" (JKey (id (user req)))) Hr).
  cbn [q_eq sq_conds]. apply elem_of_app. right. apply list_elem_of_here.
Qed.

Lemma alerts_get_by_id_own req w d :
  role (user req) = "user" →
  body (fst (Alerts.get_by_id req w)) = PData (Some d) →
  as_key d.["user_id"] = Some (id (user req)).
Proof.
  intros Hrole Hbody.
  unfold Alerts.get_by_id, handle, Alerts.get_by_id_try in Hbody.
  rewrite Hrole in Hbody. cbn [String.eqb Ascii.eqb Bool.eqb andb] in Hbody.
  unfold mbind, js_bind, select_single in Hbody.
  destruct (find_row _ _) as [[k r]|]; cbn in Hbody; [|discriminate].
  destruct (strict_eq _ _) eqn:E; cbn in Hbody; [|discriminate].
  injection Hbody as <-. by apply strict_eq_JKey_as_key.
Qed.

Lemma alerts_get_by_id_denied req w k r :
  role (user req) = "user" →
  key_of_string (params_id req) = Some k →
  from w "alerts" !! k = Some r →
  as_key r.["user_id"] ≠ Some (id (user req)) →
  Alerts.get_by_id req w = (status_message 403 "Access denied", w).
Proof.
  intros Hrole Hk Hr Hother.
  unfold Alerts.get_by_id, handle, Alerts.get_by_id_try.
  rewrite Hrole. cbn [String.eqb Ascii.eqb Bool.eqb andb].
  erewrite bind_val by (by apply select_single_hit).
  cbn [error data project]. rewrite prop_with_id_ne by done.
  destruct (strict_eq _ _) eqn:E; [|done].
  by apply strict_eq_JKey_as_key in E.
Qed.

Lemma buildBaseQuery_user status from to userId tb tsf :
  CEq "user_id" userId
  ∈ sq_conds (Incidents.buildBaseQuery status from to "user" userId tb tsf).
Proof.
  unfold Incidents.buildBaseQuery. cbn [String.eqb Ascii.eqb Bool.eqb].
  cbn [q_eq sq_conds]. apply elem_of_app. right. apply list_elem_of_here.
Qed.

Lemma to_incident_own src tsf (rows : list obj) me e :
  (∀ r, r ∈ rows → as_key r.["user_id"] = Some me) →
  e ∈ Incidents.to_incident src tsf <$> rows →
  as_key (userId e) = Some me.
Proof.
  intros Hrows He. apply list_elem_of_fmap in He as (r & -> & Hr).
  cbn [Incidents.to_incident userId]. by apply Hrows.
Qed.

Lemma fetch_rows_own (c : bool) q src tsf me w :
  CEq "user_id" (JKey me) ∈ sq_conds q →
  ∃ l, (∀ e, e ∈ l → as_key (userId e) = Some me) ∧
       ∀ B (k : list incident → js B),
         ((if c then
             r ← await_rows q;
             match error r with
             | Some e => throw e
             | None => mret (Incidents.to_incident src tsf <$> default [] (data r))
             end
           else mret []) ≫= k) w = k l w.
Proof.
  intros Hq. destruct c.
  - destruct (await_rows_sound q w) as (rows & Heq & Hsound).
    exists (Incidents.to_incident src tsf <$> rows). split.
    + intros e He. apply (to_incident_own src tsf rows); [| done].
      intros r Hr. apply pg_eq_JKey.
      apply (Hsound r (CEq "user_id" (JKey me)) Hr Hq).
    + intros B k. unfold mbind, js_bind. rewrite Heq. reflexivity.
  - exists []. split; [| done]. intros e He. by apply elem_of_nil in He.
Qed.

Lemma incidents_get_list_own req w items p :
  role (user req) = "user" →
  body (fst (Incidents.get_list req w)) = PPage items p →
  ∀ e, e ∈ items → as_key (userId e) = Some (id (user req)).
Proof.
  intros Hrole Hbody e He.
  unfold Incidents.get_list, handle, Incidents.get_list_try in Hbody.
  rewrite Hrole in Hbody.
  set (type := Incidents.or_default (query req).["type"] (JStr "all")) in Hbody.
  destruct (fetch_rows_own
              (strict_eq type (JStr "alert") || strict_eq type (JStr "all"))
              (q_order "reported_at"
                 (Incidents.buildBaseQuery (query req).["status"] (query req).["from"]
                    (query req).["to"] "user" (JKey (id (user req)))
                    "alerts" "reported_at"))
              "alert" "reported_at" (id (user req)) w)
    as (alerts & Halerts & Ea).
  { cbn [q_order sq_conds]. apply buildBaseQuery_user. }
  destruct (fetch_rows_own
              (strict_eq type (JStr "crash") || strict_eq type (JStr "all"))
              (q_order "triggered_at"
                 (q_eq "event_type" (JStr "AUTO_CRASH")
                    (Incidents.buildBaseQuery (query req).["status"] (query req).["from"]
                       (query req).["to"] "user" (JKey (id (user req)))
                       "crash_events" "triggered_at")))
              "crash" "triggered_at" (id (user req)) w)
    as (crashes & Hcrashes & Ec).
  { cbn [q_order q_eq sq_conds]. apply elem_of_app. left. apply buildBaseQuery_user. }
  rewrite Ea, Ec in Hbody.
  cbn [mret js_ret fst body json] in Hbody. injection Hbody as <- _.
  apply elem_of_slice in He. rewrite sort_Permutation in He.
  apply elem_of_app in He as [He | He]; auto.
Qed.

(** C6: for a caller with role [user], every alert in the answer of the
    list route and the alert in the answer of the single-get route carry
    the caller's id as [user_id], as does every element of the combined
    incident list; asking for an alert whose [user_id] is not the caller's
    id is answered 403 "Access denied". *)
Theorem user_sees_only_own_incidents req w :
  role (user req) = "user" →
  (∀ rows, body (fst (Alerts.get_list req w)) = PRows (Some rows) →
     ∀ r, r ∈ rows → as_key r.["user_id"] = Some (id (user req))) ∧
  (∀ d, body (fst (Alerts.get_by_id req w)) = PData (Some d) →
     as_key d.["user_id"] = Some (id (user req))) ∧
  (∀ k r, key_of_string (params_id req) = Some k →
     from w "alerts" !! k = Some r →
     as_key r.["user_id"] ≠ Some (id (user req)) →
     Alerts.get_by_id req w = (status_message 403 "Access denied", w)) ∧
  (∀ items p, body (fst (Incidents.get_list req w)) = PPage items p →
     ∀ e, e ∈ items → as_key (userId e) = Some (id (user req))).
Proof.
  intros Hrole. repeat split.
  - intros rows. by apply alerts_get_list_own.
  - intros d. by apply alerts_get_by_id_own.
  - intros k r. by apply alerts_get_by_id_denied.
  - intros items p. by apply incidents_get_list_own.
Qed.

Lemma user_sees_only_own_incidents_witness :
  Alerts.get_by_id (Request Sample.stranger "1" ∅ ∅ "2024-02-01T10:00:00.000Z") Sample.state
  = (status_message 403 "Access denied", Sample.state).
Proof.
  apply (proj1 (proj2 (proj2
           (user_sees_only_own_incidents
              (Request Sample.stranger "1" ∅ ∅ "2024-02-01T10:00:00.000Z")
              Sample.state eq_refl)))
         1%positive Sample.alert).
  - reflexivity.
  - reflexivity.
  - intros H. vm_compute in H. discriminate H.
Defined.

(** ** The owner of an incident *)

Lemma strip_immutable_lookup (updates : obj) c :
  c ∈ Crash.immutable_fields → Crash.strip_immutable updates !! c = None.
Proof.
  intros Hc. unfold Crash.strip_immutable, Crash.immutable_fields in *.
  cbn [foldl].
  repeat (apply elem_of_cons in Hc as [-> | Hc]);
    [.. | by apply elem_of_nil in Hc];
    repeat first [apply lookup_delete_eq | rewrite lookup_delete_ne by done].
Qed.

(** The crash routes never change the owner: [user_id] is stripped from the
    body before the update. *)
Lemma crash_put_keeps_reporter req w k r r' :
  from w "crash_events" !! k = Some r →
  from (snd (Crash.put_by_id req w)) "crash_events" !! k = Some r' →
  r'.["user_id"] = r.["user_id"].
Proof.
  intros Hr Hr'.
  unfold Crash.put_by_id, handle, Crash.put_by_id_try in Hr'.
  unfold mbind, js_bind, select_single in Hr'.
  destruct (find_row (from w "crash_events") (JStr (params_id req)))
    as [[k0 r0]|] eqn:Hrow; cbn [error data] in Hr'.
  2: { cbn in Hr'. congruence. }
  destruct (String.eqb (role (user req)) "user" && _); cbn [snd fst mret js_ret] in Hr'.
  { congruence. }
  apply find_row_Some in Hrow as [Hk0 Hr0].
  unfold update_single in Hr'.
  rewrite (update_eq_id_hit _ _ _ _ _ Hk0 Hr0
             (strip_immutable_lookup _ "id" ltac:(in_list))) in Hr'.
  cbn [single_reply error data updated_world] in Hr'.
  assert (Hfrom : from (snd (mret (M := js)
                    (json (PNamed "Crash event updated" "event"
                       (Some (with_id k0 (delete "id"
                          (Crash.strip_immutable (req_body req) ∪ r0))))))
                    (set_table "crash_events"
                       (<[k0 := delete "id" (Crash.strip_immutable (req_body req) ∪ r0)]>
                          (from w "crash_events"))
                       (log_call (Update "crash_events" (JStr (params_id req))
                                    (Crash.strip_immutable (req_body req))) w))))
                 "crash_events"
                 = <[k0 := delete "id" (Crash.strip_immutable (req_body req) ∪ r0)]>
                     (from w "crash_events")).
  { cbn [mret js_ret snd]. apply from_set_table_eq. }
  cbn [mret js_ret snd fst] in Hr', Hfrom. rewrite Hfrom in Hr'.
  rewrite lookup_insert in Hr'. case_decide.
  - subst k0. injection Hr' as <-. rewrite prop_delete_ne by done.
    rewrite prop_union_r by (apply strip_immutable_lookup; in_list).
    congruence.
  - congruence.
Qed.

(** C5 on the code: a dispatcher sends [PUT /1] with body [{ user_id: 6 }]
    for the sample alert, which user 5 reported.  The route answers 200 and
    the alert now belongs to user 6. *)
Theorem alert_put_overwrites_reporter :
  let req := Request Sample.dispatcher "1" ∅ (object [("user_id", JKey 6)])
               "2024-02-01T10:00:00.000Z" in
  let out := Alerts.put_by_id req Sample.state in
  (r ← from Sample.state "alerts" !! 1%positive; Some r.["user_id"]) = Some (JKey 5) ∧
  code (fst out) = 200%Z ∧
  (r ← from (snd out) "alerts" !! 1%positive; Some r.["user_id"]) = Some (JKey 6).
Proof. split; [| split]; vm_compute; reflexivity. Qed.

(** * Further properties of the routes *)

(** ** What a route answers, and when it has written *)

Lemma respects_any {A} (m : js A) : respects any_change m.
Proof. by intros w. Qed.

Lemma post_bind_never S {A} (m : js A) (k : A → js response) :
  (∀ a, post (never_code S) (k a)) → post (never_code S) (m ≫= k).
Proof.
  intros Hk. apply (post_bind any_change); [by intros | apply respects_any | done].
Qed.

(** After a write, the state is excused only if no code of [S] follows. *)
Lemma quiet_after_write S {A} (m : js A) (k : A → js response) :
  (∀ a, post (never_code S) (k a)) → post (quiet_on S) (m ≫= k).
Proof.
  intros Hk w r w' H Hin. exfalso.
  by apply (post_bind_never S m k Hk w r w' H).
Qed.

(** Before any write, the state is the one the route started from. *)
Lemma quiet_bind_pure S {A} (m : js A) (k : A → js response) :
  respects eq m → (∀ a, post (quiet_on S) (k a)) → post (quiet_on S) (m ≫= k).
Proof. apply (post_bind eq). by intros w w1 r w' <-. Qed.

(** A number is not in a list of other numbers that is written out. *)
Ltac not_in_list :=
  let H := fresh in
  intros H; repeat (apply elem_of_cons in H as [H | H]; [discriminate H |]);
  by apply elem_of_nil in H.

Ltac never_walk :=
  repeat match goal with
    | |- post (never_code _) (mret _) =>
        apply post_ret; intros ?; unfold never_code; cbn; not_in_list
    | |- post _ (throw _) => apply post_throw
    | |- post (never_code _) (_ ≫= _) => apply post_bind_never; intros ?
    | |- post _ (if ?c then _ else _) => destruct c
    | |- post _ (match ?x with _ => _ end) => destruct x
    end.

Ltac quiet_walk :=
  repeat match goal with
    | |- post (quiet_on _) (mret _) => apply post_ret; by intros ? _
    | |- post _ (throw _) => apply post_throw
    | |- post (quiet_on _) (_ ≫= _) =>
        first [ apply quiet_bind_pure; [solve [frame_walk] | intros ?]
              | apply quiet_after_write; intros ?; solve [never_walk] ]
    | |- post _ (if ?c then _ else _) => destruct c
    | |- post _ (match ?x with _ => _ end) => destruct x
    end.

Lemma quiet_handle S fb body w :
  (500 ∉ S)%Z → post (quiet_on S) body →
  code (fst (handle fb body w)) ∈ S → snd (handle fb body w) = w.
Proof.
  intros H500 Hbody. apply (post_handle (quiet_on S)); [done |].
  intros w0 m w' Hin. by destruct H500.
Qed.

Lemma alert_routes_quiet req :
  post (quiet_on [400; 403]%Z) (Alerts.create_try req) ∧
  post (quiet_on [400; 403]%Z) (Alerts.put_by_id_try req) ∧
  post (quiet_on [400; 403]%Z) (Alerts.patch_status_try req) ∧
  post (quiet_on [400; 403]%Z) (Alerts.patch_assign_try req) ∧
  post (quiet_on [400; 403]%Z) (Alerts.delete_by_id_try req).
Proof.
  repeat split.
  - unfold Alerts.create_try. quiet_walk.
  - unfold Alerts.put_by_id_try. quiet_walk.
  - unfold Alerts.patch_status_try. quiet_walk.
  - unfold Alerts.patch_assign_try. quiet_walk.
  - unfold Alerts.delete_by_id_try. quiet_walk.
Qed.

(** X1: when an alert route that writes (create, full update, status,
    assign, delete) answers 400 or 403, nothing has happened: the tables,
    the store calls issued, the broadcasts and the socket holder are those
    the request found. *)
Theorem refused_alert_request_writes_nothing req w route :
  route ∈ [Alerts.create; Alerts.put_by_id; Alerts.patch_status;
           Alerts.patch_assign; Alerts.delete_by_id] →
  code (fst (route req w)) ∈ [400; 403]%Z →
  snd (route req w) = w.
Proof.
  intros Hroute.
  destruct (alert_routes_quiet req) as (H1 & H2 & H3 & H4 & H5).
  repeat (apply elem_of_cons in Hroute as [-> | Hroute]);
    [.. | by apply elem_of_nil in Hroute];
    (apply quiet_handle; [not_in_list | assumption]).
Qed.

Lemma refused_alert_request_writes_nothing_witness :
  snd (Alerts.delete_by_id (Request Sample.dispatcher "1" ∅ ∅ "2024-02-01T10:00:00.000Z")
         Sample.state)
  = Sample.state.
Proof.
  apply (refused_alert_request_writes_nothing
           (Request Sample.dispatcher "1" ∅ ∅ "2024-02-01T10:00:00.000Z")
           Sample.state Alerts.delete_by_id).
  - in_list.
  - vm_compute. in_list.
Defined.

(** ** Broadcasts *)

#[global] Instance same_emitted_preorder : PreOrder same_emitted.
Proof. split; [by intros w | intros w1 w2 w3; unfold same_emitted; congruence]. Qed.

Lemma same_emitted_update_single n v p : respects same_emitted (update_single n v p).
Proof. intros w. unfold update_single. by destruct (update_eq_id _ _ _). Qed.

Lemma same_emitted_update_where n v p : respects same_emitted (update_where n v p).
Proof. intros w. unfold update_where. by destruct (update_eq_id _ _ _). Qed.

Lemma same_emitted_delete_where n v : respects same_emitted (delete_where n v).
Proof.
  intros w. unfold delete_where, same_emitted. cbn [snd].
  by destruct (find_row _ _) as [[] |].
Qed.

Lemma same_emitted_insert_single n t r : respects same_emitted (insert_single n t r).
Proof. by intros w. Qed.

Lemma same_emitted_await_rows q : respects same_emitted (await_rows q).
Proof. by intros w. Qed.

#[export] Hint Resolve same_emitted_update_single same_emitted_update_where
  same_emitted_delete_where same_emitted_insert_single same_emitted_await_rows : frame.

Lemma one_event_stable ev w w1 r w' :
  same_emitted w w1 → one_event ev w1 r w' → one_event ev w r w'.
Proof. unfold same_emitted, one_event. intros <-. done. Qed.

(** The tail of the routes: fetch the socket, emit, answer. *)
Lemma one_event_tail ev p ok :
  post (one_event ev) (sock ← SocketInstance.getIO; emit sock ev p;; mret ok).
Proof.
  intros w r w' H _. unfold mbind, js_bind, SocketInstance.getIO, emit in H.
  destruct (negb (truthy (io w))); [discriminate |].
  destruct (io w); try discriminate. injection H as <- <-. by exists p.
Qed.

Ltac event_walk :=
  repeat match goal with
    | |- post (one_event _) (SocketInstance.getIO ≫= _) => apply one_event_tail
    | |- post (one_event _) (mret _) =>
        apply post_ret; intros ?; unfold one_event; cbn; intros ?; exfalso;
        revert select (_ ∈ _); not_in_list
    | |- post _ (throw _) => apply post_throw
    | |- post (one_event ?ev) (_ ≫= _) =>
        apply (post_bind same_emitted (one_event ev) (one_event_stable ev));
        [solve [frame_walk] | intros ?]
    | |- post _ (if ?c then _ else _) => destruct c
    | |- post _ (match ?x with _ => _ end) => destruct x
    end.

Lemma alert_routes_one_event req :
  post (one_event "alert:new") (Alerts.create_try req) ∧
  post (one_event "alert:updated") (Alerts.put_by_id_try req) ∧
  post (one_event "alert:status_updated") (Alerts.patch_status_try req) ∧
  post (one_event "alert:assigned") (Alerts.patch_assign_try req) ∧
  post (one_event "alert:deleted") (Alerts.delete_by_id_try req).
Proof.
  repeat split.
  - unfold Alerts.create_try. event_walk.
  - unfold Alerts.put_by_id_try. event_walk.
  - unfold Alerts.patch_status_try. event_walk.
  - unfold Alerts.patch_assign_try. event_walk.
  - unfold Alerts.delete_by_id_try. event_walk.
Qed.

(** X2: an alert route that answers 200 or 201 has broadcast exactly one
    event, named after the route: [alert:new], [alert:updated],
    [alert:status_updated], [alert:assigned] or [alert:deleted]. *)
Theorem alert_success_broadcasts_once req w route ev :
  (route, ev) ∈ [(Alerts.create, "alert:new");
                 (Alerts.put_by_id, "alert:updated");
                 (Alerts.patch_status, "alert:status_updated");
                 (Alerts.patch_assign, "alert:assigned");
                 (Alerts.delete_by_id, "alert:deleted")] →
  code (fst (route req w)) ∈ [200; 201]%Z →
  ∃ p, emitted (snd (route req w)) = (emitted w ++ [(ev, p)])%list.
Proof.
  intros Hroute.
  destruct (alert_routes_one_event req) as (H1 & H2 & H3 & H4 & H5).
  repeat (apply elem_of_cons in Hroute as [[= -> ->] | Hroute]);
    [.. | by apply elem_of_nil in Hroute];
    (apply (post_handle (one_event _)); [assumption |]);
    intros w0 m w' Hin; exfalso; revert Hin; cbn; not_in_list.
Qed.

Lemma alert_success_broadcasts_once_witness :
  ∃ p, emitted (snd (Alerts.patch_status
                       (Sample.set_status Sample.rescuer "1" "responding"
                          "2024-02-01T10:00:00.000Z")
                       Sample.state))
       = (emitted Sample.state ++ [("alert:status_updated", p)])%list.
Proof.
  apply (alert_success_broadcasts_once
           (Sample.set_status Sample.rescuer "1" "responding" "2024-02-01T10:00:00.000Z")
           Sample.state Alerts.patch_status "alert:status_updated").
  - in_list.
  - vm_compute. in_list.
Defined.

(** X3: the crash and SOS routes never broadcast: whatever they answer, the
    list of emitted events is the one they found.  (They do not read the
    socket holder either, so they work before [setIO].) *)
Theorem crash_and_sos_routes_never_broadcast req w :
  emitted (snd (Crash.create req w)) = emitted w ∧
  emitted (snd (Crash.put_by_id req w)) = emitted w ∧
  emitted (snd (Crash.patch_by_id req w)) = emitted w ∧
  emitted (snd (Crash.delete_by_id req w)) = emitted w ∧
  emitted (snd (Sos.create req w)) = emitted w.
Proof.
  unfold Crash.create, Crash.put_by_id, Crash.patch_by_id, Crash.delete_by_id, Sos.create.
  repeat split; apply (respects_handle same_emitted).
  - unfold Crash.create_try. frame_walk.
  - unfold Crash.put_by_id_try. frame_walk.
  - unfold Crash.put_by_id_try. frame_walk.
  - unfold Crash.delete_by_id_try. frame_walk.
  - unfold Sos.create_try. frame_walk.
Qed.

(** ** Creation, in detail *)

#[global] Instance adds_only_preorder n Q : PreOrder (adds_only n Q).
Proof.
  split.
  - intros w. split; [done |]. intros k r H1 H2. congruence.
  - intros w1 w2 w3 [K12 N12] [K23 N23]. split.
    + intros k r H. by apply K23, K12.
    + intros k r H3 H1. destruct (from w2 n !! k) as [r2|] eqn:H2.
      * pose proof (K23 _ _ H2) as H3'. rewrite H3 in H3'. injection H3' as ->.
        by apply (N12 k).
      * by apply (N23 k).
Qed.

Lemma adds_only_emit n Q sock ev p : respects (adds_only n Q) (emit sock ev p).
Proof.
  intros w. destruct sock; cbn [emit snd]; try reflexivity.
  split; [done |]. intros k r H1 H2. unfold from in *. cbn [db] in *. congruence.
Qed.

Lemma adds_only_insert n (Q : obj → Prop) n' nw (data : obj) :
  Q (delete "id" (data ∪ column_defaults n' nw)) →
  respects (adds_only n Q) (insert_single n' nw data).
Proof.
  intros HQ w. unfold insert_single. cbn [snd].
  destruct (decide (n' = n)) as [-> | Hn].
  - split; intros k r; rewrite from_set_table_eq.
    + intros Hk. rewrite lookup_insert_ne; [done |].
      intros <-. apply (is_fresh (dom (from w n))).
      apply elem_of_dom. eauto.
    + intros Hk Hnone. rewrite lookup_insert in Hk. case_decide.
      * by injection Hk as <-.
      * change (from (log_call ?c w) n) with (from w n) in Hk. congruence.
  - split; intros k r; rewrite from_set_table_ne by done; [done |].
    change (from (log_call ?c w) n) with (from w n). congruence.
Qed.

#[export] Hint Resolve adds_only_emit : frame.

Lemma create_routes_add_own_rows req w :
  let own r := r.["user_id"] = JKey (id (user req)) in
  adds_only "alerts" own w (snd (Alerts.create req w)) ∧
  adds_only "crash_events" own w (snd (Crash.create req w)) ∧
  adds_only "sos_requests" own w (snd (Sos.create req w)).
Proof.
  intros own. unfold Alerts.create, Crash.create, Sos.create.
  split; [| split]; apply (respects_handle (adds_only _ own)).
  - unfold Alerts.create_try. frame_walk.
    apply adds_only_insert. unfold own.
    rewrite prop_delete_ne by done. by apply prop_union_l.
  - unfold Crash.create_try. frame_walk.
    apply adds_only_insert. unfold own.
    rewrite prop_delete_ne by done. by apply prop_union_l.
  - unfold Sos.create_try. frame_walk.
    apply adds_only_insert. unfold own.
    rewrite prop_delete_ne by done. by apply prop_union_l.
Qed.

(** X4: the owner of a created incident is the authenticated caller: every
    row an alert, crash or SOS create route adds carries the caller's id as
    [user_id], whatever the body says (a [user_id] in the body is ignored),
    and the rows that were there stay as they were. *)
Theorem created_incident_belongs_to_caller req w k r :
  (from (snd (Alerts.create req w)) "alerts" !! k = Some r →
   from w "alerts" !! k = None → r.["user_id"] = JKey (id (user req))) ∧
  (from (snd (Crash.create req w)) "crash_events" !! k = Some r →
   from w "crash_events" !! k = None → r.["user_id"] = JKey (id (user req))) ∧
  (from (snd (Sos.create req w)) "sos_requests" !! k = Some r →
   from w "sos_requests" !! k = None → r.["user_id"] = JKey (id (user req))) ∧
  (from w "alerts" !! k = Some r →
   from (snd (Alerts.create req w)) "alerts" !! k = Some r) ∧
  (from w "crash_events" !! k = Some r →
   from (snd (Crash.create req w)) "crash_events" !! k = Some r) ∧
  (from w "sos_requests" !! k = Some r →
   from (snd (Sos.create req w)) "sos_requests" !! k = Some r).
Proof.
  destruct (create_routes_add_own_rows req w) as ([Ka Ha] & [Kc Hc] & [Ks Hs]).
  repeat split; eauto.
Qed.

Lemma created_incident_belongs_to_caller_witness :
  let body := object [("latitude", JNum 14.5); ("longitude", JNum 121);
                      ("user_id", JKey 6)] in
  let req := Request Sample.reporter "" ∅ body "2024-02-01T10:00:00.000Z" in
  ∃ r, from (snd (Crash.create req Sample.state)) "crash_events" !! 1%positive = Some r ∧
       r.["user_id"] = JKey 5.
Proof.
  intros body req.
  assert (Hrow : match from (snd (Crash.create req Sample.state)) "crash_events"
                       !! 1%positive
                 with Some _ => true | None => false end = true)
    by (vm_compute; reflexivity).
  destruct (from (snd (Crash.create req Sample.state)) "crash_events" !! 1%positive)
    as [r|] eqn:E; [| discriminate Hrow].
  exists r. split; [reflexivity |].
  apply (proj1 (proj2 (created_incident_belongs_to_caller req Sample.state 1%positive r))).
  - exact E.
  - reflexivity.
Defined.

Lemma alert_create_rest_never_400 req title :
  post (never_code [400]%Z)
    (title' ← call_trim "title.trim" title;
     description' ← call_trim_opt "description?.trim" (req_body req).["description"];
     location' ← call_trim "location.trim" (req_body req).["location"];
     r ← insert_single "alerts" (now req)
           (alert_data (user req) (req_body req) title' description' location');
     match error r with
     | Some e => throw e
     | None =>
         sock ← SocketInstance.getIO;
         emit sock "alert:new" (PData (data r));;
         mret (Response 201 (PData (data r)))
     end).
Proof. never_walk. Qed.

(** X5: the alert create route answers 400 exactly when a required field
    ([alert_type], [severity], [title], [location]) is missing or falsy, or
    the alert type or the severity is not one of the listed values; in that
    case nothing is written. *)
Theorem alert_create_rejects_exactly_bad_bodies req w :
  (code (fst (Alerts.create req w)) = 400%Z
   ↔ alert_body_rejected (req_body req) = true) ∧
  (alert_body_rejected (req_body req) = true → snd (Alerts.create req w) = w).
Proof.
  unfold alert_body_rejected, Alerts.create, Alerts.create_try.
  set (b := req_body req).
  destruct (negb (truthy b.["alert_type"]) || negb (truthy b.["severity"])
            || negb (truthy b.["title"]) || negb (truthy b.["location"])) eqn:G1.
  { by cbn. }
  destruct (negb (includes Alerts.validAlertTypes b.["alert_type"])) eqn:G2.
  { by cbn. }
  destruct (negb (includes Alerts.validSeverities b.["severity"])) eqn:G3.
  { by cbn. }
  cbn [orb]. split; [| discriminate]. split; [| discriminate].
  intros H. exfalso.
  apply (post_handle (never_code [400]%Z) (Some "Server error")
           _ w (alert_create_rest_never_400 req b.["title"])).
  - intros w0 m w'. unfold never_code. cbn. not_in_list.
  - unfold b in *. fold (alert_data (user req) (req_body req)) in H.
    unfold alert_data. rewrite H. in_list.
Qed.

Lemma alert_create_rejects_exactly_bad_bodies_witness :
  let body := object [("alert_type", JStr "fire"); ("severity", JStr "urgent");
                      ("title", JStr "Smoke"); ("location", JStr "Main street")] in
  let req := Request Sample.reporter "" ∅ body "2024-02-01T10:00:00.000Z" in
  snd (Alerts.create req Sample.state) = Sample.state.
Proof.
  intros body req.
  apply (proj2 (alert_create_rejects_exactly_bad_bodies req Sample.state)).
  reflexivity.
Defined.

(** X6: an alert whose required fields are text and pass the checks, whose
    description is absent or text, sent while the socket is initialised, is
    answered 201 with the row as stored under a key that was free; the row
    carries the caller's id, the trimmed title and location, the type and
    severity as sent and status [pending], and the one broadcast
    [alert:new] carries the same row. *)
Theorem alert_create_stores_trimmed_row req w t l h :
  alert_body_rejected (req_body req) = false →
  (req_body req).["title"] = JStr t →
  (req_body req).["location"] = JStr l →
  (nullish (req_body req).["description"] = true ∨
   ∃ d, (req_body req).["description"] = JStr d) →
  io w = JRef h →
  let k := fresh (dom (from w "alerts")) in
  let w' := snd (Alerts.create req w) in
  ∃ r,
    fst (Alerts.create req w) = Response 201 (PData (Some (with_id k r))) ∧
    from w "alerts" !! k = None ∧
    from w' "alerts" = <[k := r]> (from w "alerts") ∧
    emitted w' = (emitted w ++ [("alert:new", PData (Some (with_id k r)))])%list ∧
    r.["user_id"] = JKey (id (user req)) ∧
    r.["title"] = JStr (trim t) ∧
    r.["location"] = JStr (trim l) ∧
    r.["alert_type"] = (req_body req).["alert_type"] ∧
    r.["severity"] = (req_body req).["severity"] ∧
    r.["status"] = JStr "pending".
Proof.
  intros Hok Ht Hl Hd Hio k w'. subst w'.
  unfold alert_body_rejected in Hok.
  apply orb_false_iff in Hok as [Hok G3]. apply orb_false_iff in Hok as [G1 G2].
  unfold Alerts.create, Alerts.create_try.
  rewrite G1, G2, G3, Ht, Hl.
  assert (Hdesc : ∃ d', ∀ w0, call_trim_opt "description?.trim"
                                (req_body req).["description"] w0 = (Val d', w0)).
  { destruct Hd as [Hn | [d ->]].
    - exists JUndefined. intros w0. unfold call_trim_opt. by rewrite Hn.
    - by exists (JStr (trim d)). }
  destruct Hdesc as [d' Hdesc].
  unfold handle.
  erewrite bind_val by reflexivity.
  erewrite bind_val by apply Hdesc.
  erewrite bind_val by reflexivity.
  erewrite bind_val by reflexivity.
  cbn [error data].
  match goal with
  | |- context [(SocketInstance.getIO ≫= ?f) ?w1] =>
      change (match (SocketInstance.getIO ≫= f) w1 with
              | (Val r, w') => (r, w')
              | (Throw e, w') =>
                  (status_message 500
                     (from_option (message_or e) e (Some "Server error")), w')
              end)
        with (broadcast "alert:new"
                (PData (Some (with_id k
                   (delete "id"
                      (alert_data (user req) (req_body req) (JStr (trim t)) d'
                         (JStr (trim l))
                       ∪ column_defaults "alerts" (now req))))))
                (Response 201
                   (PData (Some (with_id k
                      (delete "id"
                         (alert_data (user req) (req_body req) (JStr (trim t)) d'
                            (JStr (trim l))
                          ∪ column_defaults "alerts" (now req)))))))
                w1)
  end.
  erewrite broadcast_ready by exact Hio.
  eexists. split; [reflexivity |].
  split. { apply not_elem_of_dom. apply is_fresh. }
  split. { cbn [snd]. unfold from at 1. cbn [db set_table log_call].
           by rewrite lookup_insert_eq. }
  split; [reflexivity |].
  rewrite !prop_delete_ne by done.
  repeat split; by apply prop_union_l.
Qed.

Lemma alert_create_stores_trimmed_row_witness :
  let nbsp := String (ascii_of_N 194) (String (ascii_of_N 160) EmptyString) in
  let body := object [("alert_type", JStr "fire"); ("severity", JStr "high");
                      ("title", JStr (nbsp ++ " Smoke "));
                      ("location", JStr "Main street ")] in
  let req := Request Sample.reporter "" ∅ body "2024-02-01T10:00:00.000Z" in
  ∃ r, fst (Alerts.create req Sample.state)
       = Response 201 (PData (Some (with_id 3 r))) ∧
       r.["title"] = JStr "Smoke".
Proof.
  intros nbsp body req.
  destruct (alert_create_stores_trimmed_row req Sample.state (nbsp ++ " Smoke ")
              "Main street " 0%nat)
    as (r & Hans & _ & _ & _ & _ & Htitle & _); try reflexivity.
  { left. reflexivity. }
  exists r. split; [exact Hans | exact Htitle].
Defined.

(** X7: the SOS route stores only coordinates on the globe: every row it
    adds has a numeric latitude in [-90, 90] and a numeric longitude in
    [-180, 180], whatever the body. *)
Theorem sos_rows_have_valid_coordinates req w k r :
  from (snd (Sos.create req w)) "sos_requests" !! k = Some r →
  from w "sos_requests" !! k = None →
  coordinates_in_range r.
Proof.
  revert k r.
  assert (H : adds_only "sos_requests" coordinates_in_range w (snd (Sos.create req w))).
  2: { destruct H as [_ H]. exact H. }
  unfold Sos.create. apply (respects_handle (adds_only _ _)).
  unfold Sos.create_try.
  destruct (negb (truthy (req_body req).["type"]) || _ || _) eqn:G1; [frame_walk |].
  destruct (negb (is_number (req_body req).["latitude"]) || _ || _ || _ || _ || _) eqn:G2;
    [frame_walk |].
  frame_walk. apply adds_only_insert.
  destruct (req_body req).["latitude"] as [| | |la| |] eqn:Hla; try discriminate G2.
  destruct (req_body req).["longitude"] as [| | |lo| |] eqn:Hlo;
    cbn in G2; rewrite ?orb_true_r in G2; try discriminate G2.
  rewrite !orb_false_iff, !negb_false_iff, !Qle_bool_iff in G2.
  destruct_and!.
  exists la, lo. rewrite !prop_delete_ne by done.
  repeat split; try (by apply prop_union_l); assumption.
Qed.

Lemma sos_rows_have_valid_coordinates_witness :
  let body := object [("type", JStr "medical"); ("latitude", JNum 14.5547);
                      ("longitude", JNum 121.0244)] in
  let req := Request Sample.reporter "" ∅ body "2024-02-01T10:00:00.000Z" in
  ∃ r, from (snd (Sos.create req Sample.state)) "sos_requests" !! 1%positive = Some r ∧
       coordinates_in_range r.
Proof.
  intros body req.
  assert (Hrow : match from (snd (Sos.create req Sample.state)) "sos_requests"
                       !! 1%positive
                 with Some _ => true | None => false end = true)
    by (vm_compute; reflexivity).
  destruct (from (snd (Sos.create req Sample.state)) "sos_requests" !! 1%positive)
    as [r|] eqn:E; [| discriminate Hrow].
  exists r. split; [reflexivity |].
  apply (sos_rows_have_valid_coordinates req Sample.state 1%positive r).
  - exact E.
  - reflexivity.
Defined.

(** X8: the crash route checks no range and keeps no zero: numeric
    coordinates other than 0 are accepted as they are, on the globe or not,
    and stored with the caller's id, type [AUTO_CRASH], status [pending] and
    the time of the request; an [impact_force] or [device_battery] of 0 is
    stored as [null]. *)
Theorem crash_create_stores_event req w la lo :
  (req_body req).["latitude"] = JNum la → ¬ (la == 0)%Q →
  (req_body req).["longitude"] = JNum lo → ¬ (lo == 0)%Q →
  let k := fresh (dom (from w "crash_events")) in
  let w' := snd (Crash.create req w) in
  ∃ r,
    fst (Crash.create req w)
    = Response 201 (PNamed "Crash event recorded" "event" (Some (with_id k r))) ∧
    from w "crash_events" !! k = None ∧
    from w' "crash_events" = <[k := r]> (from w "crash_events") ∧
    r.["latitude"] = JNum la ∧ r.["longitude"] = JNum lo ∧
    r.["user_id"] = JKey (id (user req)) ∧
    r.["event_type"] = JStr "AUTO_CRASH" ∧
    r.["status"] = JStr "pending" ∧
    r.["triggered_at"] = JStr (now req) ∧
    ((req_body req).["impact_force"] = JInt 0 → r.["impact_force"] = JNull) ∧
    ((req_body req).["device_battery"] = JInt 0 → r.["device_battery"] = JNull).
Proof.
  intros Hla Hla0 Hlo Hlo0 k w'. subst w'.
  unfold Crash.create, Crash.create_try, handle.
  rewrite Hla, Hlo. cbn [truthy].
  assert (Ela : Qeq_bool la 0 = false).
  { destruct (Qeq_bool la 0) eqn:E; [| done]. by apply Qeq_bool_iff in E. }
  assert (Elo : Qeq_bool lo 0 = false).
  { destruct (Qeq_bool lo 0) eqn:E; [| done]. by apply Qeq_bool_iff in E. }
  rewrite Ela, Elo. cbn [negb orb].
  erewrite bind_val by reflexivity. cbn [error data fst snd mret js_ret].
  eexists. split; [reflexivity |].
  split. { apply not_elem_of_dom. apply is_fresh. }
  split. { unfold from at 1. cbn [db set_table log_call]. by rewrite lookup_insert_eq. }
  rewrite !prop_delete_ne by done.
  repeat split; try (by apply prop_union_l).
  - intros H0. apply prop_union_l. by rewrite H0.
  - intros H0. apply prop_union_l. by rewrite H0.
Qed.

Lemma crash_create_stores_event_witness :
  let body := object [("latitude", JNum 1000); ("longitude", JNum (-500));
                      ("device_battery", JInt 0)] in
  let req := Request Sample.reporter "" ∅ body "2024-02-01T10:00:00.000Z" in
  ∃ r, fst (Crash.create req Sample.state)
       = Response 201 (PNamed "Crash event recorded" "event" (Some (with_id 1 r))) ∧
       r.["latitude"] = JNum 1000 ∧ r.["device_battery"] = JNull.
Proof.
  intros body req.
  destruct (crash_create_stores_event req Sample.state 1000 (-500))
    as (r & Hans & _ & _ & Hlat & _ & _ & _ & _ & _ & _ & Hbat);
    try reflexivity; try (intros H; discriminate H).
  exists r. split; [exact Hans |]. split; [exact Hlat |].
  apply Hbat. reflexivity.
Defined.

(** ** Crash events: update and delete *)

Lemma strip_immutable_lookup_other (updates : obj) c :
  c ∉ Crash.immutable_fields → Crash.strip_immutable updates !! c = updates !! c.
Proof.
  intros Hc. unfold Crash.strip_immutable, Crash.immutable_fields in *.
  cbn [foldl].
  rewrite !lookup_delete_ne; [done | ..]; intros <-; apply Hc; in_list.
Qed.

Lemma crash_owner_cell req w k r :
  key_of_string (params_id req) = Some k →
  from w "crash_events" !! k = Some r →
  select_single "crash_events" (Some ["user_id"]) (JStr (params_id req)) w
  = (Val (Reply (Some (project (Some ["user_id"]) (with_id k r))) None), w) ∧
  (project (Some ["user_id"]) (with_id k r)).["user_id"] = r.["user_id"].
Proof.
  intros Hk Hr. split; [by apply select_single_hit |].
  rewrite prop_project by in_list. by rewrite prop_with_id_ne.
Qed.

(** X9: a crash event is updated for its owner and for every caller whose
    role is not [user]: the columns of the body are stored as sent (the
    status too, which this route neither validates nor restricts to a
    role), except [user_id], [event_type], [created_at], [updated_at] and
    [triggered_at], which keep their values whatever the body says; columns
    the body does not name are kept. *)
Theorem crash_update_keeps_immutables req w k r :
  key_of_string (params_id req) = Some k →
  from w "crash_events" !! k = Some r →
  role (user req) ≠ "user" ∨ strict_eq r.["user_id"] (JKey (id (user req))) = true →
  ∃ r',
    Crash.put_by_id req w
    = (json (PNamed "Crash event updated" "event" (Some (with_id k r'))),
       set_table "crash_events" (<[k := r']> (from w "crash_events"))
         (log_call (Update "crash_events" (JStr (params_id req))
                      (Crash.strip_immutable (req_body req))) w)) ∧
    Crash.patch_by_id req w = Crash.put_by_id req w ∧
    (∀ c, c ∈ Crash.immutable_fields → c ≠ "id" → r'.[c] = r.[c]) ∧
    (∀ c v, c ∉ Crash.immutable_fields → req_body req !! c = Some v → r'.[c] = v) ∧
    (∀ c, c ∉ Crash.immutable_fields → req_body req !! c = None → r'.[c] = r.[c]).
Proof.
  intros Hk Hr Hallowed.
  destruct (crash_owner_cell req w k r Hk Hr) as [Hsel Hcell].
  exists (delete "id" (Crash.strip_immutable (req_body req) ∪ r)).
  split; [| split; [reflexivity |]].
  - unfold Crash.put_by_id, Crash.put_by_id_try, handle.
    erewrite bind_val by exact Hsel. cbn [error data]. rewrite Hcell.
    assert (Hgate : String.eqb (role (user req)) "user"
                    && negb (strict_eq r.["user_id"] (JKey (id (user req)))) = false).
    { destruct Hallowed as [Hrole | ->]; [| by rewrite andb_false_r].
      apply String.eqb_neq in Hrole. by rewrite Hrole. }
    rewrite Hgate.
    erewrite bind_val; last first.
    { apply update_single_hit; [exact Hk | exact Hr |].
      apply strip_immutable_lookup. in_list. }
    reflexivity.
  - repeat split.
    + intros c Hc Hid. rewrite prop_delete_ne by done.
      apply prop_union_r. by apply strip_immutable_lookup.
    + intros c v Hc Hv.
      assert (c ≠ "id") by (intros ->; apply Hc; in_list).
      rewrite prop_delete_ne by done.
      apply prop_union_l. by rewrite strip_immutable_lookup_other.
    + intros c Hc Hnone.
      assert (c ≠ "id") by (intros ->; apply Hc; in_list).
      rewrite prop_delete_ne by done.
      apply prop_union_r. by rewrite strip_immutable_lookup_other.
Qed.

Lemma crash_update_keeps_immutables_witness :
  let req := Sample2.on Sample.reporter "1"
               (object [("status", JStr "resolved"); ("user_id", JKey 6)]) in
  ∃ r', fst (Crash.put_by_id req Sample2.state)
        = json (PNamed "Crash event updated" "event" (Some (with_id 1 r'))) ∧
        r'.["user_id"] = JKey 5 ∧ r'.["status"] = JStr "resolved".
Proof.
  intros req.
  destruct (crash_update_keeps_immutables req Sample2.state 1%positive Sample2.crash)
    as (r' & Hans & _ & Hkeep & Hset & _); try reflexivity.
  { right. reflexivity. }
  exists r'. split; [by rewrite Hans |]. split.
  - apply Hkeep; [in_list | done].
  - apply Hset; [| reflexivity].
    unfold Crash.immutable_fields. not_in_list.
Defined.

(** X10: the crash update and delete routes turn others away before
    writing: for a row that does not exist they answer 404, and for a caller
    with role [user] who is not the owner of the row they answer 403; in
    both cases the state is left as it was. *)
Theorem crash_routes_refuse_without_writing req w :
  (find_row (from w "crash_events") (JStr (params_id req)) = None →
   Crash.put_by_id req w = (status_message 404 "Crash event not found", w) ∧
   Crash.delete_by_id req w = (status_message 404 "Crash event not found", w)) ∧
  (∀ k r,
     role (user req) = "user" →
     key_of_string (params_id req) = Some k →
     from w "crash_events" !! k = Some r →
     as_key r.["user_id"] ≠ Some (id (user req)) →
     Crash.put_by_id req w
     = (status_message 403 "You do not have permission to update this event", w) ∧
     Crash.delete_by_id req w
     = (status_message 403 "You do not have permission to delete this event", w)).
Proof.
  split.
  - intros Hmiss. split; [by apply crash_put_absent_answers_404 |].
    unfold Crash.delete_by_id, handle, Crash.delete_by_id_try.
    unfold mbind, js_bind, select_single. by rewrite Hmiss.
  - intros k r Hrole Hk Hr Hother.
    destruct (crash_owner_cell req w k r Hk Hr) as [Hsel Hcell].
    assert (Hne : strict_eq r.["user_id"] (JKey (id (user req))) = false).
    { destruct (strict_eq _ _) eqn:E; [| done].
      by apply strict_eq_JKey_as_key in E. }
    split.
    + unfold Crash.put_by_id, Crash.put_by_id_try, handle.
      erewrite bind_val by exact Hsel. cbn [error data].
      by rewrite Hcell, Hrole, Hne.
    + unfold Crash.delete_by_id, Crash.delete_by_id_try, handle.
      erewrite bind_val by exact Hsel. cbn [error data].
      by rewrite Hcell, Hrole, Hne.
Qed.

Lemma crash_routes_refuse_without_writing_witness :
  Crash.delete_by_id (Sample2.on Sample.stranger "1" ∅) Sample2.state
  = (status_message 403 "You do not have permission to delete this event", Sample2.state) ∧
  Crash.put_by_id (Sample2.on Sample.reporter "7" ∅) Sample2.state
  = (status_message 404 "Crash event not found", Sample2.state).
Proof.
  split.
  - apply (proj2 (crash_routes_refuse_without_writing
                    (Sample2.on Sample.stranger "1" ∅) Sample2.state)
             1%positive Sample2.crash); try reflexivity.
    intros H. vm_compute in H. discriminate H.
  - apply (proj1 (crash_routes_refuse_without_writing
                    (Sample2.on Sample.reporter "7" ∅) Sample2.state)).
    reflexivity.
Defined.

(** X11: a crash event is deleted for its owner and for every caller whose
    role is not [user] (a rescuer or dispatcher as well as an admin): the
    answer is 200, the row is gone and every other row is kept. *)
Theorem crash_delete_removes_row req w k r :
  key_of_string (params_id req) = Some k →
  from w "crash_events" !! k = Some r →
  role (user req) ≠ "user" ∨ strict_eq r.["user_id"] (JKey (id (user req))) = true →
  fst (Crash.delete_by_id req w) = json (PMessage "Crash event deleted") ∧
  from (snd (Crash.delete_by_id req w)) "crash_events"
  = delete k (from w "crash_events") ∧
  ∀ n, n ≠ "crash_events" → from (snd (Crash.delete_by_id req w)) n = from w n.
Proof.
  intros Hk Hr Hallowed.
  destruct (crash_owner_cell req w k r Hk Hr) as [Hsel Hcell].
  unfold Crash.delete_by_id, Crash.delete_by_id_try, handle.
  erewrite bind_val by exact Hsel. cbn [error data]. rewrite Hcell.
  assert (Hgate : String.eqb (role (user req)) "user"
                  && negb (strict_eq r.["user_id"] (JKey (id (user req)))) = false).
  { destruct Hallowed as [Hrole | ->]; [| by rewrite andb_false_r].
    apply String.eqb_neq in Hrole. by rewrite Hrole. }
  rewrite Hgate.
  assert (Hfind : find_row (from w "crash_events") (JStr (params_id req)) = Some (k, r)).
  { by apply find_row_Some. }
  unfold mbind, js_bind, delete_where. rewrite Hfind. cbn [error fst snd mret js_ret].
  split; [reflexivity |]. split.
  - apply from_set_table_eq.
  - intros n Hn. by rewrite from_set_table_ne.
Qed.

Lemma crash_delete_removes_row_witness :
  from (snd (Crash.delete_by_id (Sample2.on Sample.rescuer "1" ∅) Sample2.state))
    "crash_events" = delete 1%positive (from Sample2.state "crash_events").
Proof.
  apply (crash_delete_removes_row (Sample2.on Sample.rescuer "1" ∅) Sample2.state
           1%positive Sample2.crash); try reflexivity.
  left. discriminate.
Defined.

(** ** The status of an alert stays one of the four *)

#[global] Instance keeps_preorder P : PreOrder (keeps P).
Proof.
  split; [intros w H; exact H | intros w1 w2 w3 H12 H23 H; by apply H23, H12].
Qed.

Lemma prop_put_patch (b : obj) nw c :
  c ≠ "updated_at" → (put_patch b nw).[c] = b.[c].
Proof.
  intros Hc. unfold prop, put_patch.
  destruct (filter _ _ !! c) as [v|] eqn:F.
  - apply map_lookup_filter_Some in F as [F _].
    rewrite lookup_insert_ne in F by done. by rewrite F.
  - destruct (b !! c) as [v|] eqn:E; [| done]. cbn [default].
    destruct (is_undefined v) eqn:U; [by destruct v |].
    assert (filter (λ kv : string * jsval, is_undefined kv.2 = false)
              (<["updated_at" := JStr nw]> b) !! c = Some v) as F'.
    { apply map_lookup_filter_Some. split; [| done].
      by rewrite lookup_insert_ne. }
    congruence.
Qed.

Lemma put_patch_undefined (b : obj) nw c :
  b.[c] = JUndefined → c ≠ "updated_at" → put_patch b nw !! c = None.
Proof.
  intros Hb Hc. unfold put_patch.
  destruct (filter _ _ !! c) as [v|] eqn:F; [| done].
  apply map_lookup_filter_Some in F as [F U]. cbn in U.
  rewrite lookup_insert_ne in F by done.
  unfold prop in Hb. rewrite F in Hb. cbn in Hb. by subst v.
Qed.

Lemma statuses_valid_frame w w' :
  from w' "alerts" = from w "alerts" → keeps statuses_valid w w'.
Proof. intros H. unfold keeps, statuses_valid. by rewrite H. Qed.

Lemma statuses_valid_updated n v (patch : obj) w :
  n ≠ "alerts" ∨ patch !! "status" = None
    ∨ includes Alerts.validStatuses patch.["status"] = true →
  keeps statuses_valid w
    (updated_world n (update_eq_id (from w n) v patch) (log_call (Update n v patch) w)).
Proof.
  intros Hp. destruct (decide (n = "alerts")) as [-> | Hn]; last first.
  { apply statuses_valid_frame. destruct (update_eq_id _ _ _); try done.
    cbn [updated_world]. by rewrite from_set_table_ne. }
  destruct Hp as [? | Hp]; [done |].
  intros Hw. unfold update_eq_id.
  destruct (find_row _ _) as [[k r] |] eqn:Hf; [| exact Hw].
  destruct (new_key _ _ _) as [k' |]; [| exact Hw].
  cbn [updated_world]. unfold statuses_valid. rewrite from_set_table_eq.
  apply map_Forall_insert_2; [| by apply map_Forall_delete].
  assert (Hr : includes Alerts.validStatuses r.["status"] = true).
  { unfold find_row in Hf. destruct (as_key v) as [k0|]; [| discriminate].
    cbn in Hf. destruct (from w "alerts" !! k0) as [r0|] eqn:E; [| discriminate].
    injection Hf as <- <-. by apply (Hw k0). }
  rewrite prop_delete_ne by done.
  destruct Hp as [Hp | Hp].
  - by rewrite prop_union_r.
  - destruct (patch !! "status") as [s|] eqn:E.
    + rewrite (prop_union_l _ _ _ _ E). unfold prop in Hp. by rewrite E in Hp.
    + by rewrite prop_union_r.
Qed.

Lemma statuses_valid_update_single n v patch :
  n ≠ "alerts" ∨ patch !! "status" = None
    ∨ includes Alerts.validStatuses patch.["status"] = true →
  respects (keeps statuses_valid) (update_single n v patch).
Proof. intros H w. by apply statuses_valid_updated. Qed.

Lemma statuses_valid_update_where n v patch :
  n ≠ "alerts" ∨ patch !! "status" = None
    ∨ includes Alerts.validStatuses patch.["status"] = true →
  respects (keeps statuses_valid) (update_where n v patch).
Proof. intros H w. by apply statuses_valid_updated. Qed.

Lemma statuses_valid_delete_where n v :
  respects (keeps statuses_valid) (delete_where n v).
Proof.
  intros w Hw. unfold delete_where. cbn [snd].
  destruct (find_row _ _) as [[k r] |]; [| exact Hw].
  unfold statuses_valid. destruct (decide (n = "alerts")) as [-> | Hn].
  - rewrite from_set_table_eq. by apply map_Forall_delete.
  - by rewrite from_set_table_ne.
Qed.

Lemma statuses_valid_insert_single n nw (data : obj) :
  data !! "status" = Some (JStr "pending") →
  respects (keeps statuses_valid) (insert_single n nw data).
Proof.
  intros Hs w Hw. unfold insert_single. cbn [snd]. unfold statuses_valid.
  destruct (decide (n = "alerts")) as [-> | Hn].
  - rewrite from_set_table_eq. apply map_Forall_insert_2; [| exact Hw].
    rewrite prop_delete_ne by done. by rewrite (prop_union_l _ _ _ _ Hs).
  - by rewrite from_set_table_ne.
Qed.

Lemma statuses_valid_emit sock ev p : respects (keeps statuses_valid) (emit sock ev p).
Proof. intros w. apply statuses_valid_frame. by destruct sock. Qed.

#[export] Hint Resolve statuses_valid_emit statuses_valid_delete_where : frame.
#[export] Hint Extern 1 (respects (keeps statuses_valid) (insert_single _ _ _)) =>
  apply statuses_valid_insert_single; reflexivity : frame.
#[export] Hint Extern 1 (respects (keeps statuses_valid) (update_where _ _ _)) =>
  apply statuses_valid_update_where; left; discriminate : frame.
#[export] Hint Extern 1 (respects (keeps statuses_valid) (update_single _ _ _)) =>
  apply statuses_valid_update_single; right;
  first [left; reflexivity | right; assumption] : frame.

(** X12: the alert routes keep the status column within the four statuses.
    If every stored alert is [pending], [responding], [resolved] or
    [cancelled], it is still so after a create, a status update, an
    assignment or a delete, whatever the request and whatever the answer;
    and after a full update whose body leaves [status] out or gives one of
    the four. *)
Theorem alert_statuses_stay_valid req w :
  statuses_valid w →
  statuses_valid (snd (Alerts.create req w)) ∧
  statuses_valid (snd (Alerts.patch_status req w)) ∧
  statuses_valid (snd (Alerts.patch_assign req w)) ∧
  statuses_valid (snd (Alerts.delete_by_id req w)) ∧
  ((req_body req).["status"] = JUndefined
   ∨ includes Alerts.validStatuses (req_body req).["status"] = true →
   statuses_valid (snd (Alerts.put_by_id req w))).
Proof.
  intros Hw.
  repeat split; [| | | | intros Hb];
    apply (respects_handle (keeps statuses_valid)); try exact Hw.
  - unfold Alerts.create_try. frame_walk.
  - unfold Alerts.patch_status_try.
    destruct (includes Alerts.validStatuses _) eqn:Hv; cbn [negb]; frame_walk.
  - unfold Alerts.patch_assign_try. frame_walk.
  - unfold Alerts.delete_by_id_try. frame_walk.
  - unfold Alerts.put_by_id_try. fold (put_patch (req_body req) (now req)).
    assert (Hp : put_patch (req_body req) (now req) !! "status" = None
                 ∨ includes Alerts.validStatuses
                     (put_patch (req_body req) (now req)).["status"] = true).
    { destruct Hb as [Hb | Hb].
      - left. by apply put_patch_undefined.
      - right. by rewrite prop_put_patch. }
    pose proof (statuses_valid_update_single "alerts" (JStr (params_id req)) _
                  (or_intror Hp)) as Hupd.
    frame_walk; exact Hupd.
Qed.

Lemma alert_statuses_stay_valid_witness :
  statuses_valid
    (snd (Alerts.patch_status
            (Sample.set_status Sample.rescuer "2" "responding" "2024-02-01T10:00:00.000Z")
            Sample.state)).
Proof.
  assert (Hvalid : statuses_valid Sample.state).
  { unfold statuses_valid. apply (bool_decide_unpack _). vm_compute. exact I. }
  destruct (alert_statuses_stay_valid
              (Sample.set_status Sample.rescuer "2" "responding" "2024-02-01T10:00:00.000Z")
              Sample.state Hvalid) as (_ & Hstatus & _).
  exact Hstatus.
Defined.

(** ** What a status update leaves alone *)

Lemma from_sync_vehicle_other s v w k :
  as_key v ≠ Some k →
  from (sync_vehicle s v w) "vehicles" !! k = from w "vehicles" !! k.
Proof.
  intros Hk. unfold sync_vehicle. destruct (vehicle_status_for s); [| done].
  destruct (truthy v); [| done]. by apply from_update_where_other.
Qed.

(** X13: a status update that finds its alert rewrites two cells of one
    row.  The row gets the new status and the time of the request as
    [updated_at]; its other columns, the other alerts, every vehicle but the
    one the alert holds and every other table are as they were.  This holds
    whatever the route answers. *)
Theorem patch_status_touches_one_row req w k r :
  includes Alerts.validStatuses (req_body req).["status"] = true →
  includes ["admin"; "dispatcher"; "rescuer"] (JStr (role (user req))) = true →
  key_of_string (params_id req) = Some k →
  from w "alerts" !! k = Some r →
  let w' := snd (Alerts.patch_status req w) in
  (∃ r', from w' "alerts" !! k = Some r' ∧
         r'.["status"] = (req_body req).["status"] ∧
         r'.["updated_at"] = JStr (now req) ∧
         ∀ c, c ≠ "status" → c ≠ "updated_at" → c ≠ "id" → r'.[c] = r.[c]) ∧
  (∀ k', k' ≠ k → from w' "alerts" !! k' = from w "alerts" !! k') ∧
  (∀ v, as_key r.["assigned_vehicle_id"] ≠ Some v →
        from w' "vehicles" !! v = from w "vehicles" !! v) ∧
  (∀ n, n ≠ "alerts" → n ≠ "vehicles" → from w' n = from w n).
Proof.
  intros Hvalid Hrole Hk Hr w'. subst w'.
  destruct (patch_status_hit req w k r Hvalid Hrole Hk Hr) as (s & Hs & _ & Heq).
  cbv zeta in Heq. rewrite Heq. clear Heq. rewrite Hs.
  set (r' := delete "id" (status_patch (JStr s) (now req) ∪ r)).
  set (w1 := set_table "alerts" _ _).
  split; [| split; [| split]].
  - exists r'. rewrite broadcast_from, from_sync_vehicle_ne by done.
    unfold w1. rewrite from_set_table_eq, lookup_insert_eq.
    split; [done |]. unfold r'.
    split; [| split].
    + rewrite prop_delete_ne by done. by apply prop_union_l.
    + rewrite prop_delete_ne by done. by apply prop_union_l.
    + intros c Hc1 Hc2 Hc3. rewrite prop_delete_ne by done.
      apply prop_union_r. unfold status_patch, object. cbn.
      rewrite !lookup_insert_ne by done. apply lookup_empty.
  - intros k' Hk'. rewrite broadcast_from, from_sync_vehicle_ne by done.
    unfold w1. rewrite from_set_table_eq. by rewrite lookup_insert_ne.
  - intros v Hv. rewrite broadcast_from, from_sync_vehicle_other by done.
    unfold w1. by rewrite from_set_table_ne.
  - intros n Hn1 Hn2. rewrite broadcast_from, from_sync_vehicle_ne by done.
    unfold w1. by rewrite from_set_table_ne.
Qed.

Lemma patch_status_touches_one_row_witness :
  let w' := snd (Alerts.patch_status
                   (Sample.set_status Sample.rescuer "2" "responding"
                      "2024-02-01T10:00:00.000Z") Sample.state) in
  from w' "alerts" !! 1%positive = from Sample.state "alerts" !! 1%positive ∧
  from w' "vehicles" !! 7%positive = from Sample.state "vehicles" !! 7%positive.
Proof.
  intros w'.
  destruct (patch_status_touches_one_row
              (Sample.set_status Sample.rescuer "2" "responding"
                 "2024-02-01T10:00:00.000Z") Sample.state
              2%positive Sample.free_alert eq_refl eq_refl eq_refl eq_refl)
    as (_ & Hrows & Hveh & _).
  split; [by apply Hrows | apply Hveh; discriminate].
Defined.

(** ** Writes come before the broadcast *)

Lemma broadcast_cold ev p ok w :
  truthy (io w) = false →
  broadcast ev p ok w = (status_message 500 "Socket.io not initialized", w).
Proof.
  intros H. unfold broadcast, handle, SocketInstance.getIO, mbind, js_bind.
  by rewrite H.
Qed.

Lemma alert_delete_admin req w :
  role (user req) = "admin" →
  Alerts.delete_by_id req w =
    broadcast "alert:deleted" (PId (params_id req))
      (json (PMessage "Alert deleted successfully"))
      (snd (delete_where "alerts" (JStr (params_id req)) w)).
Proof.
  intros Hrole. unfold Alerts.delete_by_id, Alerts.delete_by_id_try, broadcast, handle.
  rewrite Hrole. cbn [String.eqb Ascii.eqb Bool.eqb negb].
  unfold mbind at 1, js_bind at 1. unfold delete_where at 1.
  cbn [error]. reflexivity.
Qed.

Lemma delete_where_hit n v w k r :
  as_key v = Some k → from w n !! k = Some r →
  snd (delete_where n v w) = set_table n (delete k (from w n)) (log_call (Delete n v) w).
Proof.
  intros Hk Hr. unfold delete_where, find_row. rewrite Hk. cbn. by rewrite Hr.
Qed.

(** X14: the alert routes write first and fetch the socket server last, and
    nothing is undone when that fails.  With no server registered, a status
    update, an assignment and a delete of an existing alert each answer 500,
    yet the new status is stored, the assignment is stored, and the row is
    gone. *)
Theorem unregistered_notifier_fails_after_write req w k r :
  truthy (io w) = false →
  key_of_string (params_id req) = Some k →
  from w "alerts" !! k = Some r →
  (includes Alerts.validStatuses (req_body req).["status"] = true →
   includes ["admin"; "dispatcher"; "rescuer"] (JStr (role (user req))) = true →
   code (fst (Alerts.patch_status req w)) = 500%Z ∧
   ∃ r', from (snd (Alerts.patch_status req w)) "alerts" !! k = Some r' ∧
         r'.["status"] = (req_body req).["status"]) ∧
  (includes ["admin"; "dispatcher"] (JStr (role (user req))) = true →
   code (fst (Alerts.patch_assign req w)) = 500%Z ∧
   ∃ r', from (snd (Alerts.patch_assign req w)) "alerts" !! k = Some r' ∧
         r'.["assigned_vehicle_id"] = js_or (req_body req).["vehicle_id"] JNull) ∧
  (role (user req) = "admin" →
   code (fst (Alerts.delete_by_id req w)) = 500%Z ∧
   from (snd (Alerts.delete_by_id req w)) "alerts" !! k = None).
Proof.
  intros Hio Hk Hr. split; [| split].
  - intros Hvalid Hrole.
    destruct (patch_status_hit req w k r Hvalid Hrole Hk Hr) as (s & Hs & _ & Heq).
    cbv zeta in Heq. rewrite Heq, Hs. clear Heq.
    rewrite broadcast_cold by (by rewrite io_sync_vehicle).
    split; [reflexivity |]. cbn [snd].
    rewrite from_sync_vehicle_ne by done.
    rewrite from_set_table_eq, lookup_insert_eq. eexists. split; [reflexivity |].
    rewrite prop_delete_ne by done. by apply prop_union_l.
  - intros Hrole.
    pose proof (patch_assign_hit req w k r Hrole Hk Hr) as Heq.
    cbv zeta in Heq. rewrite Heq. clear Heq.
    rewrite broadcast_cold; last first.
    { unfold take_new, release_previous.
      repeat match goal with
             | |- context [if ?c then _ else _] => destruct c
             end; rewrite ?io_update_where; exact Hio. }
    split; [reflexivity |]. cbn [snd].
    unfold take_new, release_previous.
    assert (Hrow : ∀ w1, from w1 "alerts" !! k
                         = Some (delete "id"
                                   (assign_patch (req_body req).["vehicle_id"]
                                      (req_body req).["responder_id"] (now req) ∪ r)) →
              ∃ r', from w1 "alerts" !! k = Some r' ∧
                    r'.["assigned_vehicle_id"] = js_or (req_body req).["vehicle_id"] JNull).
    { intros w1 H1. eexists. split; [exact H1 |].
      rewrite prop_delete_ne by done. by apply prop_union_l. }
    apply Hrow.
    repeat match goal with
           | |- context [if ?c then _ else _] => destruct c
           end; rewrite ?from_update_where_ne by done;
      by rewrite from_set_table_eq, lookup_insert_eq.
  - intros Hrole. rewrite (alert_delete_admin _ _ Hrole).
    erewrite delete_where_hit by (exact Hk || exact Hr).
    rewrite broadcast_cold by exact Hio.
    split; [reflexivity |]. cbn [snd].
    rewrite from_set_table_eq. apply lookup_delete_eq.
Qed.

Lemma unregistered_notifier_fails_after_write_witness :
  code (fst (Alerts.delete_by_id (Sample2.on Sample.admin "1" ∅) Sample.cold)) = 500%Z ∧
  from (snd (Alerts.delete_by_id (Sample2.on Sample.admin "1" ∅) Sample.cold))
    "alerts" !! 1%positive = None.
Proof.
  apply (unregistered_notifier_fails_after_write
           (Sample2.on Sample.admin "1" ∅) Sample.cold 1%positive Sample.alert);
    reflexivity.
Defined.

(** ** Taking a vehicle off an alert *)

Lemma strict_eq_JKey_falsy k v : truthy v = false → strict_eq (JKey k) v = false.
Proof.
  destruct v as [| |b|q|s|h]; try done. cbn [truthy strict_eq JKey JInt].
  intros Hq. apply negb_false_iff, Qeq_bool_iff in Hq.
  destruct (Qeq_bool _ _) eqn:E; [| done].
  apply Qeq_bool_iff in E. rewrite Hq in E. discriminate E.
Qed.

(** X15: an assignment whose body names no vehicle takes the vehicle off the
    alert: the alert's [assigned_vehicle_id] becomes [null], the vehicle it
    held is set to [available], and no vehicle is set to [assigned]; the
    writes are the one on the alert and then the release.  A responder left
    out of the body is cleared in the same way. *)
Theorem patch_assign_without_vehicle_releases req w k r v1 veh1 :
  includes ["admin"; "dispatcher"] (JStr (role (user req))) = true →
  key_of_string (params_id req) = Some k →
  from w "alerts" !! k = Some r →
  r.["assigned_vehicle_id"] = JKey v1 →
  from w "vehicles" !! v1 = Some veh1 →
  truthy (req_body req).["vehicle_id"] = false →
  let w' := snd (Alerts.patch_assign req w) in
  (∃ r', from w' "alerts" !! k = Some r' ∧
         r'.["assigned_vehicle_id"] = JNull ∧
         (truthy (req_body req).["responder_id"] = false →
          r'.["assigned_responder_id"] = JNull)) ∧
  (∃ a, from w' "vehicles" !! v1 = Some a ∧ a.["status"] = JStr "available") ∧
  calls w' =
    (calls w ++ [Update "alerts" (JStr (params_id req))
                   (assign_patch (req_body req).["vehicle_id"]
                      (req_body req).["responder_id"] (now req));
                 Update "vehicles" (JKey v1) (object [("status", JStr "available")])])%list.
Proof.
  intros Hrole Hk Hr Hv1 Hveh1 Hnone w'. subst w'.
  pose proof (patch_assign_hit req w k r Hrole Hk Hr) as Heq.
  cbv zeta in Heq. rewrite Heq. clear Heq.
  rewrite !broadcast_from, broadcast_calls, Hv1.
  unfold take_new, release_previous. rewrite Hnone.
  rewrite (strict_eq_JKey_falsy _ _ Hnone).
  change (truthy (JKey v1)) with true. cbn [andb negb].
  set (patch := assign_patch _ _ _).
  set (w1 := set_table "alerts" _ _).
  assert (Hw1 : from w1 "vehicles" = from w "vehicles").
  { unfold w1. by rewrite from_set_table_ne. }
  split; [| split].
  - rewrite from_update_where_ne by done. unfold w1.
    rewrite from_set_table_eq, lookup_insert_eq.
    eexists. split; [reflexivity |]. rewrite !prop_delete_ne by done.
    split.
    + erewrite prop_union_l; [| reflexivity]. unfold js_or. by rewrite Hnone.
    + intros Hresp. erewrite prop_union_l; [| reflexivity].
      unfold js_or. by rewrite Hresp.
  - erewrite update_where_hit;
      [| apply as_key_JKey | by rewrite Hw1 | reflexivity].
    rewrite from_set_table_eq, lookup_insert_eq.
    eexists. split; [reflexivity |].
    rewrite prop_delete_ne by done. by apply prop_union_l.
  - rewrite calls_update_where. unfold w1. cbn [calls set_table log_call].
    by rewrite <- app_assoc.
Qed.

Lemma patch_assign_without_vehicle_releases_witness :
  let w' := snd (Alerts.patch_assign (Sample2.on Sample.dispatcher "1" ∅) Sample.state) in
  (∃ r', from w' "alerts" !! 1%positive = Some r' ∧ r'.["assigned_vehicle_id"] = JNull) ∧
  (∃ a, from w' "vehicles" !! 7%positive = Some a ∧ a.["status"] = JStr "available").
Proof.
  intros w'.
  assert (Hnone : truthy (req_body (Sample2.on Sample.dispatcher "1" ∅)).["vehicle_id"]
                  = false) by reflexivity.
  destruct (patch_assign_without_vehicle_releases
              (Sample2.on Sample.dispatcher "1" ∅) Sample.state
              1%positive Sample.alert 7%positive (Sample.vehicle "assigned")
              eq_refl eq_refl eq_refl eq_refl eq_refl Hnone)
    as ((r' & Hrow & Hnull & _) & Hveh & _).
  split; [exists r'; split; [exact Hrow | exact Hnull] | exact Hveh].
Defined.

(** ** Deleting an alert *)

(** X16: an administrator's delete answers 200 whether or not the alert
    exists; the row the path names is gone, the other alerts stay, and no
    table but [alerts] is written: a vehicle the alert held keeps the status
    it had. *)
Theorem alert_delete_leaves_vehicle req w h :
  role (user req) = "admin" →
  io w = JRef h →
  let w' := snd (Alerts.delete_by_id req w) in
  fst (Alerts.delete_by_id req w) = json (PMessage "Alert deleted successfully") ∧
  from w' "alerts"
  = from_option (fun k => delete k (from w "alerts")) (from w "alerts")
      (key_of_string (params_id req)) ∧
  (∀ n, n ≠ "alerts" → from w' n = from w n).
Proof.
  intros Hrole Hio w'. subst w'. rewrite (alert_delete_admin _ _ Hrole).
  set (w1 := snd (delete_where _ _ _)).
  assert (Hio1 : io w1 = JRef h).
  { rewrite <- Hio. apply same_io_delete_where. }
  rewrite (broadcast_ready _ _ _ _ _ Hio1). cbn [fst snd].
  change (from (World (db w1) ?i ?e ?c)) with (from w1).
  split; [reflexivity |]. unfold w1, delete_where, find_row. cbn [snd as_key].
  destruct (key_of_string (params_id req)) as [k|]; cbn.
  - destruct (from w "alerts" !! k) as [r|] eqn:E; cbn.
    + split; [apply from_set_table_eq |]. intros n Hn. by rewrite from_set_table_ne.
    + split; [| done].
      change (from (log_call ?c w) "alerts") with (from w "alerts").
      symmetry. by apply delete_id.
  - split; done.
Qed.

Lemma alert_delete_leaves_vehicle_witness :
  let w' := snd (Alerts.delete_by_id (Sample2.on Sample.admin "1" ∅) Sample.state) in
  from w' "alerts" = delete 1%positive (from Sample.state "alerts") ∧
  from w' "vehicles" = from Sample.state "vehicles".
Proof.
  intros w'.
  destruct (alert_delete_leaves_vehicle (Sample2.on Sample.admin "1" ∅) Sample.state 0
              eq_refl eq_refl) as (_ & Hrows & Hrest).
  split; [exact Hrows | apply Hrest; discriminate].
Defined.

(** ** The full update *)

Lemma alert_put_hit req w k r :
  includes ["admin"; "dispatcher"] (JStr (role (user req))) = true →
  key_of_string (params_id req) = Some k →
  from w "alerts" !! k = Some r →
  (req_body req).["id"] = JUndefined →
  let patch := put_patch (req_body req) (now req) in
  let r' := delete "id" (patch ∪ r) in
  Alerts.put_by_id req w =
    broadcast "alert:updated" (PData (Some (with_id k r')))
      (json (PData (Some (with_id k r'))))
      (set_table "alerts" (<[k := r']> (from w "alerts"))
         (log_call (Update "alerts" (JStr (params_id req)) patch) w)).
Proof.
  intros Hrole Hk Hr Hid patch r'.
  unfold Alerts.put_by_id, Alerts.put_by_id_try. rewrite Hrole. cbn [negb].
  fold (put_patch (req_body req) (now req)). fold patch.
  unfold broadcast, handle.
  erewrite bind_val; last first.
  { apply update_single_hit; [exact Hk | exact Hr |]. by apply put_patch_undefined. }
  cbn [error data]. fold r'. reflexivity.
Qed.

(** X17: a full update by an administrator or dispatcher writes the body
    over the row and stamps it.  [updated_at] is the time of the request
    even when the body gives another; every other column the body defines
    takes the body's value, the rest keep theirs.  Unlike the status route,
    no vehicle is written, whatever status the body sets. *)
Theorem alert_put_stamps_and_skips_vehicles req w k r :
  includes ["admin"; "dispatcher"] (JStr (role (user req))) = true →
  key_of_string (params_id req) = Some k →
  from w "alerts" !! k = Some r →
  (req_body req).["id"] = JUndefined →
  let w' := snd (Alerts.put_by_id req w) in
  (∃ r', from w' "alerts" !! k = Some r' ∧
         r'.["updated_at"] = JStr (now req) ∧
         (∀ c, c ≠ "updated_at" → (req_body req).[c] ≠ JUndefined →
               r'.[c] = (req_body req).[c]) ∧
         (∀ c, c ≠ "updated_at" → c ≠ "id" → (req_body req).[c] = JUndefined →
               r'.[c] = r.[c])) ∧
  (∀ n, n ≠ "alerts" → from w' n = from w n) ∧
  calls w' = (calls w ++ [Update "alerts" (JStr (params_id req))
                            (put_patch (req_body req) (now req))])%list.
Proof.
  intros Hrole Hk Hr Hid w'. subst w'.
  pose proof (alert_put_hit req w k r Hrole Hk Hr Hid) as Heq.
  cbv zeta in Heq. rewrite Heq. clear Heq.
  split; [| split].
  - rewrite broadcast_from, from_set_table_eq, lookup_insert_eq.
    eexists. split; [reflexivity |]. split; [| split].
    + rewrite prop_delete_ne by done. apply prop_union_l.
      unfold put_patch. apply map_lookup_filter_Some. split; [| done].
      apply lookup_insert_eq.
    + intros c Hc Hdef.
      assert (c ≠ "id") as Hcid by (intros ->; by apply Hdef).
      rewrite prop_delete_ne by done.
      pose proof (prop_put_patch (req_body req) (now req) c Hc) as Hp.
      rewrite <- Hp in Hdef. rewrite <- Hp. clear Hp.
      unfold prop in Hdef |- *.
      destruct (put_patch _ _ !! c) as [v|] eqn:E; [| by destruct Hdef].
      by rewrite (lookup_union_Some_l _ _ _ _ E).
    + intros c Hc Hcid Hundef. rewrite prop_delete_ne by done.
      apply prop_union_r. by apply put_patch_undefined.
  - intros n Hn. rewrite broadcast_from. by rewrite from_set_table_ne.
  - by rewrite broadcast_calls.
Qed.

Lemma alert_put_stamps_and_skips_vehicles_witness :
  let req := Sample2.on Sample.dispatcher "2"
               (object [("status", JStr "resolved");
                        ("updated_at", JStr "1999-01-01T00:00:00.000Z")]) in
  let w' := snd (Alerts.put_by_id req Sample.state) in
  (∃ r', from w' "alerts" !! 2%positive = Some r' ∧
         r'.["updated_at"] = JStr "2024-02-01T10:00:00.000Z") ∧
  from w' "vehicles" = from Sample.state "vehicles".
Proof.
  intros req w'.
  destruct (alert_put_stamps_and_skips_vehicles req Sample.state 2%positive
              Sample.free_alert eq_refl eq_refl eq_refl eq_refl)
    as ((r' & Hrow & Hstamp & _) & Hrest & _).
  split; [exists r'; split; [exact Hrow | exact Hstamp] | apply Hrest; discriminate].
Defined.

(** ** The answer for an alert that does not exist *)

Lemma single_row_select n cols v w rep w' :
  select_single n cols v w = (Val rep, w') → single_row rep.
Proof.
  unfold select_single. intros [= <- _].
  by destruct (find_row _ _) as [[k r] |].
Qed.

Lemma single_row_update n v p w rep w' :
  update_single n v p w = (Val rep, w') → single_row rep.
Proof.
  unfold update_single. intros [= <- _].
  by destruct (update_eq_id _ _ _).
Qed.

Lemma never_bind_single S {A} (m : js (reply A)) (k : reply A → js response) :
  (∀ w rep w', m w = (Val rep, w') → single_row rep) →
  (∀ rep, single_row rep → post (never_code S) (k rep)) →
  post (never_code S) (m ≫= k).
Proof.
  intros Hm Hk w r w' H. unfold mbind, js_bind in H.
  destruct (m w) as [[rep | e] w1] eqn:E; [| discriminate].
  exact (Hk rep (Hm _ _ _ E) w1 r w' H).
Qed.

Lemma never_handle S fb body w :
  (500 ∉ S)%Z → post (never_code S) body → code (fst (handle fb body w)) ∉ S.
Proof.
  intros H500 Hbody. by apply (post_handle (never_code S)).
Qed.

(** X18: no alert route answers 404.  The two handlers that have a 404
    branch, reading one alert and the full update, ask the store for a
    single row, and the store reports a missing row as an error, which the
    handler throws before it tests for a missing row: the answer is 500. *)
Theorem alert_routes_never_answer_404 req w :
  code (fst (Alerts.get_list req w)) ≠ 404%Z ∧
  code (fst (Alerts.get_by_id req w)) ≠ 404%Z ∧
  code (fst (Alerts.create req w)) ≠ 404%Z ∧
  code (fst (Alerts.put_by_id req w)) ≠ 404%Z ∧
  code (fst (Alerts.patch_status req w)) ≠ 404%Z ∧
  code (fst (Alerts.patch_assign req w)) ≠ 404%Z ∧
  code (fst (Alerts.delete_by_id req w)) ≠ 404%Z ∧
  (find_row (from w "alerts") (JStr (params_id req)) = None →
   fst (Alerts.get_by_id req w) = status_message 500 no_rows ∧
   (includes ["admin"; "dispatcher"] (JStr (role (user req))) = true →
    fst (Alerts.put_by_id req w) = status_message 500 no_rows)).
Proof.
  assert (Hin : ∀ c : Z, c ∉ [404%Z] → c ≠ 404%Z).
  { intros c Hc ->. apply Hc. in_list. }
  repeat split; try (apply Hin, never_handle; [not_in_list |]).
  - unfold Alerts.get_list_try. never_walk.
  - unfold Alerts.get_by_id_try.
    apply never_bind_single; [apply single_row_select |].
    intros rep Hrep. destruct (error rep) eqn:E; [apply post_throw |].
    destruct (data rep) eqn:D; [never_walk | by destruct (Hrep E)].
  - unfold Alerts.create_try. never_walk.
  - unfold Alerts.put_by_id_try.
    destruct (negb _); [never_walk |].
    apply never_bind_single; [apply single_row_update |].
    intros rep Hrep. destruct (error rep) eqn:E; [apply post_throw |].
    destruct (data rep) eqn:D; [never_walk | by destruct (Hrep E)].
  - unfold Alerts.patch_status_try. never_walk.
  - unfold Alerts.patch_assign_try. never_walk.
  - unfold Alerts.delete_by_id_try. never_walk.
  - unfold Alerts.get_by_id, Alerts.get_by_id_try, handle, mbind, js_bind, select_single.
    by rewrite H.
  - intros Hrole. unfold Alerts.put_by_id, Alerts.put_by_id_try, handle.
    rewrite Hrole. cbn [negb].
    erewrite bind_val by (by apply update_single_miss). reflexivity.
Qed.

Lemma alert_routes_never_answer_404_witness :
  fst (Alerts.get_by_id (Sample2.on Sample.admin "9" ∅) Sample.state)
  = status_message 500 no_rows.
Proof.
  destruct (alert_routes_never_answer_404 (Sample2.on Sample.admin "9" ∅) Sample.state)
    as (_ & _ & _ & _ & _ & _ & _ & Habsent).
  exact (proj1 (Habsent eq_refl)).
Defined.

(** ** The list of alerts *)

Lemma await_rows_exact q w :
  ∃ rows, await_rows q w = (Val (Reply (Some rows) None), w) ∧
          rows ≡ₚ filter (fun r => Is_true (forallb (fun c => holds c r) (sq_conds q)))
                    (rows_of (from w (sq_from q))).
Proof.
  unfold await_rows. eexists. split; [reflexivity |].
  destruct (sq_order q); cbn [from_option]; [| done].
  unfold order_desc. apply merge_sort_Permutation.
Qed.

Lemma elem_of_rows_of (t : table) k r : t !! k = Some r → with_id k r ∈ rows_of t.
Proof.
  intros H. unfold rows_of. apply list_elem_of_fmap.
  exists (k, r). split; [done |]. by apply elem_of_map_to_list.
Qed.

Lemma length_rows_of (t : table) : List.length (rows_of t) = size t.
Proof. unfold rows_of. by rewrite length_fmap, length_map_to_list. Qed.

(** X19: a caller with role [user] cannot widen the alert list: the
    [user_id] query parameter is not read for that role, and the answer is
    the one the request gets without it. *)
Theorem alerts_list_ignores_user_filter_for_users req w v :
  role (user req) = "user" →
  Alerts.get_list (with_query (<["user_id" := v]> (query req)) req) w
  = Alerts.get_list req w.
Proof.
  intros Hrole. unfold Alerts.get_list, Alerts.get_list_try.
  cbn [with_query query user]. rewrite Hrole.
  cbn [String.eqb Ascii.eqb Bool.eqb].
  unfold prop. rewrite !lookup_insert_ne by done. reflexivity.
Qed.

Lemma alerts_list_ignores_user_filter_for_users_witness :
  Alerts.get_list (with_query (<["user_id" := JKey 6]> ∅) (Sample2.list_by Sample.reporter ∅))
    Sample.state
  = Alerts.get_list (Sample2.list_by Sample.reporter ∅) Sample.state.
Proof.
  apply (alerts_list_ignores_user_filter_for_users
           (Sample2.list_by Sample.reporter ∅) Sample.state (JKey 6)).
  reflexivity.
Defined.

(** X20: the alert list leaves nothing out and is not paged.  Every stored
    alert that matches the filters of the request (and, for role [user],
    belongs to the caller) is in the answer, which is 200 and leaves the
    state as it was. *)
Theorem alerts_list_is_complete req w k r :
  from w "alerts" !! k = Some r →
  (truthy (query req).["status"] = true →
   pg_eq r.["status"] (query req).["status"] = true) →
  (truthy (query req).["alert_type"] = true →
   pg_eq r.["alert_type"] (query req).["alert_type"] = true) →
  (role (user req) = "user" → pg_eq r.["user_id"] (JKey (id (user req))) = true) →
  (role (user req) ≠ "user" → truthy (query req).["user_id"] = true →
   pg_eq r.["user_id"] (query req).["user_id"] = true) →
  ∃ rows, Alerts.get_list req w = (json (PRows (Some rows)), w) ∧
          with_id k r ∈ rows ∧
          (List.length rows ≤ size (from w "alerts"))%nat.
Proof.
  intros Hr Hstatus Htype Hown Hother.
  unfold Alerts.get_list, handle, Alerts.get_list_try.
  match goal with |- context [await_rows ?q] =>
    destruct (await_rows_exact q w) as (rows & Heq & Hperm);
    rewrite (bind_val _ _ _ _ _ Heq); set (qq := q) in * end.
  cbn [error data]. exists rows. split; [reflexivity |].
  assert (Hfrom : sq_from qq = "alerts").
  { unfold qq. repeat match goal with
                      | |- context [if ?c then _ else _] => destruct c
                      end; reflexivity. }
  rewrite Hfrom in Hperm. split.
  - rewrite Hperm. apply list_elem_of_filter. split; [| by apply elem_of_rows_of].
    apply Is_true_true. apply forallb_forall. intros c Hc.
    apply list_elem_of_In in Hc. unfold qq in Hc.
    assert (Hcell : ∀ col, col ≠ "id" → (with_id k r).[col] = r.[col]).
    { intros col Hcol. by apply prop_with_id_ne. }
    destruct (truthy (query req).["status"]) eqn:E1;
      destruct (truthy (query req).["alert_type"]) eqn:E2;
      destruct (String.eqb (role (user req)) "user") eqn:E3;
      destruct (truthy (query req).["user_id"]) eqn:E4;
      cbn [q_eq q_order select_from sq_conds app] in Hc;
      repeat (apply elem_of_cons in Hc as [-> | Hc]);
      try (by apply elem_of_nil in Hc);
      cbn [holds]; rewrite Hcell by done; auto.
    all: try (apply Hown; by apply String.eqb_eq).
    all: apply Hother; [by apply String.eqb_neq | done].
  - rewrite Hperm, <- length_rows_of. apply length_filter.
Qed.

Lemma alerts_list_is_complete_witness :
  ∃ rows, Alerts.get_list (Sample2.list_by Sample.admin ∅) Sample.state
          = (json (PRows (Some rows)), Sample.state) ∧
          with_id 2 Sample.free_alert ∈ rows.
Proof.
  destruct (alerts_list_is_complete (Sample2.list_by Sample.admin ∅) Sample.state
              2%positive Sample.free_alert eq_refl)
    as (rows & Heq & Hin & _).
  - intros H. discriminate H.
  - intros H. discriminate H.
  - intros H. discriminate H.
  - intros _ H. discriminate H.
  - exists rows. split; [exact Heq | exact Hin].
Defined.

(** ** The combined incident list *)

Lemma fetch_rows_exact (c : bool) q src tsf w :
  ∃ l, l ≡ₚ (if c then Incidents.to_incident src tsf <$> matching q w else []) ∧
       ∀ B (k : list incident → js B),
         ((if c then
             r ← await_rows q;
             match error r with
             | Some e => throw e
             | None => mret (Incidents.to_incident src tsf <$> default [] (data r))
             end
           else mret []) ≫= k) w = k l w.
Proof.
  destruct c.
  - destruct (await_rows_exact q w) as (rows & Heq & Hperm).
    exists (Incidents.to_incident src tsf <$> rows). split.
    + unfold matching. by rewrite Hperm.
    + intros B k. unfold mbind, js_bind. rewrite Heq. reflexivity.
  - exists []. split; done.
Qed.

Lemma pg_eq_text cell s : as_key (JStr s) = None → pg_eq cell (JStr s) = true → cell = JStr s.
Proof.
  intros Hs. destruct cell as [| |b|q|a|h]; cbn [pg_eq]; try discriminate.
  - rewrite Hs. by destruct (as_key (JNum q)).
  - intros H. apply String.eqb_eq in H. by subst.
Qed.

(** The answer of the combined list: the stored incidents, sorted and
    cut. *)
Lemma incidents_get_list_shape req w :
  ∃ combined,
    combined ≡ₚ stored_incidents req w ∧
    let paginated :=
      Incidents.slice combined (page_offset req)
        (number_add (page_offset req) (page_limit req)) in
    Incidents.get_list req w =
      (json (PPage paginated
               (Pagination (List.length combined) (page_limit req) (page_offset req)
                  (List.length paginated))), w).
Proof.
  unfold Incidents.get_list, handle, Incidents.get_list_try.
  fold (incident_type req). fold (page_limit req). fold (page_offset req).
  fold (incident_query req "alerts" "reported_at").
  fold (incident_query req "crash_events" "triggered_at").
  destruct (fetch_rows_exact
              (strict_eq (incident_type req) (JStr "alert")
               || strict_eq (incident_type req) (JStr "all"))
              (q_order "reported_at" (incident_query req "alerts" "reported_at"))
              "alert" "reported_at" w) as (alerts & Halerts & Ea).
  destruct (fetch_rows_exact
              (strict_eq (incident_type req) (JStr "crash")
               || strict_eq (incident_type req) (JStr "all"))
              (q_order "triggered_at"
                 (q_eq "event_type" (JStr "AUTO_CRASH")
                    (incident_query req "crash_events" "triggered_at")))
              "crash" "triggered_at" w) as (crashes & Hcrashes & Ec).
  exists (Incidents.sort Incidents.by_newest (alerts ++ crashes)). split.
  - rewrite sort_Permutation, Halerts, Hcrashes. reflexivity.
  - cbv zeta. rewrite Ea, Ec. reflexivity.
Qed.

Lemma incident_query_from req table tsf : sq_from (incident_query req table tsf) = table.
Proof.
  unfold incident_query, Incidents.buildBaseQuery.
  repeat match goal with |- context [if ?c then _ else _] => destruct c end; reflexivity.
Qed.

(** Where an element of the combined list comes from. *)
Lemma stored_incidents_source req w e :
  e ∈ stored_incidents req w →
  (source e = "alert" ∧
   strict_eq (incident_type req) (JStr "alert")
   || strict_eq (incident_type req) (JStr "all") = true) ∨
  (crash_is_automatic e ∧
   strict_eq (incident_type req) (JStr "crash")
   || strict_eq (incident_type req) (JStr "all") = true).
Proof.
  unfold stored_incidents. intros He. apply elem_of_app in He as [He | He].
  - left. destruct (_ || _); [| by apply elem_of_nil in He]. split; [| done].
    by apply list_elem_of_fmap in He as (r & -> & _).
  - right. destruct (_ || _); [| by apply elem_of_nil in He]. split; [| done].
    apply list_elem_of_fmap in He as (r & -> & Hr). split; [reflexivity |].
    cbn [Incidents.to_incident inc_data].
    apply list_elem_of_filter in Hr as [Hall _].
    apply Is_true_true in Hall. rewrite forallb_forall in Hall.
    apply pg_eq_text; [reflexivity |].
    apply (Hall (CEq "event_type" (JStr "AUTO_CRASH"))).
    apply list_elem_of_In. cbn [q_eq sq_conds]. apply elem_of_app. right.
    apply list_elem_of_here.
Qed.

Lemma rel_index_nonneg len i : (0 ≤ len)%Z → (0 ≤ Incidents.rel_index len i)%Z.
Proof.
  intros Hlen. unfold Incidents.rel_index.
  destruct i as [| [|] | q]; try lia.
  destruct (truncate q <? 0)%Z eqn:E; [lia |]. apply Z.ltb_ge in E. lia.
Qed.

Lemma slice_nan {A} (l : list A) a : Incidents.slice l a NaN = [].
Proof.
  unfold Incidents.slice. cbn [Incidents.rel_index].
  pose proof (rel_index_nonneg (Z.of_nat (List.length l)) a ltac:(lia)).
  by replace (Z.to_nat _) with 0%nat by lia.
Qed.

Lemma truncate_inject_Z z : truncate (inject_Z z) = z.
Proof. unfold truncate. cbn. apply Z.quot_1_r. Qed.

(** An integer below [2^53] is a double. *)
Lemma to_double_integer z :
  (0 ≤ z < 2 ^ 53)%Z → to_double (inject_Z z) = Finite (inject_Z z).
Proof.
  intros Hz. unfold to_double. cbn [inject_Z Qnum Qden].
  rewrite Z.abs_eq by lia.
  destruct (Z.eqb_spec z 0) as [-> | Hz0]; [reflexivity |].
  change (Z.log2 1) with 0%Z. rewrite Z.sub_0_r.
  assert (Hlog : (2 ^ Z.log2 z ≤ z < 2 ^ (Z.log2 z + 1))%Z).
  { replace (Z.log2 z + 1)%Z with (Z.succ (Z.log2 z)) by lia.
    apply Z.log2_spec. lia. }
  assert (Hl0 : (0 ≤ Z.log2 z)%Z) by apply Z.log2_nonneg.
  assert (Hl : (Z.log2 z ≤ 52)%Z).
  { destruct (Z.le_gt_cases (Z.log2 z) 52) as [? | Hgt]; [done |].
    assert (2 ^ 53 ≤ 2 ^ Z.log2 z)%Z by (apply Z.pow_le_mono_r; lia). lia. }
  set (e0 := (Z.log2 z - 52)%Z).
  assert (Hscaled : (if (0 <=? e0)%Z then (z, 1 * 2 ^ e0)%Z else (z * 2 ^ (- e0), 1)%Z)
                    = (z * 2 ^ (- e0), 1)%Z).
  { destruct (Z.leb_spec 0 e0) as [H0 | H0]; [| reflexivity].
    assert (e0 = 0)%Z as -> by lia. cbn. f_equal; lia. }
  rewrite Hscaled. cbn [fst snd].
  assert (Hpow : (2 ^ 52 = 2 ^ Z.log2 z * 2 ^ (- e0))%Z).
  { rewrite <- Z.pow_add_r by lia. f_equal. lia. }
  assert (Hbig : (2 ^ 52 ≤ z * 2 ^ (- e0))%Z).
  { rewrite Hpow. apply Z.mul_le_mono_nonneg_r; [| lia].
    apply Z.pow_nonneg. lia. }
  assert (Hsmall : (z * 2 ^ (- e0) < 2 ^ 53)%Z).
  { replace (2 ^ 53)%Z with (2 ^ (Z.log2 z + 1) * 2 ^ (- e0))%Z.
    - apply Z.mul_lt_mono_pos_r; [| lia]. apply Z.pow_pos_nonneg; lia.
    - rewrite <- Z.pow_add_r by lia. f_equal. lia. }
  destruct (Z.ltb_spec (z * 2 ^ (- e0)) (2 ^ 52 * 1)) as [Hlt | _]; [lia |].
  rewrite Z.max_l by lia. rewrite Hscaled. cbn [fst snd].
  assert (Hround : round_half_even (z * 2 ^ (- e0)) 1 = (z * 2 ^ (- e0))%Z).
  { unfold round_half_even. rewrite Z.mod_1_r, Z.div_1_r. reflexivity. }
  rewrite Hround.
  destruct (Z.ltb_spec 971 e0) as [? | _]; [lia |].
  destruct (Z.eqb_spec e0 971) as [? | _]; [lia |].
  cbn [orb andb]. destruct (Z.ltb_spec z 0) as [? | _]; [lia |].
  f_equal. rewrite <- (inject_Z_Qred z). apply Qred_complete.
  unfold scale2. destruct (Z.leb_spec 0 e0) as [H0 | H0].
  - assert (e0 = 0)%Z as -> by lia. cbn. unfold Qeq. cbn. lia.
  - unfold Qeq. cbn [Qnum Qden inject_Z].
    rewrite Z2Pos.id by (apply Z.pow_pos_nonneg; lia). lia.
Qed.

Lemma slice_window {A} (l : list A) o n :
  (0 ≤ o)%Z → (0 ≤ n)%Z → (o + n < 2 ^ 53)%Z →
  Incidents.slice l (Finite (inject_Z o))
    (number_add (Finite (inject_Z o)) (Finite (inject_Z n)))
  = take (Z.to_nat n) (drop (Z.to_nat o) l).
Proof.
  intros Ho Hn Hsum. cbn [number_add]. rewrite <- inject_Z_plus.
  rewrite to_double_integer by lia.
  unfold Incidents.slice, Incidents.rel_index. rewrite !truncate_inject_Z.
  destruct (Z.ltb_spec o 0); [lia |].
  destruct (Z.ltb_spec (o + n) 0); [lia |].
  destruct (decide (o ≤ Z.of_nat (List.length l))%Z) as [Hle | Hgt].
  - rewrite (Z.min_l o) by lia.
    destruct (decide (o + n ≤ Z.of_nat (List.length l))%Z).
    + rewrite Z.min_l by lia. f_equal. lia.
    + rewrite Z.min_r by lia.
      rewrite (take_ge _ (Z.to_nat n)) by (rewrite length_drop; lia).
      apply take_ge. rewrite length_drop. lia.
  - rewrite !Z.min_r by lia. rewrite Z.sub_diag. cbn [Z.to_nat take].
    rewrite (drop_ge l (Z.to_nat o)) by lia. by rewrite take_nil.
Qed.

(** X21: the combined incident list answers 200 with a window of the
    stored incidents and leaves the state as it was.  The list it cuts the
    window from holds exactly the stored alerts and automatic crash events
    that its queries ask for; [total] counts that list, [returned] the
    window, and [limit] and [offset] are echoed as parsed.  For an offset
    [o >= 0] and a limit [l >= 0] (whole numbers, [o + l] below [2^53]) the
    window is the [l] elements after the first [o]; without [limit] and
    [offset] in the query these are 20 and 0; a [limit] or [offset] that
    does not parse as a number gives an empty window, not an error. *)
Theorem incidents_page_is_a_window req w :
  ∃ combined items,
    Incidents.get_list req w
    = (json (PPage items
               (Pagination (List.length combined) (page_limit req) (page_offset req)
                  (List.length items))), w) ∧
    combined ≡ₚ stored_incidents req w ∧
    (∀ o l, page_offset req = Finite (inject_Z o) →
            page_limit req = Finite (inject_Z l) →
            (0 ≤ o)%Z → (0 ≤ l)%Z → (o + l < 2 ^ 53)%Z →
            items = take (Z.to_nat l) (drop (Z.to_nat o) combined)) ∧
    (page_offset req = NaN ∨ page_limit req = NaN → items = []) ∧
    ((query req).["limit"] = JUndefined → page_limit req = Finite (inject_Z 20)) ∧
    ((query req).["offset"] = JUndefined → page_offset req = Finite (inject_Z 0)).
Proof.
  destruct (incidents_get_list_shape req w) as (combined & Hperm & Heq).
  cbv zeta in Heq. eexists combined, _. split; [exact Heq |].
  split; [exact Hperm |]. split; [| split; [| split]].
  - intros o l Ho Hl Hoff Hlim Hsum. rewrite Ho, Hl. by apply slice_window.
  - intros [-> | ->].
    + apply slice_nan.
    + destruct (page_offset req) as [| n | q]; apply slice_nan.
  - intros H. unfold page_limit. rewrite H. vm_compute. reflexivity.
  - intros H. unfold page_offset. rewrite H. vm_compute. reflexivity.
Qed.

Lemma incidents_page_is_a_window_witness :
  ∃ combined items,
    Incidents.get_list (Sample2.list_by Sample.admin (object [("limit", JStr "0x1")]))
      Sample2.state
    = (json (PPage items
               (Pagination (List.length combined) (Finite (inject_Z 1))
                  (Finite (inject_Z 0)) (List.length items))), Sample2.state) ∧
    items = take 1 (drop 0 combined).
Proof.
  destruct (incidents_page_is_a_window
              (Sample2.list_by Sample.admin (object [("limit", JStr "0x1")])) Sample2.state)
    as (combined & items & Heq & _ & Hwin & _ & _ & Hoff).
  exists combined, items. split; [exact Heq |].
  apply (Hwin 0%Z 1%Z); [exact (Hoff eq_refl) | vm_compute; reflexivity | lia | lia | lia].
Defined.

Lemma list_eq_nil_elem {A} (l : list A) : (∀ x, x ∉ l) → l = [].
Proof.
  destruct l as [| a l]; [done |]. intros H. destruct (H a). apply list_elem_of_here.
Qed.

Lemma strict_eq_JStr_false v s : v ≠ JStr s → strict_eq v (JStr s) = false.
Proof.
  intros H. destruct (strict_eq v (JStr s)) eqn:E; [| done].
  by apply strict_eq_JStr in E.
Qed.

(** X22: the [type] parameter of the combined list picks the sources.  The
    crash portion holds automatic crash events only, so a manual SOS never
    shows in this list; with [type=alert] every element is an alert, with
    [type=crash] every element is an automatic crash, and a [type] that is
    none of [alert], [crash], [all] gives an empty list with [total] 0
    and status 200. *)
Theorem incidents_type_selects_source req w :
  ∃ items p,
    Incidents.get_list req w = (json (PPage items p), w) ∧
    (∀ e, e ∈ items → source e = "alert" ∨ crash_is_automatic e) ∧
    (incident_type req = JStr "alert" → ∀ e, e ∈ items → source e = "alert") ∧
    (incident_type req = JStr "crash" → ∀ e, e ∈ items → crash_is_automatic e) ∧
    (incident_type req ≠ JStr "alert" → incident_type req ≠ JStr "crash" →
     incident_type req ≠ JStr "all" → items = [] ∧ total p = 0%nat).
Proof.
  destruct (incidents_get_list_shape req w) as (combined & Hperm & Heq).
  cbv zeta in Heq. eexists _, _. split; [exact Heq |].
  assert (Hin : ∀ e, e ∈ Incidents.slice combined (page_offset req)
                       (number_add (page_offset req) (page_limit req)) →
                     e ∈ stored_incidents req w).
  { intros e He. apply elem_of_slice in He. by rewrite Hperm in He. }
  split; [| split; [| split]].
  - intros e He. destruct (stored_incidents_source req w e (Hin e He)) as [[H _] | [H _]];
      [by left | by right].
  - intros Ht e He.
    destruct (stored_incidents_source req w e (Hin e He)) as [[H _] | [_ H]]; [done |].
    rewrite Ht in H. discriminate H.
  - intros Ht e He.
    destruct (stored_incidents_source req w e (Hin e He)) as [[_ H] | [H _]]; [| done].
    rewrite Ht in H. discriminate H.
  - intros H1 H2 H3.
    assert (Hnone : stored_incidents req w = []).
    { unfold stored_incidents. by rewrite !strict_eq_JStr_false. }
    rewrite Hnone in Hperm. apply Permutation_nil_r in Hperm. subst combined.
    cbn [total List.length]. split; [| reflexivity].
    apply list_eq_nil_elem. intros e He. apply elem_of_slice in He.
    by apply elem_of_nil in He.
Qed.

Lemma incidents_type_selects_source_witness :
  ∃ items p,
    Incidents.get_list (Sample2.list_by Sample.admin (object [("type", JStr "sos")]))
      Sample2.state = (json (PPage items p), Sample2.state) ∧
    items = [].
Proof.
  destruct (incidents_type_selects_source
              (Sample2.list_by Sample.admin (object [("type", JStr "sos")])) Sample2.state)
    as (items & p & Heq & _ & _ & _ & Hnone).
  exists items, p. split; [exact Heq |].
  apply Hnone; discriminate.
Defined.
